(** * Clawlet: the payment broker and wallet-state engine

    A shallow embedding of the TypeScript sources [src/store.ts],
    [src/ledger.ts], [src/rules.ts], [src/wallet.ts] and [src/x402.ts]
    of clawletxyz/clawlet, and the properties of its specification that
    were checked against it.

    Conventions.
    - A JavaScript [string] is a [string]; [bigint] is [Z]; [T | null] and
      optional fields are [option T].
    - A [throw] is the [Err] outcome of the broker monad [M]; the state
      reached when the exception is raised is kept, as in the program.
    - The outside world (upstream HTTP server, clock, random generator,
      signing back ends, file writes) is a record of oracles [World],
      indexed by the number of calls made so far.
    - Library functions whose exact result no property depends on
      ([BigInt], viem's [parseUnits], [URL], [Date.toISOString], base64 and
      JSON codecs) are the fields of the class [Prims]; so is
      [String.prototype.toLowerCase], of which the class records what it
      does on ASCII text. *)

From Stdlib Require Import ZArith List String Ascii Bool Lia RelationClasses.
Import ListNotations.

Open Scope string_scope.
Open Scope Z_scope.

(* ===================================================================== *)
(** * JavaScript strings and numbers *)
(* ===================================================================== *)

Module Js.

(** [s.startsWith(p)] *)
Fixpoint startsWith (p s : string) : bool :=
  match p, s with
  | EmptyString, _ => true
  | String a p', String b s' => if Ascii.eqb a b then startsWith p' s' else false
  | String _ _, EmptyString => false
  end.

(** [s.includes(sub)] *)
Fixpoint includes (sub s : string) : bool :=
  if startsWith sub s then true
  else match s with
       | EmptyString => false
       | String _ s' => includes sub s'
       end.

(** One of the letters A to Z lowered; every other byte is kept. *)
Definition lower_ascii (c : ascii) : ascii :=
  let n := nat_of_ascii c in
  if andb (Nat.leb 65 n) (Nat.leb n 90) then ascii_of_nat (n + 32) else c.

(** The byte-lowercase of a string: the letters A to Z are lowered and
    every other byte is kept.  The names of HTTP headers are compared this
    way, and it is what [s.toLowerCase()] returns for a string of ASCII
    characters; [s.toLowerCase()] itself, which follows the Unicode case
    mappings, is the field [toLowerCase] of [Prims]. *)
Fixpoint asciiLowerCase (s : string) : string :=
  match s with
  | EmptyString => EmptyString
  | String c s' => String (lower_ascii c) (asciiLowerCase s')
  end.

(** Every character of [s] is an ASCII character. *)
Fixpoint isAscii (s : string) : bool :=
  match s with
  | EmptyString => true
  | String c s' => andb (Nat.ltb (nat_of_ascii c) 128) (isAscii s')
  end.

(** [s.slice(n)] for [0 <= n] *)
Fixpoint drop (n : nat) (s : string) : string :=
  match n, s with
  | O, _ => s
  | S n', String _ s' => drop n' s'
  | S _, EmptyString => EmptyString
  end.

(** [s.slice(0, n)] for [0 <= n] *)
Fixpoint take (n : nat) (s : string) : string :=
  match n, s with
  | O, _ => EmptyString
  | S n', String c s' => String c (take n' s')
  | S _, EmptyString => EmptyString
  end.

Fixpoint zeros (n : nat) : string :=
  match n with
  | O => EmptyString
  | S n' => String "0" (zeros n')
  end.

(** [s.padStart(n, "0")] *)
Definition padStart0 (n : nat) (s : string) : string :=
  zeros (n - String.length s) ++ s.

(** [s.replace(/0+$/, empty)]: the trailing zeros removed. *)
Fixpoint trimZeros (s : string) : string :=
  match s with
  | EmptyString => EmptyString
  | String c s' =>
      match trimZeros s' with
      | EmptyString => if Ascii.eqb c "0" then EmptyString else String c EmptyString
      | t => String c t
      end
  end.

(** [a || b] on strings: the empty string is falsy. *)
Definition orElse (a b : string) : string :=
  match a with
  | EmptyString => b
  | _ => a
  end.

(** Truthiness of a string. *)
Definition truthy (s : string) : bool :=
  match s with
  | EmptyString => false
  | _ => true
  end.

(** [l.join(sep)] *)
Fixpoint join (sep : string) (l : list string) : string :=
  match l with
  | [] => EmptyString
  | [x] => x
  | x :: rest => x ++ sep ++ join sep rest
  end.

(** The double quote character, as a string. *)
Definition dquote : string := String (ascii_of_nat 34) EmptyString.

Definition digit_char (d : Z) : ascii := ascii_of_nat (48 + Z.to_nat d).

(** The decimal digits of [n >= 0], most significant first, pushed in
    front of [acc]; [fuel] bounds the number of digits. *)
Fixpoint digits_acc (fuel : nat) (n : Z) (acc : string) : string :=
  match fuel with
  | O => acc
  | S f =>
      let acc' := String (digit_char (n mod 10)) acc in
      if n <? 10 then acc' else digits_acc f (n / 10) acc'
  end.

Definition digits (n : Z) : string :=
  digits_acc (S (Z.to_nat (Z.log2 n))) n EmptyString.

(** [v.toString()] for a bigint [v]. *)
Definition bigint_toString (v : Z) : string :=
  if v <? 0 then "-" ++ digits (- v) else digits v.

(** [v.toString().padStart(k, "0")] for [v >= 0]. *)
Definition zero_padded (k : nat) (v : Z) : string := padStart0 k (digits v).

(** ** Property lookups on object literals *)

(** The property names that every object literal inherits from
    [Object.prototype]. *)
Definition OBJECT_PROTOTYPE_KEYS : list string :=
  ["constructor"; "__defineGetter__"; "__defineSetter__"; "hasOwnProperty";
   "__lookupGetter__"; "__lookupSetter__"; "isPrototypeOf"; "propertyIsEnumerable";
   "toString"; "valueOf"; "__proto__"; "toLocaleString"].

Definition inherited (k : string) : bool :=
  existsb (String.eqb k) OBJECT_PROTOTYPE_KEYS.

(** What [o[k]] evaluates to, for an object literal [o]: a property of
    [o] itself, a member of [Object.prototype] (a function, or the
    prototype object for [__proto__]: truthy, and not a string), or
    [undefined]. *)
Inductive member (A : Type) : Type :=
| Own (a : A)
| Proto
| Missing.
Arguments Own {A} a.
Arguments Proto {A}.
Arguments Missing {A}.

(** [o[k]], where [own] lists the properties of the literal [o]. *)
Definition get {A : Type} (own : string -> option A) (k : string) : member A :=
  match own k with
  | Some a => Own a
  | None => if inherited k then Proto else Missing
  end.

(** ** Numbers *)

(** A JavaScript number: [NaN], an infinity, or a finite value, written
    as a fraction. *)
Inductive number : Type :=
| NaN
| Infinity (negative : bool)
| Finite (numerator : Z) (denominator : positive).

(** The number that holds the integer [v]. *)
Definition integer (v : Z) : number := Finite v 1.

(** The number of elements of [a.slice(0, end)] for an array [a] of [len]
    elements: [end] is truncated to an integer ([NaN] counts as 0); a
    negative [end] counts from the end of the array. *)
Definition slice_end (len : nat) (end_ : number) : nat :=
  match end_ with
  | NaN => O
  | Infinity true => O
  | Infinity false => len
  | Finite n d =>
      let relativeEnd := Z.quot n (Z.pos d) in
      if relativeEnd <? 0 then Z.to_nat (Z.max (Z.of_nat len + relativeEnd) 0)
      else Z.to_nat (Z.min relativeEnd (Z.of_nat len))
  end.

(** The integers that a number holds exactly, and on which [+] is exact:
    [Number.isSafeInteger]. *)
Definition isSafeInteger (v : Z) : bool :=
  andb (- (2 ^ 53) <? v) (v <? 2 ^ 53).

End Js.

(* ===================================================================== *)
(** * viem: [formatUnits] *)
(* ===================================================================== *)

Module Viem.

(** viem's [formatUnits(value, decimals)] (utils/unit/formatUnits.ts), the
    library function the broker calls to render amounts:
<<
    let display = value.toString()
    const negative = display.startsWith('-')
    if (negative) display = display.slice(1)
    display = display.padStart(decimals, '0')
    let [integer, fraction] = [
      display.slice(0, display.length - decimals),
      display.slice(display.length - decimals) ]
    fraction = fraction.replace(/(0+)$/, '')
    return `${negative ? '-' : ''}${integer || '0'}${fraction ? `.${fraction}` : ''}`
>> *)
Definition formatUnits (value : Z) (decimals : nat) : string :=
  let display := Js.bigint_toString value in
  let negative := Js.startsWith "-" display in
  let display := if negative then Js.drop 1 display else display in
  let display := Js.padStart0 decimals display in
  let cut := (String.length display - decimals)%nat in
  let integer := Js.take cut display in
  let fraction := Js.trimZeros (Js.drop cut display) in
  (if negative then "-" else EmptyString) ++ Js.orElse integer "0"
    ++ (if Js.truthy fraction then "." ++ fraction else EmptyString).

End Viem.

(* ===================================================================== *)
(** * Data model ([src/types.ts], [src/adapters/types.ts]) *)
(* ===================================================================== *)

(** Persisted configuration of each adapter type. *)
Inductive AdapterConfig : Type :=
| LocalKeyConfig (privateKey : string)
| PrivyConfig (appId appSecret : string) (walletId address : option string)
| CoinbaseCdpConfig (apiKeyId apiKeySecret : string) (walletId address : option string)
| CrossmintConfig (apiKey : string) (walletId address : option string)
| BrowserWalletConfig (address : string).

Record WalletInfo : Type := mkWalletInfo {
  wi_address : string;
  wi_createdAt : string;
  wi_frozen : bool
}.

Record SpendingRules : Type := mkRules {
  maxPerTransaction : option string;
  dailyCap : option string;
  allowedServices : list string;
  blockedServices : list string
}.

Definition DEFAULT_RULES : SpendingRules :=
  {| maxPerTransaction := None; dailyCap := None;
     allowedServices := []; blockedServices := [] |}.

Inductive TxStatus : Type := pending | settled | failed.

Definition TxStatus_eqb (a b : TxStatus) : bool :=
  match a, b with
  | pending, pending | settled, settled | failed, failed => true
  | _, _ => false
  end.

Record TransactionRecord : Type := mkTx {
  tx_id : string;
  tx_timestamp : string;
  tx_to : string;
  tx_service : string;
  tx_amount : string;
  tx_asset : string;
  tx_network : string;
  tx_txHash : option string;
  tx_status : TxStatus;
  tx_reason : string
}.

Record AgentIdentity : Type := mkAgent {
  ag_name : string;
  ag_description : option string;
  ag_agentId : option string;
  ag_agentRegistry : option string;
  ag_agentURI : option string
}.

Record WalletEntry : Type := mkEntry {
  we_id : string;
  we_label : string;
  we_wallet : WalletInfo;
  we_adapterConfig : AdapterConfig;
  we_rules : SpendingRules;
  we_transactions : list TransactionRecord;
  we_agentIdentity : option AgentIdentity
}.

Inductive NetworkId : Type := base | base_sepolia.

Record ClawletState : Type := mkState {
  wallets : list WalletEntry;
  activeWalletId : option string;
  network : NetworkId
}.

(** ** x402 protocol types *)

Record ResourceInfo : Type := mkResource {
  res_url : string;
  res_description : option string
}.

Record PaymentRequirements : Type := mkRequirements {
  pr_scheme : string;
  pr_network : string;
  pr_asset : string;
  pr_amount : string;
  pr_payTo : string;
  pr_maxTimeoutSeconds : Z;
    (** a [number]; the model covers the integers *)
  pr_extra : string
}.

Record PaymentRequired : Type := mkPaymentRequired {
  x402Version : option Z;
  pq_error : option string;
  accepts : list PaymentRequirements;
  pq_resource : option ResourceInfo
}.

Record Authorization : Type := mkAuthorization {
  au_from : string;
  au_to : string;
  au_value : string;
  au_validAfter : string;
  au_validBefore : string;
  au_nonce : string
}.

Record ExactEvmPayload : Type := mkPayload {
  signature : string;
  authorization : Authorization
}.

Record PaymentPayload : Type := mkPaymentPayload {
  pp_x402Version : Z;
  pp_resource : option ResourceInfo;
  pp_accepted : PaymentRequirements;
  pp_payload : ExactEvmPayload
}.

(** The receipt a server returns in [payment-response], after base64 and
    JSON decoding: the two fields the broker reads. *)
Record Receipt : Type := mkReceipt {
  rc_transaction : option string;
  rc_txHash : option string
}.

(** ** HTTP *)

(** A JavaScript object used as a string-keyed record, in insertion order. *)
Definition Dict : Type := list (string * string).

(** [o[k] = v] *)
Fixpoint dict_set (k v : string) (o : Dict) : Dict :=
  match o with
  | [] => [(k, v)]
  | (k', v') :: rest =>
      if String.eqb k' k then (k, v) :: rest else (k', v') :: dict_set k v rest
  end.

(** [{ ...o }] and [headers.forEach((v, k) => { r[k] = v })] *)
Definition dict_copy (o : Dict) : Dict :=
  fold_left (fun acc kv => dict_set (fst kv) (snd kv) acc) o [].

Record Request : Type := mkRequest {
  rq_url : string;
  rq_method : string;
  rq_headers : Dict;
  rq_body : option string
}.

Record Response : Type := mkResponse {
  rs_status : Z;
  rs_headers : Dict;
  rs_body : string
}.

(** [response.headers.get(name)]: header names compare case-insensitively. *)
Definition headers_get (name : string) (h : Dict) : option string :=
  match find (fun kv => String.eqb (Js.asciiLowerCase (fst kv)) (Js.asciiLowerCase name)) h
  with
  | Some kv => Some (snd kv)
  | None => None
  end.

(** [response.ok] *)
Definition rs_ok (r : Response) : bool :=
  andb (200 <=? rs_status r) (rs_status r <=? 299).

(** [a ?? b] *)
Definition nullish {A : Type} (a b : option A) : option A :=
  match a with
  | Some _ => a
  | None => b
  end.

(** Options of [x402Fetch] and [x402Prepare]. *)
Record FetchOptions : Type := mkOptions {
  op_method : option string;
  op_headers : Dict;
  op_body : option string;
  op_reason : option string
}.

(** ** Constants ([src/constants.ts]) *)

Definition CHAIN_IDS (net : string) : option Z :=
  if String.eqb net "eip155:8453" then Some 8453
  else if String.eqb net "eip155:84532" then Some 84532
  else None.

Definition USDC (net : string) : option string :=
  if String.eqb net "eip155:8453" then Some "0x833589fCD6eDb6E08f4c7C32D4f71b54bdA02913"
  else if String.eqb net "eip155:84532" then Some "0x036CbD53842c5426634e7929541eC2318f3dCF7e"
  else None.

Record Eip712Domain : Type := mkDomain {
  dm_name : string;
  dm_version : string;
  dm_chainId : Z;
  dm_verifyingContract : string
}.

Definition USDC_DOMAIN (net : string) : option Eip712Domain :=
  if String.eqb net "eip155:8453" then
    Some (mkDomain "USD Coin" "2" 8453 "0x833589fCD6eDb6E08f4c7C32D4f71b54bdA02913")
  else if String.eqb net "eip155:84532" then
    Some (mkDomain "USDC" "2" 84532 "0x036CbD53842c5426634e7929541eC2318f3dCF7e")
  else None.

Definition DEFAULT_DATA_DIR : string := ".clawlet".
Definition STATE_FILE : string := "state.json".

(** The message of a [TransferWithAuthorization] handed to the signer. *)
Record TypedMessage : Type := mkMessage {
  tm_from : string;
  tm_to : string;
  tm_value : Z;
  tm_validAfter : Z;
  tm_validBefore : Z;
  tm_nonce : string
}.

Record TypedData : Type := mkTypedData {
  td_domain : Eip712Domain;
  td_primaryType : string;
  td_message : TypedMessage
}.

(** In-memory session of the two-phase flow. *)
Record PaymentSession : Type := mkSession {
  ps_id : string;
  ps_url : string;
  ps_method : string;
  ps_headers : Dict;
  ps_body : option string;
  ps_reason : string;
  ps_accepted : PaymentRequirements;
  ps_paymentRequired : PaymentRequired;
  ps_authorization : Authorization;
  ps_txRecordId : string;
  ps_expiresAt : Z
}.

(* ===================================================================== *)
(** * Errors, effects and the broker monad *)
(* ===================================================================== *)

Inductive RuleKind : Type := OverPerTx | OverDaily | Blocked | NotAllowed.

(** One constructor per [throw] site (or family of sites). *)
Inductive Error : Type :=
| NoActiveWallet
| WalletFrozen
| RuleViolation (kind : RuleKind) (message : string)
| TxNotFound (id : string)
| SessionNotFound
| SessionExpired
| NoCompatibleOption
| NetworkMismatch (message : string)
| Not402 (status : Z)
| NoUsdcDomain (net : string)
| AdapterError (message : string)
| UpstreamError
| InvalidInput (what : string)
| PersistenceError.

(** The text of the errors whose message is a constant of the source. *)
Definition error_message (e : Error) : string :=
  match e with
  | NoActiveWallet => "No active wallet. Create or switch to a wallet first."
  | WalletFrozen => "Wallet is frozen. Unfreeze it before making payments."
  | RuleViolation _ m => m
  | TxNotFound id => "Transaction " ++ id ++ " not found"
  | SessionNotFound => "Payment session not found or expired."
  | SessionExpired => "Payment session expired. Please try again."
  | NetworkMismatch m => m
  | NoUsdcDomain net => "No USDC domain config for network: " ++ net
  | AdapterError m => m
  | Not402 _ | NoCompatibleOption | UpstreamError | InvalidInput _
  | PersistenceError => EmptyString
  end.

Definition is_rule_violation (e : Error) : bool :=
  match e with
  | RuleViolation _ _ => true
  | _ => false
  end.

Inductive Result (A : Type) : Type :=
| Ok (a : A)
| Err (e : Error).
Arguments Ok {A} a.
Arguments Err {A} e.

(** The effects of the broker that are visible outside the process. *)
Inductive Event : Type :=
| EvFetch (rq : Request)
    (** [fetch(url, { method, headers, body })] was issued *)
| EvSign (adapter : AdapterConfig) (data : TypedData)
    (** [adapter.signTypedData(data)] was invoked *)
| EvPersist (doc : ClawletState).
    (** [persist()]: [writeFileSync(statePath, JSON.stringify(doc, null, 2))] *)

Inductive EventKind : Type := KFetch | KSign | KPersist.

Definition kind_of (e : Event) : EventKind :=
  match e with
  | EvFetch _ => KFetch
  | EvSign _ _ => KSign
  | EvPersist _ => KPersist
  end.

Definition is_sign (e : Event) : bool :=
  match e with
  | EvSign _ _ => true
  | _ => false
  end.

(** The process: the store's document, the session table (a [Map], kept in
    insertion order), the effects so far and the number of oracle calls. *)
Record Broker : Type := mkBroker {
  state : ClawletState;
  paymentSessions : list (string * PaymentSession);
  trace : list Event;
  calls : nat
}.

(** The world outside the process.  Every answer may depend on the number
    of calls made before it. *)
Record World : Type := mkWorld {
  w_fetch : nat -> Request -> option Response;
    (** the upstream server; [None]: the request fails *)
  w_now : nat -> Z;
    (** [Date.now()], milliseconds *)
  w_randomBytes : nat -> nat -> string;
    (** [randomBytes(n).toString("hex")] *)
  w_sign : nat -> AdapterConfig -> TypedData -> option string;
    (** the signing back end of an adapter; [None]: it fails *)
  w_writeFile : nat -> bool
    (** does [writeFileSync] succeed *)
}.

(** Library functions used by the broker. [None] stands for the exception
    the function throws. *)
Class Prims : Type := mkPrims {
  BigInt : string -> option Z;
  parseUnits : string -> nat -> option Z;
    (** viem's [parseUnits(value, decimals)] *)
  hostname : string -> option string;
    (** [new URL(url).hostname] *)
  toISOString : Z -> string;
    (** [new Date(ms).toISOString()] *)
  privateKeyToAddress : string -> option string;
    (** [privateKeyToAccount(key).address] *)
  decodePaymentRequired : string -> option PaymentRequired;
    (** [JSON.parse(Buffer.from(h, "base64").toString("utf-8"))] *)
  parsePaymentRequired : string -> option PaymentRequired;
    (** [JSON.parse(body)] *)
  decodeReceipt : string -> option Receipt;
    (** the same decoding, of a receipt; [None] covers every exception the
        [try] block catches *)
  encodePayload : PaymentPayload -> string;
    (** [Buffer.from(JSON.stringify(p)).toString("base64")] *)
  toLowerCase : string -> string;
    (** [s.toLowerCase()] *)
  toLowerCase_ascii :
    forall s, Js.isAscii s = true -> toLowerCase s = Js.asciiLowerCase s
    (** on ASCII text it lowers the letters A to Z and keeps the rest *)
}.

Definition M (A : Type) : Type := Broker -> Result A * Broker.

Definition ret {A : Type} (a : A) : M A := fun b => (Ok a, b).

Definition throw {A : Type} (e : Error) : M A := fun b => (Err e, b).

Definition bind {A B : Type} (m : M A) (k : A -> M B) : M B :=
  fun b =>
    match m b with
    | (Ok a, b') => k a b'
    | (Err e, b') => (Err e, b')
    end.

Declare Scope broker_scope.
Delimit Scope broker_scope with broker.
Notation "x <- m ;; k" := (bind m (fun x => k))
  (at level 100, m at next level, right associativity) : broker_scope.
Notation "m ;;; k" := (bind m (fun _ => k))
  (at level 100, right associativity) : broker_scope.
Open Scope broker_scope.

Definition gets {A : Type} (f : Broker -> A) : M A := fun b => (Ok (f b), b).

Definition of_option {A : Type} (e : Error) (o : option A) : M A :=
  match o with
  | Some a => ret a
  | None => throw e
  end.

(** A computation that touches nothing: it returns, or throws. *)
Definition of_result {A : Type} (r : Result A) : M A := fun b => (r, b).

Definition set_state (f : ClawletState -> ClawletState) : M unit :=
  fun b => (Ok tt, mkBroker (f (state b)) (paymentSessions b) (trace b) (calls b)).

Definition set_sessions
  (f : list (string * PaymentSession) -> list (string * PaymentSession)) : M unit :=
  fun b => (Ok tt, mkBroker (state b) (f (paymentSessions b)) (trace b) (calls b)).

Definition emit (e : Event) : M unit :=
  fun b => (Ok tt, mkBroker (state b) (paymentSessions b) (trace b ++ [e]) (calls b)).

(** The index of the next oracle call. *)
Definition tick : M nat :=
  fun b => (Ok (calls b), mkBroker (state b) (paymentSessions b) (trace b) (S (calls b))).

(** ** The session table: [Map<string, PaymentSession>] *)

(** [m.get(k)] *)
Fixpoint sessions_get (k : string) (m : list (string * PaymentSession))
  : option PaymentSession :=
  match m with
  | [] => None
  | (k', v) :: rest => if String.eqb k' k then Some v else sessions_get k rest
  end.

(** [m.set(k, v)]: an existing key keeps its place. *)
Fixpoint sessions_set (k : string) (v : PaymentSession)
  (m : list (string * PaymentSession)) : list (string * PaymentSession) :=
  match m with
  | [] => [(k, v)]
  | (k', v') :: rest =>
      if String.eqb k' k then (k, v) :: rest else (k', v') :: sessions_set k v rest
  end.

(** [m.delete(k)] *)
Fixpoint sessions_delete (k : string) (m : list (string * PaymentSession))
  : list (string * PaymentSession) :=
  match m with
  | [] => []
  | (k', v) :: rest =>
      if String.eqb k' k then sessions_delete k rest else (k', v) :: sessions_delete k rest
  end.

Section Engine.

Context {P : Prims} (W : World).

(** ** Oracle calls *)

(** [Date.now()] *)
Definition Date_now : M Z :=
  n <- tick ;; ret (w_now W n).

(** [Math.floor(Date.now() / 1000)] *)
Definition unix_now : M Z :=
  ms <- Date_now ;; ret (ms / 1000).

(** [randomBytes(k).toString("hex")] *)
Definition randomBytes (k : nat) : M string :=
  n <- tick ;; ret (w_randomBytes W n k).

(** [await fetch(url, { method, headers, body })] *)
Definition fetch (rq : Request) : M Response :=
  emit (EvFetch rq) ;;;
  n <- tick ;;
  of_option UpstreamError (w_fetch W n rq).

(* ===================================================================== *)
(** * State store ([src/store.ts]) *)
(* ===================================================================== *)

(** [persist()]: the whole document is written to the state file. *)
Definition persist : M unit :=
  doc <- gets state ;;
  emit (EvPersist doc) ;;;
  n <- tick ;;
  if w_writeFile W n then ret tt else throw PersistenceError.

Definition is_active (id : string) (w : WalletEntry) : bool :=
  String.eqb (we_id w) id.

(** [getActiveEntry()] *)
Definition getActiveEntry (st : ClawletState) : option WalletEntry :=
  match activeWalletId st with
  | None => None
  | Some id => if Js.truthy id then find (is_active id) (wallets st) else None
  end.

(** [requireActiveEntry()] *)
Definition requireActiveEntry : M WalletEntry :=
  st <- gets state ;;
  of_option NoActiveWallet (getActiveEntry st).

(** [getNetworkCaip2()] *)
Definition getNetworkCaip2 (st : ClawletState) : string :=
  match network st with
  | base_sepolia => "eip155:84532"
  | base => "eip155:8453"
  end.

(** The first element satisfying [p] replaced by its image under [f]:
    what an assignment through the object returned by [find] does. *)
Fixpoint update_first {A : Type} (p : A -> bool) (f : A -> A) (l : list A) : list A :=
  match l with
  | [] => []
  | x :: rest => if p x then f x :: rest else x :: update_first p f rest
  end.

(** An in-place mutation of the entry returned by [requireActiveEntry()]. *)
Definition mutate_active (f : WalletEntry -> WalletEntry) (st : ClawletState)
  : ClawletState :=
  match activeWalletId st with
  | None => st
  | Some id =>
      mkState (update_first (is_active id) f (wallets st)) (activeWalletId st) (network st)
  end.

Definition set_transactions (f : list TransactionRecord -> list TransactionRecord)
  (w : WalletEntry) : WalletEntry :=
  mkEntry (we_id w) (we_label w) (we_wallet w) (we_adapterConfig w) (we_rules w)
    (f (we_transactions w)) (we_agentIdentity w).

(* ===================================================================== *)
(** * Ledger ([src/ledger.ts]) *)
(* ===================================================================== *)

(** [Omit<TransactionRecord, "id" | "timestamp">] *)
Record TxParams : Type := mkTxParams {
  tp_to : string;
  tp_service : string;
  tp_amount : string;
  tp_asset : string;
  tp_network : string;
  tp_txHash : option string;
  tp_status : TxStatus;
  tp_reason : string
}.

(** [addTransaction(params)] *)
Definition addTransaction (params : TxParams) : M TransactionRecord :=
  _ <- requireActiveEntry ;;
  id <- randomBytes 16 ;;
  now <- Date_now ;;
  let record :=
    mkTx id (toISOString now) (tp_to params) (tp_service params) (tp_amount params)
      (tp_asset params) (tp_network params) (tp_txHash params) (tp_status params)
      (tp_reason params) in
  set_state (mutate_active (set_transactions (fun txs => (txs ++ [record])%list))) ;;;
  persist ;;;
  ret record.

(** The [update] argument of [updateTransaction]. *)
Record TxUpdate : Type := mkTxUpdate {
  up_status : option TxStatus;
  up_txHash : option string;
  up_reason : option string
}.

(** [if (update.f) tx.f = update.f] for a string field: an absent or empty
    value leaves the field as it is. *)
Definition truthy_string (o : option string) : option string :=
  match o with
  | Some s => if Js.truthy s then Some s else None
  | None => None
  end.

Definition apply_update (u : TxUpdate) (tx : TransactionRecord) : TransactionRecord :=
  mkTx (tx_id tx) (tx_timestamp tx) (tx_to tx) (tx_service tx) (tx_amount tx)
    (tx_asset tx) (tx_network tx)
    (match truthy_string (up_txHash u) with Some h => Some h | None => tx_txHash tx end)
    (match up_status u with Some s => s | None => tx_status tx end)
    (match truthy_string (up_reason u) with Some r => r | None => tx_reason tx end).

Definition has_id (id : string) (tx : TransactionRecord) : bool :=
  String.eqb (tx_id tx) id.

(** [updateTransaction(id, update)] *)
Definition updateTransaction (id : string) (u : TxUpdate) : M TransactionRecord :=
  entry <- requireActiveEntry ;;
  tx <- of_option (TxNotFound id) (find (has_id id) (we_transactions entry)) ;;
  set_state (mutate_active (set_transactions (update_first (has_id id) (apply_update u)))) ;;;
  persist ;;;
  ret (apply_update u tx).

(** [getTransactions(limit)]: [limit] is 50 when the argument is left
    out. *)
Definition getTransactions (limit : option Js.number) : M (list TransactionRecord) :=
  entry <- requireActiveEntry ;;
  let limit := match limit with Some n => n | None => Js.Finite 50 1 end in
  let reversed := rev (we_transactions entry) in
  ret (firstn (Js.slice_end (List.length reversed) limit) reversed).

(* ===================================================================== *)
(** * Rules engine ([src/rules.ts]) *)
(* ===================================================================== *)

(** [formatAtomic(value, decimals)] *)
Definition formatAtomic (value : Z) (decimals : nat) : string :=
  let str := Js.padStart0 (decimals + 1) (Js.bigint_toString value) in
  let cut := (String.length str - decimals)%nat in
  let whole := Js.orElse (Js.take cut str) "0" in
  let frac := Js.drop cut str in
  whole ++ "." ++ frac.

(** The loop of [getTodaySpent]: settled transactions whose time stamp
    starts with [today] are added up. *)
Fixpoint sumSettledOn (today : string) (txs : list TransactionRecord) (total : Z)
  : option Z :=
  match txs with
  | [] => Some total
  | tx :: rest =>
      if andb (TxStatus_eqb (tx_status tx) settled) (Js.startsWith today (tx_timestamp tx))
      then match parseUnits (tx_amount tx) 6 with
           | Some v => sumSettledOn today rest (total + v)
           | None => None
           end
      else sumSettledOn today rest total
  end.

(** [getTodaySpent(transactions)] *)
Definition getTodaySpent (txs : list TransactionRecord) : M Z :=
  now <- Date_now ;;
  let today := Js.take 10 (toISOString now) in
  of_option (InvalidInput "parseUnits") (sumSettledOn today txs 0).

(** [patterns.some((s) => normalized.includes(s.toLowerCase()))] *)
Definition matches_any (patterns : list string) (service : string) : bool :=
  let normalized := toLowerCase service in
  existsb (fun s => Js.includes (toLowerCase s) normalized) patterns.

(** The messages of the four rule violations. *)
Definition over_per_tx_message (amount : Z) (limit : string) (decimals : nat) : string :=
  "Payment of " ++ formatAtomic amount decimals
  ++ " USDC exceeds per-transaction limit of " ++ limit ++ " USDC".

Definition over_daily_message (limit : string) (todaySpent : Z) (decimals : nat) : string :=
  "Payment would exceed daily cap of " ++ limit ++ " USDC (already spent "
  ++ formatAtomic todaySpent decimals ++ " today)".

Definition blocked_message (rules : SpendingRules) (service : string) : string :=
  "Service " ++ Js.dquote ++ service ++ Js.dquote ++ " is blocked. Blocked services: "
  ++ Js.join ", " (blockedServices rules).

Definition not_allowed_message (rules : SpendingRules) (service : string) : string :=
  "Service " ++ Js.dquote ++ service ++ Js.dquote
  ++ " is not in the allowed services list: " ++ Js.join ", " (allowedServices rules).

(** [enforceRules(amountAtomic, service, decimals)] *)
Definition enforceRules (amountAtomic service : string) (decimals : nat) : M unit :=
  entry <- requireActiveEntry ;;
  let rules := we_rules entry in
  amount <- of_option (InvalidInput "BigInt") (BigInt amountAtomic) ;;
  (* Check per-transaction limit *)
  (match maxPerTransaction rules with
   | Some limit =>
       max <- of_option (InvalidInput "parseUnits") (parseUnits limit decimals) ;;
       if amount >? max then
         throw (RuleViolation OverPerTx (over_per_tx_message amount limit decimals))
       else ret tt
   | None => ret tt
   end) ;;;
  (* Check daily cap *)
  (match dailyCap rules with
   | Some limit =>
       cap <- of_option (InvalidInput "parseUnits") (parseUnits limit decimals) ;;
       todaySpent <- getTodaySpent (we_transactions entry) ;;
       if todaySpent + amount >? cap then
         throw (RuleViolation OverDaily (over_daily_message limit todaySpent decimals))
       else ret tt
   | None => ret tt
   end) ;;;
  (* Check service blocklist (takes precedence over allowlist) *)
  (if (0 <? List.length (blockedServices rules))%nat then
     if matches_any (blockedServices rules) service then
       throw (RuleViolation Blocked (blocked_message rules service))
     else ret tt
   else ret tt) ;;;
  (* Check service allowlist *)
  (if (0 <? List.length (allowedServices rules))%nat then
     if matches_any (allowedServices rules) service then ret tt
     else throw (RuleViolation NotAllowed (not_allowed_message rules service))
   else ret tt).

(* ===================================================================== *)
(** * Wallet adapters ([src/adapters/*.ts]) and wallet ([src/wallet.ts]) *)
(* ===================================================================== *)

(** An adapter object: its configuration and the address it holds. *)
Record Adapter : Type := mkAdapter {
  ad_config : AdapterConfig;
  ad_address : option string
}.

(** [createAdapter(config)]: the constructors of the five adapters. *)
Definition createAdapter (config : AdapterConfig) : M Adapter :=
  match config with
  | LocalKeyConfig key =>
      a <- of_option (InvalidInput "privateKey") (privateKeyToAddress key) ;;
      ret (mkAdapter config (Some a))
  | PrivyConfig _ _ _ a => ret (mkAdapter config a)
  | CoinbaseCdpConfig _ _ _ a => ret (mkAdapter config a)
  | CrossmintConfig _ _ a => ret (mkAdapter config a)
  | BrowserWalletConfig a => ret (mkAdapter config (Some a))
  end.

Definition not_initialized (config : AdapterConfig) : string :=
  match config with
  | LocalKeyConfig _ => "No wallet created yet."
  | PrivyConfig _ _ _ _ => "No Privy wallet initialized."
  | CoinbaseCdpConfig _ _ _ _ => "No Coinbase CDP wallet initialized."
  | CrossmintConfig _ _ _ => "No Crossmint wallet initialized."
  | BrowserWalletConfig _ => "No browser wallet connected."
  end.

(** [adapter.getAddress()] *)
Definition getAddress (adapter : Adapter) : M string :=
  of_option (AdapterError (not_initialized (ad_config adapter)))
    (truthy_string (ad_address adapter)).

(** Is the wallet the signing back end needs known to the adapter. *)
Definition can_sign (config : AdapterConfig) : bool :=
  match config with
  | LocalKeyConfig key => Js.truthy key
  | PrivyConfig _ _ w _ | CoinbaseCdpConfig _ _ w _ | CrossmintConfig _ w _ =>
      match truthy_string w with Some _ => true | None => false end
  | BrowserWalletConfig _ => false
  end.

(** [await adapter.signTypedData(data)].  The browser adapter always throws;
    the others check that they hold a wallet and call their back end. *)
Definition signTypedData (adapter : Adapter) (data : TypedData) : M string :=
  emit (EvSign (ad_config adapter) data) ;;;
  match ad_config adapter with
  | BrowserWalletConfig _ =>
      throw (AdapterError
               ("Browser wallet signing must be done client-side via MetaMask. "
                ++ "Use /api/pay/prepare and /api/pay/complete for two-phase payment."))
  | config =>
      if can_sign config then
        n <- tick ;;
        of_option (AdapterError "signing failed") (w_sign W n config data)
      else throw (AdapterError (not_initialized config))
  end.

(** [getAdapter()]; an adapter cached for a wallet is the one its
    configuration rebuilds. *)
Definition getAdapter : M Adapter :=
  entry <- requireActiveEntry ;;
  createAdapter (we_adapterConfig entry).

(** [getWallet()] *)
Definition getWallet : M WalletInfo :=
  entry <- requireActiveEntry ;;
  ret (we_wallet entry).

(** [getAgentIdentity()] *)
Definition getAgentIdentity (st : ClawletState) : option AgentIdentity :=
  match getActiveEntry st with
  | Some entry => we_agentIdentity entry
  | None => None
  end.

(* ===================================================================== *)
(** * Payment broker ([src/x402.ts]) *)
(* ===================================================================== *)

Record NegotiateResult : Type := mkNegotiateResult {
  ng_accepted : PaymentRequirements;
  ng_paymentRequired : PaymentRequired;
  ng_service : string
}.

Inductive Negotiation : Type :=
| NegPayment (result : NegotiateResult)
| NegPassthrough (response : Response).

Record PaymentInfo : Type := mkPaymentInfo {
  pay_txHash : option string;
  pay_amount : string;
  pay_to : string
}.

Record FetchResult : Type := mkFetchResult {
  fr_status : Z;
  fr_headers : Dict;
  fr_body : string;
  fr_payment : option PaymentInfo
}.

Record SessionDescriptor : Type := mkDescriptor {
  sd_sessionId : string;
  sd_domain : Eip712Domain;
  sd_primaryType : string;
  sd_message : Authorization;
  sd_amount : string;
  sd_payTo : string;
  sd_network : string
}.

(** [findAcceptedOption(accepts)].  [CHAIN_IDS] and [USDC] are object
    literals indexed by the network that the server names.  For a name
    that [Object.prototype] defines, both lookups give a member of the
    prototype, which is truthy, and the call of its [toLowerCase] throws a
    [TypeError]. *)
Fixpoint findAcceptedOption (accepts : list PaymentRequirements)
  : Result (option PaymentRequirements) :=
  match accepts with
  | [] => Ok None
  | option :: rest =>
      if negb (String.eqb (pr_scheme option) "exact") then findAcceptedOption rest
      else
        let chainId := Js.get CHAIN_IDS (pr_network option) in
        if match chainId with
           | Js.Own id => id =? 0
           | Js.Proto => false
           | Js.Missing => true
           end
        then findAcceptedOption rest
        else
          match Js.get USDC (pr_network option) with
          | Js.Own expectedUsdc =>
              if andb (Js.truthy expectedUsdc)
                   (String.eqb (toLowerCase (pr_asset option)) (toLowerCase expectedUsdc))
              then Ok (Some option)
              else findAcceptedOption rest
          | Js.Proto => Err (InvalidInput "expectedUsdc.toLowerCase is not a function")
          | Js.Missing => findAcceptedOption rest
          end
  end.

Definition default {A : Type} (o : option A) (d : A) : A :=
  match o with
  | Some a => a
  | None => d
  end.

Definition network_mismatch_message (selectedNetwork serverNet : string) : string :=
  let isTestnet := Js.includes "84532" selectedNetwork in
  let serverNetwork :=
    if Js.includes "84532" serverNet then "testnet (Base Sepolia)" else "mainnet (Base)" in
  "Network mismatch: you are on " ++ (if isTestnet then "testnet" else "mainnet")
  ++ ", but the server is requesting payment on " ++ serverNetwork
  ++ ". Switch networks to proceed.".

(** [negotiate(url, options)] *)
Definition negotiate (url : string) (options : FetchOptions) : M Negotiation :=
  let method := default (op_method options) "GET" in
  let headers := dict_copy (op_headers options) in
  initialResponse <- fetch (mkRequest url method headers (op_body options)) ;;
  if negb (rs_status initialResponse =? 402) then
    ret (NegPassthrough
           (mkResponse (rs_status initialResponse)
              (dict_copy (rs_headers initialResponse)) (rs_body initialResponse)))
  else
    let paymentRequiredHeader :=
      nullish (headers_get "payment-required" (rs_headers initialResponse))
              (headers_get "PAYMENT-REQUIRED" (rs_headers initialResponse)) in
    paymentRequired <-
      of_option (InvalidInput "payment-required")
        (match truthy_string paymentRequiredHeader with
         | Some h => decodePaymentRequired h
         | None => parsePaymentRequired (rs_body initialResponse)
         end) ;;
    found <- of_result (findAcceptedOption (accepts paymentRequired)) ;;
    accepted <- of_option NoCompatibleOption found ;;
    st <- gets state ;;
    let selectedNetwork := getNetworkCaip2 st in
    if negb (String.eqb (pr_network accepted) selectedNetwork) then
      throw (NetworkMismatch
               (network_mismatch_message selectedNetwork (pr_network accepted)))
    else
      service <- of_option (InvalidInput "URL") (hostname url) ;;
      enforceRules (pr_amount accepted) service 6 ;;;
      ret (NegPayment (mkNegotiateResult accepted paymentRequired service)).

(** The receipt's hash: [receipt.transaction ?? receipt.txHash ?? null],
    when the header is there and decodes. *)
Definition extract_txHash (h : Dict) : option string :=
  let paymentResponseHeader :=
    nullish (headers_get "payment-response" h)
      (nullish (headers_get "PAYMENT-RESPONSE" h)
         (nullish (headers_get "x-payment-response" h)
            (headers_get "X-PAYMENT-RESPONSE" h))) in
  match truthy_string paymentResponseHeader with
  | Some hd =>
      match decodeReceipt hd with
      | Some receipt => nullish (rc_transaction receipt) (rc_txHash receipt)
      | None => None
      end
  | None => None
  end.

(** The [X-AGENT-*] headers of the retry. *)
Definition agent_headers (identity : option AgentIdentity) (h : Dict) : Dict :=
  match identity with
  | Some ag =>
      match truthy_string (ag_agentId ag), truthy_string (ag_agentRegistry ag) with
      | Some aid, Some reg =>
          let h := dict_set "X-AGENT-REGISTRY" reg (dict_set "X-AGENT-ID" aid h) in
          if Js.truthy (ag_name ag) then dict_set "X-AGENT-NAME" (ag_name ag) h else h
      | _, _ => h
      end
  | None => h
  end.

(** The retry request: the caller's headers, the encoded payment under
    both spellings, and the agent headers. *)
Definition retry_request (st : ClawletState) (url : string) (method : option string)
  (hdrs : Dict) (body : option string) (paymentRequired : PaymentRequired)
  (accepted : PaymentRequirements) (payload : ExactEvmPayload) : Request :=
  let method := default method "GET" in
  let headers := dict_copy hdrs in
  let paymentPayload :=
    mkPaymentPayload (default (x402Version paymentRequired) 2)
      (pq_resource paymentRequired) accepted payload in
  let encoded := encodePayload paymentPayload in
  let agentIdentity := getAgentIdentity st in
  let retryHeaders :=
    agent_headers agentIdentity
      (dict_set "X-PAYMENT" encoded (dict_set "PAYMENT-SIGNATURE" encoded headers)) in
  mkRequest url method retryHeaders body.

(** The ledger update that follows the retry response. *)
Definition retry_update (retryResponse : Response) : TxUpdate :=
  if rs_ok retryResponse then
    mkTxUpdate (Some settled) (extract_txHash (rs_headers retryResponse)) None
  else mkTxUpdate (Some failed) None None.

(** [retryWithPayment(url, options, paymentRequired, accepted, payload, txRecordId)] *)
Definition retryWithPayment (url : string) (method : option string) (hdrs : Dict)
  (body : option string) (paymentRequired : PaymentRequired)
  (accepted : PaymentRequirements) (payload : ExactEvmPayload) (txRecordId : string)
  : M FetchResult :=
  st <- gets state ;;
  retryResponse <-
    fetch (retry_request st url method hdrs body paymentRequired accepted payload) ;;
  let retryBody := rs_body retryResponse in
  let responseHeaders := dict_copy (rs_headers retryResponse) in
  let txHash := extract_txHash (rs_headers retryResponse) in
  updateTransaction txRecordId (retry_update retryResponse) ;;;
  amount <- of_option (InvalidInput "BigInt") (BigInt (pr_amount accepted)) ;;
  ret (mkFetchResult (rs_status retryResponse) responseHeaders retryBody
         (Some (mkPaymentInfo txHash (Viem.formatUnits amount 6) (pr_payTo accepted)))).

(** [signPayment(adapter, requirements)].  The program adds
    [maxTimeoutSeconds] to the time as JavaScript numbers; the sum below is
    the sum of the integers, which is what the program computes as long as
    the two numbers and their sum are safe integers ([Js.isSafeInteger]). *)
Definition signPayment (adapter : Adapter) (requirements : PaymentRequirements)
  : M ExactEvmPayload :=
  fromAddress <- getAddress adapter ;;
  domain <- of_option (NoUsdcDomain (pr_network requirements))
              (USDC_DOMAIN (pr_network requirements)) ;;
  now <- unix_now ;;
  bytes <- randomBytes 32 ;;
  let nonce := "0x" ++ bytes in
  value <- of_option (InvalidInput "BigInt") (BigInt (pr_amount requirements)) ;;
  let message :=
    mkMessage fromAddress (pr_payTo requirements) value now
      (now + pr_maxTimeoutSeconds requirements) nonce in
  signature <- signTypedData adapter
                 (mkTypedData domain "TransferWithAuthorization" message) ;;
  ret (mkPayload signature
         (mkAuthorization fromAddress (pr_payTo requirements) (pr_amount requirements)
            (Js.bigint_toString now)
            (Js.bigint_toString (now + pr_maxTimeoutSeconds requirements)) nonce)).

(** The pending record of a negotiated payment. *)
Definition pending_params (accepted : PaymentRequirements) (service amount reason : string)
  : TxParams :=
  mkTxParams (pr_payTo accepted) service amount (pr_asset accepted)
    (pr_network accepted) None pending reason.

(** [x402Fetch(url, options)]: the single-shot flow. *)
Definition x402Fetch (url : string) (options : FetchOptions) : M FetchResult :=
  wallet <- getWallet ;;
  if wi_frozen wallet then throw WalletFrozen
  else
    adapter <- getAdapter ;;
    let reason := default (op_reason options) "x402 payment" in
    negotiation <- negotiate url options ;;
    match negotiation with
    | NegPassthrough response =>
        ret (mkFetchResult (rs_status response) (rs_headers response)
               (rs_body response) None)
    | NegPayment result =>
        let accepted := ng_accepted result in
        (* Sign via adapter *)
        payload <- signPayment adapter accepted ;;
        (* Record pending transaction *)
        amount <- of_option (InvalidInput "BigInt") (BigInt (pr_amount accepted)) ;;
        txRecord <- addTransaction
                      (pending_params accepted (ng_service result)
                         (Viem.formatUnits amount 6) reason) ;;
        retryWithPayment url (op_method options) (op_headers options) (op_body options)
          (ng_paymentRequired result) accepted payload (tx_id txRecord)
    end.

(** [x402Prepare(url, options)]: phase one of the two-phase flow.  As in
    [signPayment], the end of the validity window is the sum of the
    integers. *)
Definition x402Prepare (url : string) (options : FetchOptions) : M SessionDescriptor :=
  wallet <- getWallet ;;
  if wi_frozen wallet then throw WalletFrozen
  else
    adapter <- getAdapter ;;
    let reason := default (op_reason options) "x402 payment" in
    negotiation <- negotiate url options ;;
    match negotiation with
    | NegPassthrough response => throw (Not402 (rs_status response))
    | NegPayment result =>
        let accepted := ng_accepted result in
        fromAddress <- getAddress adapter ;;
        domain <- of_option (NoUsdcDomain (pr_network accepted))
                    (USDC_DOMAIN (pr_network accepted)) ;;
        now <- unix_now ;;
        bytes <- randomBytes 32 ;;
        let nonce := "0x" ++ bytes in
        let validAfter := now in
        let validBefore := now + pr_maxTimeoutSeconds accepted in
        let authorization :=
          mkAuthorization fromAddress (pr_payTo accepted) (pr_amount accepted)
            (Js.bigint_toString validAfter) (Js.bigint_toString validBefore) nonce in
        amount <- of_option (InvalidInput "BigInt") (BigInt (pr_amount accepted)) ;;
        txRecord <- addTransaction
                      (pending_params accepted (ng_service result)
                         (Viem.formatUnits amount 6) reason) ;;
        sessionId <- randomBytes 16 ;;
        let session :=
          mkSession sessionId url (default (op_method options) "GET")
            (dict_copy (op_headers options)) (op_body options) reason accepted
            (ng_paymentRequired result) authorization (tx_id txRecord) validBefore in
        set_sessions (sessions_set sessionId session) ;;;
        ret (mkDescriptor sessionId domain "TransferWithAuthorization" authorization
               (Viem.formatUnits amount 6) (pr_payTo accepted) (pr_network accepted))
    end.

Definition session_expired_update : TxUpdate :=
  mkTxUpdate (Some failed) None (Some "Payment session expired").

(** [x402Complete(sessionId, signature)]: phase two. *)
Definition x402Complete (sessionId sig : string) : M FetchResult :=
  sessions <- gets paymentSessions ;;
  session <- of_option SessionNotFound (sessions_get sessionId sessions) ;;
  now <- unix_now ;;
  if now >? ps_expiresAt session then
    set_sessions (sessions_delete sessionId) ;;;
    updateTransaction (ps_txRecordId session) session_expired_update ;;;
    throw SessionExpired
  else
    (* Clean up session immediately (one-time use) *)
    set_sessions (sessions_delete sessionId) ;;;
    retryWithPayment (ps_url session) (Some (ps_method session)) (ps_headers session)
      (ps_body session) (ps_paymentRequired session) (ps_accepted session)
      (mkPayload sig (ps_authorization session)) (ps_txRecordId session).

(** The loop of [cleanupSessions] over the entries of the table. *)
Fixpoint sweep (now : Z) (entries : list (string * PaymentSession)) : M unit :=
  match entries with
  | [] => ret tt
  | (id, session) :: rest =>
      (if now >? ps_expiresAt session then
         updateTransaction (ps_txRecordId session) session_expired_update ;;;
         set_sessions (sessions_delete id)
       else ret tt) ;;;
      sweep now rest
  end.

(** [cleanupSessions()], run every 60 seconds. *)
Definition cleanupSessions : M unit :=
  now <- unix_now ;;
  entries <- gets paymentSessions ;;
  sweep now entries.

End Engine.

(* ===================================================================== *)
(** * The state file: JSON, migration and start-up ([src/store.ts]) *)
(* ===================================================================== *)

(** A JSON value as [JSON.parse] returns it; the fields of an object are in
    insertion order, each key once.  Numbers are the integers. *)
#[local] Set Warnings "-register-all".
Inductive json : Type :=
| JNull
| JBool (b : bool)
| JNum (n : Z)
| JStr (s : string)
| JArr (items : list json)
| JObj (fields : list (string * json)).

Module Json.

(** [o.k] for a value [o] that is not [null]; [None] is [undefined].
    Only objects have the properties read by the store. *)
Definition prop (k : string) (o : json) : option json :=
  match o with
  | JObj fields =>
      match find (fun kv => String.eqb (fst kv) k) fields with
      | Some kv => Some (snd kv)
      | None => None
      end
  | _ => None
  end.

(** Truthiness of [o.k]. *)
Definition truthy (v : option json) : bool :=
  match v with
  | None | Some JNull => false
  | Some (JBool b) => b
  | Some (JNum n) => negb (n =? 0)
  | Some (JStr s) => Js.truthy s
  | Some (JArr _) | Some (JObj _) => true
  end.

(** [v ?? d] *)
Definition nullish (v : option json) (d : json) : json :=
  match v with
  | None | Some JNull => d
  | Some x => x
  end.

(** [Array.isArray(v)] *)
Definition isArray (v : option json) : bool :=
  match v with
  | Some (JArr _) => true
  | _ => false
  end.

Definition hex_digit (n : nat) : ascii :=
  if Nat.ltb n 10 then ascii_of_nat (48 + n) else ascii_of_nat (87 + n).

(** The escape of one character inside a JSON string. *)
Definition escape_char (c : ascii) : string :=
  let n := nat_of_ascii c in
  if Nat.eqb n 34 then String "\" Js.dquote
  else if Nat.eqb n 92 then "\\"
  else if Nat.eqb n 8 then "\b"
  else if Nat.eqb n 9 then "\t"
  else if Nat.eqb n 10 then "\n"
  else if Nat.eqb n 12 then "\f"
  else if Nat.eqb n 13 then "\r"
  else if Nat.ltb n 32 then
    "\u00" ++ String (hex_digit (n / 16)) (String (hex_digit (n mod 16)) EmptyString)
  else String c EmptyString.

Fixpoint escape (s : string) : string :=
  match s with
  | EmptyString => EmptyString
  | String c s' => escape_char c ++ escape s'
  end.

Definition quote (s : string) : string := Js.dquote ++ escape s ++ Js.dquote.

Definition newline : string := String (ascii_of_nat 10) EmptyString.

(** [JSON.stringify(v, null, 2)] at the given indentation. *)
Fixpoint stringify_at (indent : string) (v : json) : string :=
  let inner := indent ++ "  " in
  match v with
  | JNull => "null"
  | JBool true => "true"
  | JBool false => "false"
  | JNum n => Js.bigint_toString n
  | JStr s => quote s
  | JArr [] => "[]"
  | JArr items =>
      "[" ++ newline
      ++ Js.join ("," ++ newline) (map (fun x => inner ++ stringify_at inner x) items)
      ++ newline ++ indent ++ "]"
  | JObj [] => "{}"
  | JObj fields =>
      "{" ++ newline
      ++ Js.join ("," ++ newline)
           (map (fun kv => inner ++ quote (fst kv) ++ ": " ++ stringify_at inner (snd kv))
              fields)
      ++ newline ++ indent ++ "}"
  end.

Definition stringify (v : json) : string := stringify_at EmptyString v.

Definition optional (k : string) (v : option string) : list (string * json) :=
  match v with
  | Some s => [(k, JStr s)]
  | None => []
  end.

Definition nullable (v : option string) : json :=
  match v with
  | Some s => JStr s
  | None => JNull
  end.

Definition strings (l : list string) : json := JArr (map JStr l).

(** The objects [JSON.stringify] sees for the typed values of the store. *)
Definition of_adapterConfig (c : AdapterConfig) : json :=
  match c with
  | LocalKeyConfig key => JObj [("type", JStr "local-key"); ("privateKey", JStr key)]
  | PrivyConfig appId appSecret w a =>
      JObj ([("type", JStr "privy"); ("appId", JStr appId); ("appSecret", JStr appSecret)]
            ++ optional "walletId" w ++ optional "address" a)
  | CoinbaseCdpConfig k sct w a =>
      JObj ([("type", JStr "coinbase-cdp"); ("apiKeyId", JStr k);
             ("apiKeySecret", JStr sct)]
            ++ optional "walletId" w ++ optional "address" a)
  | CrossmintConfig k w a =>
      JObj ([("type", JStr "crossmint"); ("apiKey", JStr k)]
            ++ optional "walletId" w ++ optional "address" a)
  | BrowserWalletConfig a => JObj [("type", JStr "browser"); ("address", JStr a)]
  end.

Definition of_rules (r : SpendingRules) : json :=
  JObj [("maxPerTransaction", nullable (maxPerTransaction r));
        ("dailyCap", nullable (dailyCap r));
        ("allowedServices", strings (allowedServices r));
        ("blockedServices", strings (blockedServices r))].

Definition of_status (s : TxStatus) : json :=
  match s with
  | pending => JStr "pending"
  | settled => JStr "settled"
  | failed => JStr "failed"
  end.

Definition of_transaction (t : TransactionRecord) : json :=
  JObj [("id", JStr (tx_id t)); ("timestamp", JStr (tx_timestamp t));
        ("to", JStr (tx_to t)); ("service", JStr (tx_service t));
        ("amount", JStr (tx_amount t)); ("asset", JStr (tx_asset t));
        ("network", JStr (tx_network t)); ("txHash", nullable (tx_txHash t));
        ("status", of_status (tx_status t)); ("reason", JStr (tx_reason t))].

Definition of_identity (a : AgentIdentity) : json :=
  JObj ([("name", JStr (ag_name a))]
        ++ optional "description" (ag_description a)
        ++ optional "agentId" (ag_agentId a)
        ++ optional "agentRegistry" (ag_agentRegistry a)
        ++ optional "agentURI" (ag_agentURI a)).

Definition of_entry (w : WalletEntry) : json :=
  JObj ([("id", JStr (we_id w)); ("label", JStr (we_label w));
         ("wallet",
          JObj [("address", JStr (wi_address (we_wallet w)));
                ("createdAt", JStr (wi_createdAt (we_wallet w)));
                ("frozen", JBool (wi_frozen (we_wallet w)))]);
         ("adapterConfig", of_adapterConfig (we_adapterConfig w));
         ("rules", of_rules (we_rules w));
         ("transactions", JArr (map of_transaction (we_transactions w)))]
        ++ match we_agentIdentity w with
           | Some a => [("agentIdentity", of_identity a)]
           | None => []
           end).

Definition of_network (n : NetworkId) : json :=
  match n with
  | base => JStr "base"
  | base_sepolia => JStr "base-sepolia"
  end.

Definition of_state (st : ClawletState) : json :=
  JObj [("wallets", JArr (map of_entry (wallets st)));
        ("activeWalletId", nullable (activeWalletId st));
        ("network", of_network (network st))].

End Json.

Module Store.

Definition DEFAULT_RULES_json : json := Json.of_rules DEFAULT_RULES.

(** The empty document. *)
Definition empty_state : ClawletState := mkState [] None base.

(** [migrateIfNeeded(raw)].  [fresh] is what [randomBytes(8).toString("hex")]
    returns when it is called; [None] is the [TypeError] of reading a
    property of [null]. *)
Definition migrateIfNeeded (fresh : string) (raw : json) : option json :=
  match raw with
  | JNull => None
  | obj =>
      (* Already v2 — has wallets array *)
      if Json.isArray (Json.prop "wallets" obj) then Some obj
      else
        (* v1 — single-wallet format *)
        let legacy := obj in
        let wallets :=
          if andb (Json.truthy (Json.prop "wallet" legacy))
                  (Json.truthy (Json.prop "adapterConfig" legacy))
          then
            [JObj [("id", JStr fresh);
                   ("label", JStr "Wallet 1");
                   ("wallet", Json.nullish (Json.prop "wallet" legacy) JNull);
                   ("adapterConfig", Json.nullish (Json.prop "adapterConfig" legacy) JNull);
                   ("rules", Json.nullish (Json.prop "rules" legacy) DEFAULT_RULES_json);
                   ("transactions",
                    Json.nullish (Json.prop "transactions" legacy) (JArr []))]]
          else [] in
        Some (JObj [("wallets", JArr wallets);
                    ("activeWalletId",
                     match wallets with
                     | w :: _ => Json.nullish (Json.prop "id" w) JNull
                     | [] => JNull
                     end);
                    ("network", JStr "base")])
  end.

(** ** The file system, as far as the store uses it *)

Inductive FsOp : Type :=
| FsMkdir (path : string)
| FsWriteFile (path content : string)
| FsRename (from to : string).

Record Fs : Type := mkFs {
  fs_dirs : list string;
  fs_files : list (string * string)
}.

Definition fs_read (path : string) (fs : Fs) : option string :=
  match find (fun kv => String.eqb (fst kv) path) (fs_files fs) with
  | Some kv => Some (snd kv)
  | None => None
  end.

Definition fs_remove (path : string) (files : list (string * string))
  : list (string * string) :=
  filter (fun kv => negb (String.eqb (fst kv) path)) files.

Definition fs_exists_dir (path : string) (fs : Fs) : bool :=
  existsb (String.eqb path) (fs_dirs fs).

(** The effect of an operation that completes. *)
Definition fs_apply (op : FsOp) (fs : Fs) : Fs :=
  match op with
  | FsMkdir p => mkFs (p :: fs_dirs fs) (fs_files fs)
  | FsWriteFile p c => mkFs (fs_dirs fs) ((p, c) :: fs_remove p (fs_files fs))
  | FsRename a b =>
      match fs_read a fs with
      | Some c => mkFs (fs_dirs fs) ((b, c) :: fs_remove b (fs_remove a (fs_files fs)))
      | None => fs
      end
  end.

Definition fs_run (ops : list FsOp) (fs : Fs) : Fs :=
  fold_left (fun acc op => fs_apply op acc) ops fs.

(** The file systems a crash can leave behind while [ops] run: a crash
    between two operations leaves what the completed ones wrote; a crash
    inside [writeFileSync(p, c)], which truncates [p] and then writes [c],
    leaves a proper prefix of [c] in [p]; a rename is atomic. *)
Inductive crash_image : list FsOp -> Fs -> Fs -> Prop :=
| crash_before ops fs : crash_image ops fs fs
| crash_after op ops fs fs' :
    crash_image ops (fs_apply op fs) fs' -> crash_image (op :: ops) fs fs'
| crash_inside_write p c n ops fs :
    (n < String.length c)%nat ->
    crash_image (FsWriteFile p c :: ops) fs (fs_apply (FsWriteFile p (Js.take n c)) fs).

(** [join(a, b)] on plain path segments. *)
Definition join (a b : string) : string := a ++ "/" ++ b.

Definition dataDir (baseDir : string) : string := join baseDir DEFAULT_DATA_DIR.
Definition statePath (baseDir : string) : string := join (dataDir baseDir) STATE_FILE.

(** [persist()] at the level of the file system:
    [writeFileSync(statePath, JSON.stringify(state, null, 2), "utf-8")]. *)
Definition persist_ops (baseDir : string) (doc : json) : list FsOp :=
  [FsWriteFile (statePath baseDir) (Json.stringify doc)].

(** The file-system operations behind an effect of the broker. *)
Definition fs_ops_of (baseDir : string) (ev : Event) : list FsOp :=
  match ev with
  | EvPersist doc => persist_ops baseDir (Json.of_state doc)
  | _ => []
  end.

(** [initStore(baseDir)]: the document held in memory afterwards and the
    operations performed; [None] when [JSON.parse] or the migration
    throws.  [parse] is [JSON.parse]; [baseDir] is the argument, or the
    working directory when there is none. *)
Definition initStore (parse : string -> option json) (fresh : string)
  (baseDir : string) (fs : Fs) : option (json * list FsOp) :=
  let mk := if fs_exists_dir (dataDir baseDir) fs then []
            else [FsMkdir (dataDir baseDir)] in
  match fs_read (statePath baseDir) fs with
  | Some text =>
      match parse text with
      | Some raw =>
          match migrateIfNeeded fresh raw with
          | Some st => Some (st, (mk ++ persist_ops baseDir st)%list)  (* write back migrated format *)
          | None => None
          end
      | None => None
      end
  | None =>
      let st := Json.of_state empty_state in
      Some (st, (mk ++ persist_ops baseDir st)%list)
  end.

End Store.

(* ===================================================================== *)
(** * A reference instance of the library functions

    Used to run the model on concrete inputs.  The properties below are
    proved for every instance of [Prims]. *)
(* ===================================================================== *)

Module Ref.

Definition digit_value (c : ascii) : option Z :=
  let n := nat_of_ascii c in
  if andb (Nat.leb 48 n) (Nat.leb n 57) then Some (Z.of_nat (n - 48)) else None.

(** The number written by a string of decimal digits; the empty string
    is [0], as for [BigInt]. *)
Fixpoint parse_digits (s : string) (acc : Z) : option Z :=
  match s with
  | EmptyString => Some acc
  | String c s' =>
      match digit_value c with
      | Some d => parse_digits s' (10 * acc + d)
      | None => None
      end
  end.

(** [BigInt(s)] for a decimal literal with an optional minus sign. *)
Definition bigint_of_string (s : string) : option Z :=
  match s with
  | String "-" (String c s') =>
      match parse_digits (String c s') 0 with
      | Some n => Some (- n)
      | None => None
      end
  | _ => parse_digits s 0
  end.

(** The text before and after the first point. *)
Fixpoint split_point (s : string) : string * option string :=
  match s with
  | EmptyString => (EmptyString, None)
  | String c s' =>
      if Ascii.eqb c "." then (EmptyString, Some s')
      else let '(a, b) := split_point s' in (String c a, b)
  end.

(** viem's [parseUnits(value, decimals)]: the value scaled by
    [10^decimals]; fraction digits beyond [decimals] are rounded, half
    up. *)
Definition units_of_string (value : string) (decimals : nat) : option Z :=
  let negative := Js.startsWith "-" value in
  let body := if negative then Js.drop 1 value else value in
  let '(integer, fraction) := split_point body in
  let fraction := Js.trimZeros (default fraction "0") in
  match parse_digits integer 0, parse_digits (Js.take decimals fraction) 0,
        parse_digits (Js.take 1 (Js.drop decimals fraction)) 0 with
  | Some i, Some f, Some next =>
      let kept := Z.of_nat (Nat.min decimals (String.length fraction)) in
      let scaled := i * 10 ^ Z.of_nat decimals + f * 10 ^ (Z.of_nat decimals - kept) in
      let rounded := if 5 <=? next then scaled + 1 else scaled in
      Some (if negative then - rounded else rounded)
  | _, _, _ => None
  end.

Definition strip (p s : string) : option string :=
  if Js.startsWith p s then Some (Js.drop (String.length p) s) else None.

Fixpoint host_part (s : string) : string :=
  match s with
  | EmptyString => EmptyString
  | String c s' =>
      if orb (Ascii.eqb c "/") (orb (Ascii.eqb c ":") (orb (Ascii.eqb c "?") (Ascii.eqb c "#")))
      then EmptyString
      else String c (host_part s')
  end.

(** [new URL(url).hostname] for [http(s)://host[:port][/path]]. *)
Definition host_of_url (url : string) : option string :=
  match nullish (strip "https://" url) (strip "http://" url) with
  | Some rest => Some (Js.asciiLowerCase (host_part rest))
  | None => None
  end.

(** [new Date(ms).toISOString()], for the years 0000 to 9999. *)
Definition iso_string (ms : Z) : string :=
  let days := ms / 86400000 in
  let rest := ms mod 86400000 in
  let z := days + 719468 in
  let era := z / 146097 in
  let doe := z - era * 146097 in
  let yoe := (doe - doe / 1460 + doe / 36524 - doe / 146096) / 365 in
  let doy := doe - (365 * yoe + yoe / 4 - yoe / 100) in
  let mp := (5 * doy + 2) / 153 in
  let d := doy - (153 * mp + 2) / 5 + 1 in
  let m := if mp <? 10 then mp + 3 else mp - 9 in
  let y := yoe + era * 400 + (if m <=? 2 then 1 else 0) in
  Js.zero_padded 4 y ++ "-" ++ Js.zero_padded 2 m ++ "-" ++ Js.zero_padded 2 d ++ "T"
  ++ Js.zero_padded 2 (rest / 3600000) ++ ":" ++ Js.zero_padded 2 (rest / 60000 mod 60)
  ++ ":" ++ Js.zero_padded 2 (rest / 1000 mod 60) ++ "."
  ++ Js.zero_padded 3 (rest mod 1000) ++ "Z".

Definition lookup {A : Type} (k : string) (table : list (string * A)) : option A :=
  match find (fun kv => String.eqb (fst kv) k) table with
  | Some kv => Some (snd kv)
  | None => None
  end.

(** The instance.  The decoders of wire documents are tables from the
    text on the wire to the decoded document; the address of a key and
    the encoding of a payload are stand-ins, and [toLowerCase] is the
    byte-lowercase, for the ASCII text of the scenarios. *)
Definition prims (offers : list (string * PaymentRequired))
  (receipts : list (string * Receipt)) : Prims :=
  {| BigInt := bigint_of_string;
     parseUnits := units_of_string;
     hostname := host_of_url;
     toISOString := iso_string;
     privateKeyToAddress := fun key => Some ("0x" ++ key);
     decodePaymentRequired := fun h => lookup h offers;
     parsePaymentRequired := fun body => lookup body offers;
     decodeReceipt := fun h => lookup h receipts;
     encodePayload := fun p => "payload:" ++ signature (pp_payload p);
     toLowerCase := Js.asciiLowerCase;
     toLowerCase_ascii := fun _ _ => eq_refl |}.

End Ref.

(* ===================================================================== *)
(** * Sample runs

    The scenarios of the specification, as concrete inputs: a wallet on
    Base Sepolia, an upstream server that asks 0.1 USDC, and a clock. *)
(* ===================================================================== *)

Module Sample.

Definition sepolia_usdc : string := "0x036CbD53842c5426634e7929541eC2318f3dCF7e".
Definition payee : string := "0x1111111111111111111111111111111111111111".

Definition requirement : PaymentRequirements :=
  mkRequirements "exact" "eip155:84532" sepolia_usdc "100000" payee 600 "{}".

Definition offer : PaymentRequired :=
  mkPaymentRequired (Some 2) None [requirement] None.

(** [prims]: the reference instance, with the wire text [offer] decoding to
    the 402 document and [receipt] to a receipt. *)
Definition prims : Prims :=
  Ref.prims [("offer", offer)] [("receipt", mkReceipt (Some "0xab12") None)].

(** Has the request the payment header of a retry. *)
Definition paid (rq : Request) : bool :=
  match headers_get "X-PAYMENT" (rq_headers rq) with
  | Some _ => true
  | None => false
  end.

(** The upstream server: 402 with the offer, and 200 once paid, with or
    without a receipt header. *)
Definition server (receipt : bool) (n : nat) (rq : Request) : option Response :=
  if paid rq then
    Some (mkResponse 200
            (if receipt then [("payment-response", "receipt")] else [])
            "paid content")
  else Some (mkResponse 402 [("payment-required", "offer")] EmptyString).

(** A world whose clock advances by [step] milliseconds per call, starting
    on 2023-11-14; every signature and every file write succeeds. *)
Definition world (receipt : bool) (step : Z) : World :=
  {| w_fetch := server receipt;
     w_now := fun n => 1700000000000 + step * Z.of_nat n;
     w_randomBytes := fun n k => Js.padStart0 (2 * k) (Js.digits (Z.of_nat n));
     w_sign := fun _ _ _ => Some "0xsignature";
     w_writeFile := fun _ => true |}.

Definition entry (config : AdapterConfig) (frozen : bool) (rules : SpendingRules)
  (txs : list TransactionRecord) : WalletEntry :=
  mkEntry "a1b2c3d4e5f60718" "Wallet 1"
    (mkWalletInfo "0x2222222222222222222222222222222222222222"
       "2023-11-01T00:00:00.000Z" frozen)
    config rules txs None.

Definition local_key : AdapterConfig := LocalKeyConfig "0xkey".

(** A process with one wallet, active, on Base Sepolia. *)
Definition process (config : AdapterConfig) (frozen : bool) (rules : SpendingRules)
  (txs : list TransactionRecord) : Broker :=
  mkBroker (mkState [entry config frozen rules txs] (Some "a1b2c3d4e5f60718") base_sepolia)
    [] [] 0.

Definition options : FetchOptions := mkOptions None [] None None.

Definition url : string := "https://api.example.com/weather".
Definition evil_url : string := "https://api.evil.example/x".

Definition blocking_rules : SpendingRules :=
  mkRules None None [] ["evil.example"].

(** A settled payment of 0.09 USDC made earlier the same day. *)
Definition earlier_today : TransactionRecord :=
  mkTx "00000000000000000000000000000001" "2023-11-14T08:00:00.000Z" payee
    "api.example.com" "0.09" sepolia_usdc "eip155:84532" (Some "0xaa") settled
    "x402 payment".

(** The single-shot flow, run to its end. *)
Definition single_shot (receipt : bool) : Result FetchResult * Broker :=
  @x402Fetch prims (world receipt 1) url options (process local_key false DEFAULT_RULES []).

(** The two-phase flow with a browser wallet: the process after
    [x402Prepare], and the id of the session it opened. *)
Definition browser : AdapterConfig :=
  BrowserWalletConfig "0x2222222222222222222222222222222222222222".

Definition prepared (step : Z) : Result SessionDescriptor * Broker :=
  @x402Prepare prims (world true step) url options (process browser false DEFAULT_RULES []).

Definition session_id : string := "00000000000000000000000000000006".

(** The pending record of a payment that is about to be retried. *)
Definition pending_tx : TransactionRecord :=
  mkTx "00000000000000000000000000000003" "2023-11-14T22:13:20.004Z" payee
    "api.example.com" "0.1" sepolia_usdc "eip155:84532" None pending "x402 payment".

Definition payload : ExactEvmPayload :=
  mkPayload "0xsignature"
    (mkAuthorization "0x2222222222222222222222222222222222222222" payee "100000"
       "1700000000" "1700000600"
       "0x0000000000000000000000000000000000000000000000000000000000000002").

(** Rules of the boundary scenarios: a daily cap of 0.10 USDC, with or
    without a per-transaction limit of 0.005 USDC. *)
Definition capped_rules (limit : option string) : SpendingRules :=
  mkRules limit (Some "0.10") [] [].

(** Rules whose two lists both match [api.evil.example], with or without
    a per-transaction limit. *)
Definition listed_rules (limit : option string) : SpendingRules :=
  mkRules limit None ["evil.example"] ["evil.example"].

(** A legacy document without wallet. *)
Definition legacy_fields : list (string * json) :=
  [("adapterConfig", JNull);
   ("rules", Json.of_rules (mkRules (Some "5.00") (Some "50.00") [] []));
   ("transactions", JArr [Json.of_transaction earlier_today])].

Definition legacy_text : string := Json.stringify (JObj legacy_fields).

(** [JSON.parse], on the one text of the scenario. *)
Definition parse (text : string) : option json :=
  if String.eqb text legacy_text then Some (JObj legacy_fields) else None.

Definition home : string := "/home/agent".

(** A file system that holds the legacy state file. *)
Definition legacy_fs : Store.Fs :=
  Store.mkFs [Store.dataDir home] [(Store.statePath home, legacy_text)].

(** A file system that holds the empty document, and a document with one
    wallet that is about to replace it. *)
Definition empty_text : string := Json.stringify (Json.of_state Store.empty_state).

Definition empty_fs : Store.Fs :=
  Store.mkFs [Store.dataDir home] [(Store.statePath home, empty_text)].

Definition one_wallet : json :=
  Json.of_state (state (process local_key false DEFAULT_RULES [])).

End Sample.

(* ===================================================================== *)
(** * Vocabulary of the properties *)
(* ===================================================================== *)

(** ** Frames: what an action leaves alone *)

(** [m] takes every process to one related to it by [R]. *)
Definition respects (R : Broker -> Broker -> Prop) {A : Type} (m : M A) : Prop :=
  forall b, R b (snd (m b)).

(** Only the call counter moves. *)
Definition quiet (b b' : Broker) : Prop :=
  state b' = state b /\ paymentSessions b' = paymentSessions b /\ trace b' = trace b.

(** The document and the session table are as before. *)
Definition readonly (b b' : Broker) : Prop :=
  state b' = state b /\ paymentSessions b' = paymentSessions b.

(** The session table is as before. *)
Definition same_sessions (b b' : Broker) : Prop :=
  paymentSessions b' = paymentSessions b.

(** The new effects all satisfy [Q]. *)
Definition emits_only (Q : Event -> Prop) (b b' : Broker) : Prop :=
  exists d, trace b' = (trace b ++ d)%list /\ Forall Q d.

(** A session that is not in the table stays out of it. *)
Definition stays_absent (k : string) (b b' : Broker) : Prop :=
  sessions_get k (paymentSessions b) = None -> sessions_get k (paymentSessions b') = None.

(** [m] adds at most the session whose id it returns. *)
Definition adds_returned (k : string) {A : Type} (idOf : A -> string) (m : M A) : Prop :=
  forall b,
    sessions_get k (paymentSessions b) = None ->
    (forall a, fst (m b) = Ok a -> idOf a <> k) ->
    sessions_get k (paymentSessions (snd (m b))) = None.

(** ** The order of effects *)

Definition is_fetch (ev : Event) : Prop := kind_of ev = KFetch.
Definition is_persist (ev : Event) : Prop := kind_of ev = KPersist.
Definition is_sign_request (ev : Event) : Prop := kind_of ev = KSign.
Definition not_sign (ev : Event) : Prop := kind_of ev <> KSign.

(** The document written has an active wallet whose last transaction has
    status [s]. *)
Definition persists_last (s : TxStatus) (ev : Event) : Prop :=
  exists doc entry txs r,
    ev = EvPersist doc /\ getActiveEntry doc = Some entry /\
    we_transactions entry = (txs ++ [r])%list /\ tx_status r = s.

(** A pattern lists what each successive effect must satisfy. *)
Definition Pattern : Type := list (Event -> Prop).

(** [d] follows the pattern from its start, possibly stopping early. *)
Inductive conforms : list Event -> Pattern -> Prop :=
| conforms_nil pat : conforms [] pat
| conforms_cons ev d (Q : Event -> Prop) pat :
    Q ev -> conforms d pat -> conforms (ev :: d) (Q :: pat).

(** [d] follows the pattern to its end. *)
Definition exactly (d : list Event) (pat : Pattern) : Prop :=
  Forall2 (fun ev (Q : Event -> Prop) => Q ev) d pat.

(** The effects of [m] follow [pat]; they follow it to the end when [m]
    returns. *)
Definition within (pat : Pattern) {A : Type} (m : M A) : Prop :=
  forall b, exists d,
    trace (snd (m b)) = (trace b ++ d)%list /\ conforms d pat /\
    (forall a, fst (m b) = Ok a -> exactly d pat).

(** The effects of [m] follow [pat], whatever [m] returns. *)
Definition loosely (pat : Pattern) {A : Type} (m : M A) : Prop :=
  forall b, exists d, trace (snd (m b)) = (trace b ++ d)%list /\ conforms d pat.

(** The effects of the single-shot flow, in order: the request, the
    signature, the pending record written, the retry, the outcome
    written. *)
Definition single_shot_pattern : Pattern :=
  [is_fetch; is_sign_request; persists_last pending; is_fetch; is_persist].

(** The claim that a pending record is written before any signature is
    asked for, as a check of a trace: [persisted] tells whether a document
    with a pending record of the active wallet has been written so far. *)
Definition has_pending (doc : ClawletState) : bool :=
  match getActiveEntry doc with
  | Some entry =>
      existsb (fun tx => TxStatus_eqb (tx_status tx) pending) (we_transactions entry)
  | None => false
  end.

Fixpoint pending_before_signing (persisted : bool) (d : list Event) : bool :=
  match d with
  | [] => true
  | EvSign _ _ :: rest => andb persisted (pending_before_signing persisted rest)
  | EvPersist doc :: rest => pending_before_signing (orb persisted (has_pending doc)) rest
  | EvFetch _ :: rest => pending_before_signing persisted rest
  end.

(** ** The ledger *)


(** The record of the active wallet that [updateTransaction] reaches. *)
Definition active_tx (id : string) (st : ClawletState) : option TransactionRecord :=
  match getActiveEntry st with
  | Some entry => find (has_id id) (we_transactions entry)
  | None => None
  end.

(** The document once [updateTransaction(id, u)] has changed the record. *)
Definition marked (id : string) (u : TxUpdate) (st : ClawletState) : ClawletState :=
  mutate_active (set_transactions (update_first (has_id id) (apply_update u))) st.

(** The process after [updateTransaction(id, u)] found its record. *)
Definition after_update (id : string) (u : TxUpdate) (b : Broker) : Broker :=
  mkBroker (marked id u (state b)) (paymentSessions b)
    (trace b ++ [EvPersist (marked id u (state b))])%list (S (calls b)).

(** The record [addTransaction] builds, and the process after it, when
    there is an active wallet. *)
Definition added_record {P : Prims} (W : World) (params : TxParams) (b : Broker)
  : TransactionRecord :=
  mkTx (w_randomBytes W (calls b) 16) (toISOString (w_now W (S (calls b))))
    (tp_to params) (tp_service params) (tp_amount params) (tp_asset params)
    (tp_network params) (tp_txHash params) (tp_status params) (tp_reason params).

Definition after_add {P : Prims} (W : World) (params : TxParams) (b : Broker) : Broker :=
  let doc :=
    mutate_active (set_transactions (fun txs => (txs ++ [added_record W params b])%list))
      (state b) in
  mkBroker doc (paymentSessions b) (trace b ++ [EvPersist doc])%list (S (S (S (calls b)))).

(** The process when a request has been issued. *)
Definition after_fetch (rq : Request) (b : Broker) : Broker :=
  mkBroker (state b) (paymentSessions b) (trace b ++ [EvFetch rq])%list (S (calls b)).

(** The record [id] of the active wallet is marked as expired. *)
Definition marked_expired (id : string) (st : ClawletState) : Prop :=
  exists tx, active_tx id st = Some tx /\ tx_status tx = failed /\
             tx_reason tx = "Payment session expired".

(** ** Sessions *)

(** The process once [x402Complete] has read the clock and removed the
    session. *)
Definition session_removed (k : string) (b : Broker) : Broker :=
  mkBroker (state b) (sessions_delete k (paymentSessions b)) (trace b) (S (calls b)).

(** What can happen to the process after a session [k] was completed: any
    completion, a sweep, a preparation that returns another session id, or
    an operation that does not touch the session table (the single-shot
    flow and the wallet manager). *)
Inductive op_step {P : Prims} (W : World) (k : string) : Broker -> Broker -> Prop :=
| step_complete id sig b : op_step W k b (snd (x402Complete W id sig b))
| step_sweep b : op_step W k b (snd (cleanupSessions W b))
| step_prepare url options b :
    (forall d, fst (x402Prepare W url options b) = Ok d -> sd_sessionId d <> k) ->
    op_step W k b (snd (x402Prepare W url options b))
| step_other b b' : paymentSessions b' = paymentSessions b -> op_step W k b b'.

Inductive later {P : Prims} (W : World) (k : string) : Broker -> Broker -> Prop :=
| later_now b : later W k b b
| later_step b1 b2 b3 : op_step W k b1 b2 -> later W k b2 b3 -> later W k b1 b3.

(** ** The rules engine *)

(** The per-transaction limit does not reject [amount]. *)
Definition per_tx_allows {P : Prims} (rules : SpendingRules) (amount : Z) (decimals : nat)
  : Prop :=
  match maxPerTransaction rules with
  | None => True
  | Some limit => exists max, parseUnits limit decimals = Some max /\ amount <= max
  end.

(** The date prefix [getTodaySpent] compares time stamps with, when the
    clock is read at call [n]. *)
Definition today_at {P : Prims} (W : World) (n : nat) : string :=
  Js.take 10 (toISOString (w_now W n)).

(** The daily cap does not reject [amount]. *)
Definition daily_allows {P : Prims} (W : World) (b : Broker) (entry : WalletEntry)
  (amount : Z) (decimals : nat) : Prop :=
  match dailyCap (we_rules entry) with
  | None => True
  | Some limit =>
      exists cap spent,
        parseUnits limit decimals = Some cap /\
        sumSettledOn (today_at W (calls b)) (we_transactions entry) 0 = Some spent /\
        spent + amount <= cap
  end.

(** The service is not blocked, and is allowed. *)
Definition lists_allow {P : Prims} (rules : SpendingRules) (service : string) : Prop :=
  matches_any (blockedServices rules) service = false /\
  (allowedServices rules = [] \/ matches_any (allowedServices rules) service = true).

(** ** Amounts *)

(** The fraction of a formatted amount: nothing when it is zero, else the
    point and the digits without their trailing zeros. *)
Definition fraction_text (decimals : nat) (r : Z) : string :=
  if r =? 0 then EmptyString else "." ++ Js.trimZeros (Js.zero_padded decimals r).

(** The amount as the specification words it (section 4.6.4): the integer
    part, a point, and the fraction without trailing zeros but with at
    least one digit. *)
Definition spec_format_amount (atomic : Z) : string :=
  Js.digits (atomic / 1000000) ++ "."
  ++ Js.orElse (Js.trimZeros (Js.zero_padded 6 (atomic mod 1000000))) "0".

(** ** Atomic writes *)

(** The write-to-temp-then-rename algorithm, as a check of the operations
    that write [content] to [path]. *)
Definition is_temp_then_rename (path content : string) (ops : list Store.FsOp) : bool :=
  match ops with
  | [Store.FsWriteFile tmp c; Store.FsRename from to] =>
      andb (negb (String.eqb tmp path))
        (andb (String.eqb c content) (andb (String.eqb from tmp) (String.eqb to path)))
  | _ => false
  end.

(* ===================================================================== *)
(** * Settings: network, rules and the wallet manager
      ([src/store.ts], [src/rules.ts], [src/wallet.ts]) *)
(* ===================================================================== *)

(** [throw new Error(`Wallet ${walletId} not found`)]: the errors of the
    wallet manager are [InvalidInput] values that carry the message of the
    source. *)
Definition WalletNotFound (walletId : string) : Error :=
  InvalidInput ("Wallet " ++ walletId ++ " not found").

(** [Partial<SpendingRules>]: [None] is a property that is absent or
    [undefined]; for the two limits, [Some None] is [null]. *)
Record RulesPatch : Type := mkRulesPatch {
  pt_maxPerTransaction : option (option string);
  pt_dailyCap : option (option string);
  pt_allowedServices : option (list string);
  pt_blockedServices : option (list string)
}.

(** The four conditional assignments of [setRules], in order. *)
Definition patch_rules (patch : RulesPatch) (rules : SpendingRules) : SpendingRules :=
  let rules :=
    match pt_maxPerTransaction patch with
    | Some v => mkRules v (dailyCap rules) (allowedServices rules) (blockedServices rules)
    | None => rules
    end in
  let rules :=
    match pt_dailyCap patch with
    | Some v =>
        mkRules (maxPerTransaction rules) v (allowedServices rules) (blockedServices rules)
    | None => rules
    end in
  let rules :=
    match pt_allowedServices patch with
    | Some v => mkRules (maxPerTransaction rules) (dailyCap rules) v (blockedServices rules)
    | None => rules
    end in
  match pt_blockedServices patch with
  | Some v => mkRules (maxPerTransaction rules) (dailyCap rules) (allowedServices rules) v
  | None => rules
  end.

Definition set_rules (f : SpendingRules -> SpendingRules) (w : WalletEntry) : WalletEntry :=
  mkEntry (we_id w) (we_label w) (we_wallet w) (we_adapterConfig w) (f (we_rules w))
    (we_transactions w) (we_agentIdentity w).

Definition set_frozen (v : bool) (w : WalletEntry) : WalletEntry :=
  mkEntry (we_id w) (we_label w)
    (mkWalletInfo (wi_address (we_wallet w)) (wi_createdAt (we_wallet w)) v)
    (we_adapterConfig w) (we_rules w) (we_transactions w) (we_agentIdentity w).

Definition set_label (label : string) (w : WalletEntry) : WalletEntry :=
  mkEntry (we_id w) label (we_wallet w) (we_adapterConfig w) (we_rules w)
    (we_transactions w) (we_agentIdentity w).

Definition set_agentIdentity (f : option AgentIdentity -> AgentIdentity) (w : WalletEntry)
  : WalletEntry :=
  mkEntry (we_id w) (we_label w) (we_wallet w) (we_adapterConfig w) (we_rules w)
    (we_transactions w) (Some (f (we_agentIdentity w))).

(** The argument of [setAgentIdentity], as an object: for an optional
    field, [None] is a property the object does not have, [Some None] a
    property whose value is [undefined], [Some (Some s)] a string. *)
Record IdentityArg : Type := mkIdentityArg {
  ia_name : string;
  ia_description : option (option string);
  ia_agentId : option (option string);
  ia_agentRegistry : option (option string);
  ia_agentURI : option (option string)
}.

(** One property of [{ ...old, ...new }]. *)
Definition spread_field (old : option string) (new : option (option string))
  : option string :=
  match new with
  | Some v => v
  | None => old
  end.

(** [{ ...entry.agentIdentity, ...identity }] *)
Definition merge_identity (identity : IdentityArg) (old : option AgentIdentity)
  : AgentIdentity :=
  let field (get : AgentIdentity -> option string) :=
    match old with
    | Some a => get a
    | None => None
    end in
  mkAgent (ia_name identity)
    (spread_field (field ag_description) (ia_description identity))
    (spread_field (field ag_agentId) (ia_agentId identity))
    (spread_field (field ag_agentRegistry) (ia_agentRegistry identity))
    (spread_field (field ag_agentURI) (ia_agentURI identity)).

(** [l.splice(l.findIndex(p), 1)] when an element satisfies [p]. *)
Fixpoint remove_first {A : Type} (p : A -> bool) (l : list A) : list A :=
  match l with
  | [] => []
  | x :: rest => if p x then rest else x :: remove_first p rest
  end.

(** [o[k]] on a string-keyed record. *)
Definition dict_get (k : string) (o : Dict) : option string :=
  match find (fun kv => String.eqb (fst kv) k) o with
  | Some kv => Some (snd kv)
  | None => None
  end.

(** [credentials?.k], when it is truthy. *)
Definition credential (k : string) (credentials : option Dict) : option string :=
  match credentials with
  | Some c => truthy_string (dict_get k c)
  | None => None
  end.

(** What [adapter.createWallet()] obtains from outside the process, by
    adapter type; the first argument is the number of oracle calls made
    before.  [None]: the provider fails (its SDK is missing, the request is
    refused). *)
Record Providers : Type := mkProviders {
  v_generatePrivateKey : nat -> string;
    (** viem's [generatePrivateKey()] *)
  v_privy : nat -> string -> string -> option (string * string);
    (** [privy.walletApi.create]: the wallet's id and address *)
  v_coinbase : nat -> string -> string -> option (option string * string);
    (** [Wallet.create]: [wallet.getId() ?? null] and the default address *)
  v_crossmint : nat -> string -> option string
    (** [wallets.createWallet]: the wallet's address *)
}.

Definition is_type (t : string) (adapterType : option string) : bool :=
  match adapterType with
  | Some a => String.eqb a t
  | None => false
  end.

Section Manager.

Context {P : Prims} (W : World) (V : Providers).

(** [setNetwork(network)] *)
Definition setNetwork (net : NetworkId) : M unit :=
  set_state (fun st => mkState (wallets st) (activeWalletId st) net) ;;;
  persist W.

(** [setRules(patch)] *)
Definition setRules (patch : RulesPatch) : M SpendingRules :=
  entry <- requireActiveEntry ;;
  set_state (mutate_active (set_rules (patch_rules patch))) ;;;
  persist W ;;;
  ret (patch_rules patch (we_rules entry)).

(** [getRules()] *)
Definition getRules : M SpendingRules :=
  entry <- requireActiveEntry ;;
  ret (we_rules entry).

(** [freezeWallet()] *)
Definition freezeWallet : M unit :=
  _ <- requireActiveEntry ;;
  set_state (mutate_active (set_frozen true)) ;;;
  persist W.

(** [unfreezeWallet()] *)
Definition unfreezeWallet : M unit :=
  _ <- requireActiveEntry ;;
  set_state (mutate_active (set_frozen false)) ;;;
  persist W.

(** [renameWallet(label)] *)
Definition renameWallet (label : string) : M unit :=
  _ <- requireActiveEntry ;;
  set_state (mutate_active (set_label label)) ;;;
  persist W.

(** [setAgentIdentity(identity)] *)
Definition setAgentIdentity (identity : IdentityArg) : M unit :=
  _ <- requireActiveEntry ;;
  set_state (mutate_active (set_agentIdentity (merge_identity identity))) ;;;
  persist W.

(** [listWallets()] *)
Definition listWallets : M (list WalletEntry) :=
  gets (fun b => wallets (state b)).

(** [switchWallet(walletId)] *)
Definition switchWallet (walletId : string) : M WalletEntry :=
  st <- gets state ;;
  entry <- of_option (WalletNotFound walletId) (find (is_active walletId) (wallets st)) ;;
  set_state (fun st => mkState (wallets st) (Some walletId) (network st)) ;;;
  persist W ;;;
  ret entry.

(** [state.activeWalletId === walletId] *)
Definition active_is (walletId : string) (st : ClawletState) : bool :=
  match activeWalletId st with
  | Some a => String.eqb a walletId
  | None => false
  end.

(** [state.wallets[0]?.id ?? null] *)
Definition first_id (l : list WalletEntry) : option string :=
  match l with
  | w :: _ => Some (we_id w)
  | [] => None
  end.

(** [removeWallet(walletId)] *)
Definition removeWallet (walletId : string) : M unit :=
  st <- gets state ;;
  if existsb (is_active walletId) (wallets st) then
    let remaining := remove_first (is_active walletId) (wallets st) in
    set_state (fun st =>
                 mkState remaining
                   (if active_is walletId st then first_id remaining else activeWalletId st)
                   (network st)) ;;;
    persist W
  else throw (WalletNotFound walletId).

(** The first half of [createWallet]: the adapter is built from the
    credentials and [adapter.createWallet()] is awaited.  The result is the
    address and [adapter.toJSON()]. *)
Definition provision (adapterType : option string) (credentials : option Dict)
  : M (string * AdapterConfig) :=
  if is_type "privy" adapterType then
    match credential "appId" credentials, credential "appSecret" credentials with
    | Some appId, Some appSecret =>
        n <- tick ;;
        created <- of_option (AdapterError "privy") (v_privy V n appId appSecret) ;;
        ret (snd created,
             PrivyConfig appId appSecret (Some (fst created)) (Some (snd created)))
    | _, _ => throw (InvalidInput "Privy requires appId and appSecret")
    end
  else if is_type "coinbase-cdp" adapterType then
    match credential "apiKeyId" credentials, credential "apiKeySecret" credentials with
    | Some apiKeyId, Some apiKeySecret =>
        n <- tick ;;
        created <- of_option (AdapterError "coinbase-cdp")
                     (v_coinbase V n apiKeyId apiKeySecret) ;;
        ret (snd created,
             CoinbaseCdpConfig apiKeyId apiKeySecret (fst created) (Some (snd created)))
    | _, _ => throw (InvalidInput "Coinbase CDP requires apiKeyId and apiKeySecret")
    end
  else if is_type "crossmint" adapterType then
    match credential "apiKey" credentials with
    | Some apiKey =>
        n <- tick ;;
        address <- of_option (AdapterError "crossmint") (v_crossmint V n apiKey) ;;
        ret (address, CrossmintConfig apiKey (Some address) (Some address))
    | None => throw (InvalidInput "Crossmint requires apiKey")
    end
  else if is_type "browser" adapterType then
    match credential "address" credentials with
    | Some address => ret (address, BrowserWalletConfig address)
    | None => throw (InvalidInput "Browser wallet requires an address")
    end
  else
    n <- tick ;;
    let privateKey := v_generatePrivateKey V n in
    address <- of_option (InvalidInput "privateKey") (privateKeyToAddress privateKey) ;;
    ret (address, LocalKeyConfig privateKey).

(** [createWallet(adapterType, credentials, label)] *)
Definition createWallet (adapterType : option string) (credentials : option Dict)
  (label : option string) : M WalletEntry :=
  provisioned <- provision adapterType credentials ;;
  st <- gets state ;;
  id <- randomBytes W 8 ;;
  let walletNum := Z.of_nat (List.length (wallets st)) + 1 in
  now <- Date_now W ;;
  let entry :=
    mkEntry id
      (Js.orElse (default label EmptyString) ("Wallet " ++ Js.bigint_toString walletNum))
      (mkWalletInfo (fst provisioned) (toISOString now) false)
      (snd provisioned) DEFAULT_RULES [] None in
  set_state (fun st => mkState (wallets st ++ [entry])%list (Some id) (network st)) ;;;
  persist W ;;;
  ret entry.

End Manager.

(* ===================================================================== *)
(** * The HTTP binding ([src/api.ts]) *)
(* ===================================================================== *)

Module Api.

(** The last four lines of [getTodaySpent]: the total as text. *)
Definition spent_text (total : Z) : string :=
  let str := Js.padStart0 7 (Js.bigint_toString total) in
  let cut := (String.length str - 6)%nat in
  let whole := Js.orElse (Js.take cut str) "0" in
  let frac := Js.orElse (Js.trimZeros (Js.drop cut str)) "0" in
  whole ++ "." ++ frac.

Section Handlers.

Context {P : Prims} (W : World).

(** [getTodaySpent()], behind [GET /api/today-spent] *)
Definition getTodaySpent : M string :=
  st <- gets state ;;
  match getActiveEntry st with
  | None => ret "0.0"
  | Some entry =>
      now <- Date_now W ;;
      let today := Js.take 10 (toISOString now) in
      total <- of_option (InvalidInput "parseUnits")
                 (sumSettledOn today (we_transactions entry) 0) ;;
      ret (spent_text total)
  end.

End Handlers.

End Api.

(* ===================================================================== *)
(** * Vocabulary of the properties of the settings and of the flows *)
(* ===================================================================== *)

(** The process after a setter changed the active wallet by [f] and had
    the document written. *)
Definition after_mutation (f : WalletEntry -> WalletEntry) (b : Broker) : Broker :=
  mkBroker (mutate_active f (state b)) (paymentSessions b)
    (trace b ++ [EvPersist (mutate_active f (state b))])%list (S (calls b)).

(** The outcome of [persist()] at the oracle call [n]. *)
Definition written (W : World) (n : nat) {A : Type} (a : A) : Result A :=
  if w_writeFile W n then Ok a else Err PersistenceError.

(** The process after the document became [doc] and was written. *)
Definition after_write (doc : ClawletState) (b : Broker) : Broker :=
  mkBroker doc (paymentSessions b) (trace b ++ [EvPersist doc])%list (S (calls b)).

(** A signature, when [ev] asks for one, is asked of the adapter [config]
    for a [TransferWithAuthorization] over the USDC domain of [net]. *)
Definition signs_on (net : string) (config : AdapterConfig) (ev : Event) : Prop :=
  match ev with
  | EvSign c data =>
      c = config /\ USDC_DOMAIN net = Some (td_domain data) /\
      td_primaryType data = "TransferWithAuthorization"
  | _ => True
  end.

(** ** The ledger as an audit trail *)

(** [tx'] records the same payment as [tx]: only the outcome (status,
    hash, reason) may differ. *)
Definition same_payment (tx tx' : TransactionRecord) : Prop :=
  tx_id tx' = tx_id tx /\ tx_timestamp tx' = tx_timestamp tx /\
  tx_to tx' = tx_to tx /\ tx_service tx' = tx_service tx /\
  tx_amount tx' = tx_amount tx /\ tx_asset tx' = tx_asset tx /\
  tx_network tx' = tx_network tx.

(** [txs'] is [txs], record for record, followed by new records. *)
Definition ledger_extends (txs txs' : list TransactionRecord) : Prop :=
  exists kept added, txs' = (kept ++ added)%list /\ Forall2 same_payment txs kept.

(** The wallet is as before but for its ledger, which is extended. *)
Definition wallet_extends (w w' : WalletEntry) : Prop :=
  we_id w' = we_id w /\ we_label w' = we_label w /\ we_wallet w' = we_wallet w /\
  we_adapterConfig w' = we_adapterConfig w /\ we_rules w' = we_rules w /\
  we_agentIdentity w' = we_agentIdentity w /\
  ledger_extends (we_transactions w) (we_transactions w').

(** The document is as before but for the ledgers, which are extended:
    same wallets in the same order, same active wallet, same network. *)
Definition audit_trail_kept (b b' : Broker) : Prop :=
  activeWalletId (state b') = activeWalletId (state b) /\
  network (state b') = network (state b) /\
  Forall2 wallet_extends (wallets (state b)) (wallets (state b')).

(** ** The wallet list *)

(** The active wallet id, when there is one, is the id of a wallet of the
    list. *)
Definition active_known (st : ClawletState) : Prop :=
  match activeWalletId st with
  | None => True
  | Some id => exists w, In w (wallets st) /\ we_id w = id
  end.

(** The step keeps [active_known]. *)
Definition known_kept (b b' : Broker) : Prop :=
  active_known (state b) -> active_known (state b').

(** An optional field of the agent identity stored in a wallet. *)
Definition stored_field (get : AgentIdentity -> option string) (w : WalletEntry)
  : option string :=
  match we_agentIdentity w with
  | Some a => get a
  | None => None
  end.

(** ** Payment options *)

(** An option the broker can fulfil: the scheme is [exact] and the asset
    is, whatever the case of its letters, the USDC contract of the
    option's network, which is then one of the two Base networks. *)
Definition compatible {P : Prims} (option : PaymentRequirements) : bool :=
  andb (String.eqb (pr_scheme option) "exact")
    (match USDC (pr_network option) with
     | Some usdc => String.eqb (toLowerCase (pr_asset option)) (toLowerCase usdc)
     | None => false
     end).

(** An option on which [findAcceptedOption] throws: the scheme is [exact]
    and the network is a name that [Object.prototype] defines. *)
Definition poisoned (option : PaymentRequirements) : bool :=
  andb (String.eqb (pr_scheme option) "exact") (Js.inherited (pr_network option)).

(* ===================================================================== *)
(** * Scenarios of the settings and of the wallet manager *)
(* ===================================================================== *)

Module Scenario.

(** The world of the sample runs. *)
Definition world : World := Sample.world true 1.

(** A world whose clock advances by 400 seconds per call. *)
Definition slow_world : World := Sample.world true 400000.

(** A world whose server asks for no payment. *)
Definition free_response : Response :=
  mkResponse 200 [("content-type", "text/plain")] "free content".

Definition free_world : World :=
  {| w_fetch := fun _ _ => Some free_response;
     w_now := w_now world;
     w_randomBytes := w_randomBytes world;
     w_sign := w_sign world;
     w_writeFile := w_writeFile world |}.

(** A process with one wallet, active, and one with no wallet. *)
Definition first : WalletEntry := Sample.entry Sample.local_key false DEFAULT_RULES [].

Definition one : Broker := Sample.process Sample.local_key false DEFAULT_RULES [].

Definition nobody : Broker := mkBroker Store.empty_state [] [] 0.

(** A second wallet, with a per-transaction limit, and a process that
    holds both wallets, the first one active. *)
Definition second : WalletEntry :=
  mkEntry "0f1e2d3c4b5a6978" "Treasury"
    (mkWalletInfo "0x3333333333333333333333333333333333333333"
       "2023-11-02T00:00:00.000Z" false)
    Sample.browser (mkRules (Some "1.00") None [] []) [] None.

Definition two : Broker :=
  mkBroker (mkState [first; second] (Some (we_id first)) base_sepolia) [] [] 0.

(** The process [b], once the second wallet was added and made active. *)
Definition switched (b : Broker) : Broker :=
  mkBroker (mkState (wallets (state b) ++ [second])%list (Some (we_id second))
              (network (state b)))
    (paymentSessions b) (trace b) (calls b).

(** The local-key adapter of the first wallet. *)
Definition adapter : Adapter := mkAdapter Sample.local_key (Some "0x0xkey").

(** What [x402Prepare] returns in the sample run of the two-phase flow. *)
Definition descriptor : SessionDescriptor :=
  mkDescriptor Sample.session_id (mkDomain "USDC" "2" 84532 Sample.sepolia_usdc)
    "TransferWithAuthorization"
    (mkAuthorization "0x2222222222222222222222222222222222222222" Sample.payee "100000"
       "1700000000" "1700000600"
       "0x0000000000000000000000000000000000000000000000000000000000000002")
    "0.1" Sample.payee "eip155:84532".

(** The session that [x402Prepare] opens in the sample run, when the
    clock shows [validAfter] seconds. *)
Definition session (validAfter : Z) : PaymentSession :=
  mkSession Sample.session_id Sample.url "GET" [] None "x402 payment" Sample.requirement
    Sample.offer
    (mkAuthorization "0x2222222222222222222222222222222222222222" Sample.payee "100000"
       (Js.bigint_toString validAfter) (Js.bigint_toString (validAfter + 600))
       "0x0000000000000000000000000000000000000000000000000000000000000002")
    "00000000000000000000000000000003" (validAfter + 600).

(** The answer of the sample server to a paid request. *)
Definition paid_response : Response :=
  mkResponse 200 [("payment-response", "receipt")] "paid content".

(** Providers that always succeed. *)
Definition providers : Providers :=
  {| v_generatePrivateKey := fun _ => "0xgenerated";
     v_privy := fun _ _ _ =>
       Some ("privy-wallet-1", "0x4444444444444444444444444444444444444444");
     v_coinbase := fun _ _ _ =>
       Some (Some "cdp-wallet-1", "0x5555555555555555555555555555555555555555");
     v_crossmint := fun _ _ => Some "0x6666666666666666666666666666666666666666" |}.

(** The payload that [signPayment] returns for the sample requirement, in
    the first process. *)
Definition signed : ExactEvmPayload :=
  mkPayload "0xsignature"
    (mkAuthorization "0x0xkey" Sample.payee "100000" "1700000000" "1700000600"
       "0x0000000000000000000000000000000000000000000000000000000000000001").

(** Rules with an allowlist of one pattern. *)
Definition allowing_rules : SpendingRules := mkRules None None ["example.com"] [].

(** A patch that sets the daily cap and nothing else. *)
Definition cap_patch : RulesPatch := mkRulesPatch None (Some (Some "1.00")) None None.

(** An identity update that names the registration. *)
Definition registration : IdentityArg :=
  mkIdentityArg "ResearchBot" None (Some (Some "42"))
    (Some (Some "eip155:8453:0x8004A169FB4a3325136EB29fA0ceB6D2e539a432")) None.

(** A legacy document that holds a wallet. *)
Definition legacy_wallet_fields : list (string * json) :=
  [("adapterConfig", Json.of_adapterConfig Sample.local_key);
   ("wallet",
    JObj [("address", JStr "0x2222222222222222222222222222222222222222");
          ("createdAt", JStr "2023-11-01T00:00:00.000Z");
          ("frozen", JBool false)]);
   ("rules", Json.of_rules (Sample.capped_rules None));
   ("transactions", JArr [Json.of_transaction Sample.earlier_today])].

End Scenario.

(* ===================================================================== *)
(** * Reasoning about the broker monad *)
(* ===================================================================== *)

Open Scope list_scope.

Lemma bind_unfold {A B : Type} (m : M A) (k : A -> M B) (b : Broker) :
  bind m k b =
  match m b with
  | (Ok a, b') => k a b'
  | (Err e, b') => (Err e, b')
  end.
Proof. reflexivity. Qed.

Lemma bind_ok {A B : Type} (m : M A) (k : A -> M B) (b b' : Broker) (a : A) :
  m b = (Ok a, b') -> bind m k b = k a b'.
Proof. intros H. unfold bind. rewrite H. reflexivity. Qed.

Lemma bind_err {A B : Type} (m : M A) (k : A -> M B) (b b' : Broker) (e : Error) :
  m b = (Err e, b') -> bind m k b = (Err e, b').
Proof. intros H. unfold bind. rewrite H. reflexivity. Qed.

(** ** Frames *)

#[export] Instance quiet_preorder : PreOrder quiet.
Proof.
  split.
  - intros b. repeat split.
  - intros b1 b2 b3 (? & ? & ?) (? & ? & ?). repeat split; congruence.
Qed.

#[export] Instance readonly_preorder : PreOrder readonly.
Proof.
  split.
  - intros b. split; reflexivity.
  - intros b1 b2 b3 [? ?] [? ?]. split; congruence.
Qed.

#[export] Instance same_sessions_preorder : PreOrder same_sessions.
Proof.
  split.
  - intros b. reflexivity.
  - intros b1 b2 b3. unfold same_sessions. congruence.
Qed.

#[export] Instance emits_only_preorder (Q : Event -> Prop) : PreOrder (emits_only Q).
Proof.
  split.
  - intros b. exists []. split; [now rewrite app_nil_r | constructor].
  - intros b1 b2 b3 (d1 & E1 & F1) (d2 & E2 & F2).
    exists (d1 ++ d2). split.
    + rewrite E2, E1, app_assoc. reflexivity.
    + apply Forall_app. split; assumption.
Qed.

#[export] Instance stays_absent_preorder (k : string) : PreOrder (stays_absent k).
Proof.
  split.
  - intros b H. exact H.
  - intros b1 b2 b3. unfold stays_absent. auto.
Qed.

Section Frames.

Variable R : Broker -> Broker -> Prop.
Hypothesis HR : PreOrder R.

Lemma respects_ret {A : Type} (a : A) : respects R (ret a).
Proof. intros b. reflexivity. Qed.

Lemma respects_throw {A : Type} (e : Error) : respects R (@throw A e).
Proof. intros b. reflexivity. Qed.

Lemma respects_gets {A : Type} (f : Broker -> A) : respects R (gets f).
Proof. intros b. reflexivity. Qed.

Lemma respects_of_option {A : Type} (e : Error) (o : option A) :
  respects R (of_option e o).
Proof. destruct o; [apply respects_ret | apply respects_throw]. Qed.

Lemma respects_bind {A B : Type} (m : M A) (k : A -> M B) :
  respects R m -> (forall a, respects R (k a)) -> respects R (bind m k).
Proof.
  intros Hm Hk b. rewrite bind_unfold.
  specialize (Hm b). destruct (m b) as [[a | e] b1]; cbn [snd] in *.
  - etransitivity; [exact Hm | apply Hk].
  - exact Hm.
Qed.

End Frames.

Create HintDb frames.

(** [footprint] proves [respects R m] by following the structure of [m],
    with the lemmas of the database [frames] at the leaves. *)
Ltac footprint_step :=
  first
    [ solve [eauto 4 with frames]
    | simple apply respects_bind; [typeclasses eauto | | intros ? ]
    | simple apply respects_ret; typeclasses eauto
    | simple apply respects_throw; typeclasses eauto
    | simple apply respects_gets; typeclasses eauto
    | simple apply respects_of_option; typeclasses eauto
    | match goal with
      | |- respects _ (match ?x with _ => _ end) => destruct x
      | |- respects _ (let _ := _ in _) => cbv zeta
      end ].

Ltac footprint := repeat footprint_step.

Lemma lift_readonly {A : Type} (m : M A) : respects quiet m -> respects readonly m.
Proof. intros H b. destruct (H b) as (? & ? & ?). split; assumption. Qed.

Lemma lift_same_sessions {A : Type} (m : M A) :
  respects readonly m -> respects same_sessions m.
Proof. intros H b. destruct (H b) as (? & ?). assumption. Qed.

Lemma lift_emits {A : Type} (Q : Event -> Prop) (m : M A) :
  respects quiet m -> respects (emits_only Q) m.
Proof.
  intros H b. destruct (H b) as (_ & _ & E). exists []. split.
  - rewrite E, app_nil_r. reflexivity.
  - constructor.
Qed.

Lemma lift_stays_absent k {A : Type} (m : M A) :
  respects same_sessions m -> respects (stays_absent k) m.
Proof. intros H b Hb. rewrite (H b). exact Hb. Qed.

#[export] Hint Resolve lift_readonly lift_same_sessions lift_emits lift_stays_absent | 5
  : frames.

Lemma tick_quiet : respects quiet tick.
Proof. intros b. repeat split. Qed.
#[export] Hint Resolve tick_quiet : frames.

Lemma Date_now_quiet (W : World) : respects quiet (Date_now W).
Proof. unfold Date_now. footprint. Qed.
#[export] Hint Resolve Date_now_quiet : frames.

Lemma unix_now_quiet (W : World) : respects quiet (unix_now W).
Proof. unfold unix_now. footprint. Qed.
#[export] Hint Resolve unix_now_quiet : frames.

Lemma randomBytes_quiet (W : World) k : respects quiet (randomBytes W k).
Proof. unfold randomBytes. footprint. Qed.
#[export] Hint Resolve randomBytes_quiet : frames.

Lemma requireActiveEntry_quiet : respects quiet requireActiveEntry.
Proof. unfold requireActiveEntry. footprint. Qed.
#[export] Hint Resolve requireActiveEntry_quiet : frames.

Lemma getWallet_quiet : respects quiet getWallet.
Proof. unfold getWallet. footprint. Qed.
#[export] Hint Resolve getWallet_quiet : frames.

Lemma createAdapter_quiet {P : Prims} config : respects quiet (createAdapter config).
Proof. unfold createAdapter. footprint. Qed.
#[export] Hint Resolve createAdapter_quiet : frames.

Lemma getAdapter_quiet {P : Prims} : respects quiet getAdapter.
Proof. unfold getAdapter. footprint. Qed.
#[export] Hint Resolve getAdapter_quiet : frames.

Lemma getAddress_quiet adapter : respects quiet (getAddress adapter).
Proof. unfold getAddress. footprint. Qed.
#[export] Hint Resolve getAddress_quiet : frames.

Lemma getTodaySpent_quiet {P : Prims} (W : World) txs :
  respects quiet (getTodaySpent W txs).
Proof. unfold getTodaySpent. footprint. Qed.
#[export] Hint Resolve getTodaySpent_quiet : frames.

Lemma enforceRules_quiet {P : Prims} (W : World) amount service decimals :
  respects quiet (enforceRules W amount service decimals).
Proof. unfold enforceRules. footprint. Qed.
#[export] Hint Resolve enforceRules_quiet : frames.

Lemma emit_readonly ev : respects readonly (emit ev).
Proof. intros b. split; reflexivity. Qed.

Lemma emit_emits (Q : Event -> Prop) ev : Q ev -> respects (emits_only Q) (emit ev).
Proof. intros H b. exists [ev]. split; [reflexivity | repeat constructor; exact H]. Qed.

Lemma set_state_same_sessions f : respects same_sessions (set_state f).
Proof. intros b. reflexivity. Qed.

Lemma set_state_emits Q f : respects (emits_only Q) (set_state f).
Proof. intros b. exists []. split; [cbn; now rewrite app_nil_r | constructor]. Qed.

Lemma set_sessions_emits Q f : respects (emits_only Q) (set_sessions f).
Proof. intros b. exists []. split; [cbn; now rewrite app_nil_r | constructor]. Qed.

#[export] Hint Resolve emit_readonly emit_emits set_state_same_sessions set_state_emits
  set_sessions_emits : frames.

Lemma fetch_is_fetch rq : is_fetch (EvFetch rq).
Proof. reflexivity. Qed.

Lemma persist_is_persist doc : is_persist (EvPersist doc).
Proof. reflexivity. Qed.

Lemma fetch_not_sign rq : not_sign (EvFetch rq).
Proof. discriminate. Qed.

Lemma persist_not_sign doc : not_sign (EvPersist doc).
Proof. discriminate. Qed.

#[export] Hint Resolve fetch_is_fetch persist_is_persist fetch_not_sign persist_not_sign
  : frames.

Lemma fetch_readonly (W : World) rq : respects readonly (fetch W rq).
Proof. unfold fetch. footprint. Qed.

Lemma fetch_emits (W : World) (Q : Event -> Prop) rq :
  Q (EvFetch rq) -> respects (emits_only Q) (fetch W rq).
Proof. intros H. unfold fetch. footprint. Qed.

Lemma persist_readonly (W : World) : respects readonly (persist W).
Proof. unfold persist. footprint. Qed.

Lemma persist_emits (W : World) (Q : Event -> Prop) :
  (forall doc, Q (EvPersist doc)) -> respects (emits_only Q) (persist W).
Proof. intros H. unfold persist. footprint. Qed.

#[export] Hint Resolve fetch_readonly fetch_emits persist_readonly persist_emits : frames.

Lemma negotiate_readonly {P : Prims} (W : World) url options :
  respects readonly (negotiate W url options).
Proof. unfold negotiate. footprint. Qed.

Lemma negotiate_emits {P : Prims} (W : World) url options :
  respects (emits_only is_fetch) (negotiate W url options).
Proof. unfold negotiate. footprint. Qed.

#[export] Hint Resolve negotiate_readonly negotiate_emits : frames.

Lemma updateTransaction_same_sessions (W : World) id u :
  respects same_sessions (updateTransaction W id u).
Proof. unfold updateTransaction. footprint. Qed.
#[export] Hint Resolve updateTransaction_same_sessions : frames.

Lemma addTransaction_same_sessions {P : Prims} (W : World) params :
  respects same_sessions (addTransaction W params).
Proof. unfold addTransaction. footprint. Qed.
#[export] Hint Resolve addTransaction_same_sessions : frames.

Lemma retryWithPayment_same_sessions {P : Prims} (W : World)
  url method hdrs body paymentRequired accepted payload id :
  respects same_sessions
    (retryWithPayment W url method hdrs body paymentRequired accepted payload id).
Proof. unfold retryWithPayment. footprint. Qed.
#[export] Hint Resolve retryWithPayment_same_sessions : frames.

(* ===================================================================== *)
(** * Refusals of the single-shot flow *)
(* ===================================================================== *)

Section Refusal.

Context {P : Prims} (W : World).

Lemma requireActiveEntry_found b entry :
  getActiveEntry (state b) = Some entry -> requireActiveEntry b = (Ok entry, b).
Proof. intros H. unfold requireActiveEntry, bind, gets. rewrite H. reflexivity. Qed.

Lemma getWallet_found b entry :
  getActiveEntry (state b) = Some entry -> getWallet b = (Ok (we_wallet entry), b).
Proof.
  intros H. unfold getWallet. rewrite (bind_ok _ _ _ _ _ (requireActiveEntry_found b entry H)).
  reflexivity.
Qed.

Lemma createAdapter_pure config b : snd (createAdapter config b) = b.
Proof.
  destruct config; cbn; try reflexivity.
  unfold bind, of_option. destruct (privateKeyToAddress privateKey); reflexivity.
Qed.

Lemma getAdapter_pure b : snd (getAdapter b) = b.
Proof.
  unfold getAdapter, requireActiveEntry, bind, gets, of_option.
  destruct (getActiveEntry (state b)); cbn; [apply createAdapter_pure | reflexivity].
Qed.

(** C1. A call of [x402Fetch] on a frozen wallet, or one whose negotiation
    is rejected by the rules engine, fails; the document (hence the
    transaction list of the active wallet) is unchanged, and the only
    effects are upstream requests: no signature is asked for and nothing
    is written. *)
Theorem x402Fetch_refusal_leaves_no_artifact url options b entry :
  getActiveEntry (state b) = Some entry ->
  (wi_frozen (we_wallet entry) = true \/
   exists e, is_rule_violation e = true /\ fst (negotiate W url options b) = Err e) ->
  exists e d,
    fst (x402Fetch W url options b) = Err e /\
    state (snd (x402Fetch W url options b)) = state b /\
    getActiveEntry (state (snd (x402Fetch W url options b))) = Some entry /\
    trace (snd (x402Fetch W url options b)) = trace b ++ d /\
    Forall is_fetch d /\
    (wi_frozen (we_wallet entry) = true -> e = WalletFrozen /\ d = []).
Proof.
  intros Hactive Hwhy.
  unfold x402Fetch.
  rewrite (bind_ok _ _ _ _ _ (getWallet_found b entry Hactive)).
  destruct (wi_frozen (we_wallet entry)) eqn:Hfrozen.
  - exists WalletFrozen, []. cbn. rewrite app_nil_r. repeat split; auto.
  - destruct Hwhy as [Hf | (e & Hrule & Hneg)]; [discriminate | ].
    rewrite bind_unfold.
    pose proof (getAdapter_pure b) as Hpure.
    destruct (getAdapter b) as [[adapter | e0] b0]; cbn [snd] in Hpure; subst b0.
    + rewrite bind_unfold.
      destruct (negotiate_readonly W url options b) as [Hst _].
      destruct (negotiate_emits W url options b) as (d & Htr & Hd).
      destruct (negotiate W url options b) as [[n | e1] b1]; cbn [fst snd] in *;
        [discriminate | ].
      exists e1, d. rewrite Hst. repeat split; auto; discriminate.
    + exists e0, []. cbn. rewrite app_nil_r. repeat split; auto; discriminate.
Qed.

End Refusal.

(* ===================================================================== *)
(** * The order of effects *)
(* ===================================================================== *)

Lemma exactly_conforms d pat : exactly d pat -> conforms d pat.
Proof. induction 1; constructor; assumption. Qed.

Lemma conforms_app_r d p q : conforms d p -> conforms d (p ++ q).
Proof. induction 1; cbn; constructor; assumption. Qed.

Lemma exactly_app_conforms d1 d2 p q :
  exactly d1 p -> conforms d2 q -> conforms (d1 ++ d2) (p ++ q).
Proof. induction 1; cbn; intros; [assumption | constructor; auto]. Qed.

Lemma exactly_app d1 d2 p q : exactly d1 p -> exactly d2 q -> exactly (d1 ++ d2) (p ++ q).
Proof. intros. apply Forall2_app; assumption. Qed.

Lemma within_loosely pat {A : Type} (m : M A) : within pat m -> loosely pat m.
Proof. intros H b. destruct (H b) as (d & ? & ? & _). exists d. split; assumption. Qed.

Lemma quiet_within {A : Type} (m : M A) : respects quiet m -> within [] m.
Proof.
  intros H b. destruct (H b) as (_ & _ & E). exists []. cbn in E.
  rewrite E, app_nil_r. repeat split; constructor.
Qed.

Lemma within_throw pat {A : Type} (e : Error) : within pat (@throw A e).
Proof.
  intros b. exists []. cbn. rewrite app_nil_r. repeat split; [constructor | discriminate].
Qed.

Lemma within_ret {A : Type} (a : A) : within [] (ret a).
Proof. apply quiet_within. apply respects_ret. typeclasses eauto. Qed.

Lemma within_bind p q {A B : Type} (m : M A) (k : A -> M B) :
  within p m -> (forall a, within q (k a)) -> within (p ++ q) (bind m k).
Proof.
  intros Hm Hk b. rewrite bind_unfold.
  destruct (Hm b) as (d1 & E1 & C1 & X1).
  destruct (m b) as [[a | e] b1]; cbn [fst snd] in *.
  - destruct (Hk a b1) as (d2 & E2 & C2 & X2).
    exists (d1 ++ d2). rewrite E2, E1, app_assoc. split; [reflexivity | ].
    specialize (X1 a eq_refl). split.
    + apply exactly_app_conforms; assumption.
    + intros a' Ha'. apply exactly_app; [assumption | eapply X2; eassumption].
  - exists d1. repeat split; [assumption | apply conforms_app_r; assumption | discriminate].
Qed.

Lemma loosely_bind p q {A B : Type} (m : M A) (k : A -> M B) :
  within p m -> (forall a, loosely q (k a)) -> loosely (p ++ q) (bind m k).
Proof.
  intros Hm Hk b. rewrite bind_unfold.
  destruct (Hm b) as (d1 & E1 & C1 & X1).
  destruct (m b) as [[a | e] b1]; cbn [fst snd] in *.
  - destruct (Hk a b1) as (d2 & E2 & C2).
    exists (d1 ++ d2). rewrite E2, E1, app_assoc. split; [reflexivity | ].
    apply exactly_app_conforms; [apply (X1 a eq_refl) | assumption].
  - exists d1. split; [assumption | apply conforms_app_r; assumption].
Qed.

Lemma loosely_throw pat {A : Type} (e : Error) : loosely pat (@throw A e).
Proof. apply within_loosely, within_throw. Qed.

Lemma loosely_ret pat {A : Type} (a : A) : loosely pat (ret a).
Proof. intros b. exists []. cbn. rewrite app_nil_r. split; [reflexivity | constructor]. Qed.

(** A silent prefix does not change the pattern. *)
Lemma within_quiet_bind q {A B : Type} (m : M A) (k : A -> M B) :
  respects quiet m -> (forall a, within q (k a)) -> within q (bind m k).
Proof. intros Hm Hk. apply (within_bind [] q); [apply quiet_within, Hm | exact Hk]. Qed.

Lemma loosely_quiet_bind q {A B : Type} (m : M A) (k : A -> M B) :
  respects quiet m -> (forall a, loosely q (k a)) -> loosely q (bind m k).
Proof. intros Hm Hk. apply (loosely_bind [] q); [apply quiet_within, Hm | exact Hk]. Qed.

Lemma within_emit ev (Q : Event -> Prop) : Q ev -> within [Q] (emit ev).
Proof.
  intros H b. exists [ev]. cbn. repeat split; repeat constructor; assumption.
Qed.

(** An action that leaves the trace alone, silent or not. *)
Lemma untraced_within {A : Type} (m : M A) :
  (forall b, trace (snd (m b)) = trace b) -> within [] m.
Proof.
  intros H b. exists []. rewrite H, app_nil_r. repeat split; constructor.
Qed.

Lemma within_bind1 (Q : Event -> Prop) q {A B : Type} (m : M A) (k : A -> M B) :
  within [Q] m -> (forall a, within q (k a)) -> within (Q :: q) (bind m k).
Proof. apply (within_bind [Q] q). Qed.

Lemma loosely_bind1 (Q : Event -> Prop) q {A B : Type} (m : M A) (k : A -> M B) :
  within [Q] m -> (forall a, loosely q (k a)) -> loosely (Q :: q) (bind m k).
Proof. apply (loosely_bind [Q] q). Qed.

Lemma within_of_option {A : Type} (e : Error) (o : option A) : within [] (of_option e o).
Proof. apply quiet_within, respects_of_option. typeclasses eauto. Qed.

Lemma within_set_state f : within [] (set_state f).
Proof. apply untraced_within. reflexivity. Qed.

Lemma within_set_sessions f : within [] (set_sessions f).
Proof. apply untraced_within. reflexivity. Qed.

Lemma within_untraced_bind q {A B : Type} (m : M A) (k : A -> M B) :
  within [] m -> (forall a, within q (k a)) -> within q (bind m k).
Proof. apply (within_bind [] q). Qed.

Lemma loosely_untraced_bind q {A B : Type} (m : M A) (k : A -> M B) :
  within [] m -> (forall a, loosely q (k a)) -> loosely q (bind m k).
Proof. apply (loosely_bind [] q). Qed.

Create HintDb traces.

#[export] Hint Resolve within_of_option within_set_state within_set_sessions within_ret
  within_throw loosely_throw loosely_ret : traces.

(** [traced] proves [within pat m] and [loosely pat m] by following [m]. *)
Ltac traced_step :=
  first
    [ solve [eauto 3 with traces]
    | simple apply within_loosely; solve [eauto 3 with traces]
    | simple apply within_quiet_bind; [solve [footprint] | intros ? ]
    | simple apply loosely_quiet_bind; [solve [footprint] | intros ? ]
    | simple apply within_untraced_bind; [solve [eauto 3 with traces] | intros ? ]
    | simple apply loosely_untraced_bind; [solve [eauto 3 with traces] | intros ? ]
    | simple apply within_bind1; [solve [eauto 3 with traces] | intros ? ]
    | simple apply loosely_bind1; [solve [eauto 3 with traces] | intros ? ]
    | match goal with
      | |- within _ (match ?x with _ => _ end) => destruct x
      | |- loosely _ (match ?x with _ => _ end) => destruct x
      | |- within _ (let _ := _ in _) => cbv zeta
      | |- loosely _ (let _ := _ in _) => cbv zeta
      end ].

Ltac traced := repeat traced_step.

Lemma within_fetch (W : World) rq : within [is_fetch] (fetch W rq).
Proof.
  unfold fetch. simple apply within_bind1; [apply within_emit; reflexivity | intros ?].
  traced.
Qed.
#[export] Hint Resolve within_fetch : traces.

Lemma within_persist (W : World) : within [is_persist] (persist W).
Proof.
  unfold persist. traced.
  simple apply within_bind1; [apply within_emit; reflexivity | intros ?].
  traced.
Qed.
#[export] Hint Resolve within_persist : traces.

Lemma within_negotiate {P : Prims} (W : World) url options :
  within [is_fetch] (negotiate W url options).
Proof. unfold negotiate. traced. Qed.
#[export] Hint Resolve within_negotiate : traces.

Lemma within_signTypedData (W : World) adapter data :
  within [is_sign_request] (signTypedData W adapter data).
Proof.
  unfold signTypedData.
  simple apply within_bind1; [apply within_emit; reflexivity | intros ?].
  traced.
Qed.
#[export] Hint Resolve within_signTypedData : traces.

Lemma within_signPayment {P : Prims} (W : World) adapter requirements :
  within [is_sign_request] (signPayment W adapter requirements).
Proof. unfold signPayment. traced. Qed.
#[export] Hint Resolve within_signPayment : traces.

Lemma within_updateTransaction (W : World) id u :
  within [is_persist] (updateTransaction W id u).
Proof. unfold updateTransaction. traced. Qed.
#[export] Hint Resolve within_updateTransaction : traces.

Lemma within_retryWithPayment {P : Prims} (W : World)
  url method hdrs body paymentRequired accepted payload txRecordId :
  within [is_fetch; is_persist]
    (retryWithPayment W url method hdrs body paymentRequired accepted payload txRecordId).
Proof. unfold retryWithPayment. traced. Qed.
#[export] Hint Resolve within_retryWithPayment : traces.

(** ** Mutations of the active entry *)

Lemma find_update_first {A : Type} (p : A -> bool) (f : A -> A) (l : list A) (x : A) :
  find p l = Some x -> p (f x) = true -> find p (update_first p f l) = Some (f x).
Proof.
  induction l as [| y l IH]; cbn; [discriminate | ].
  destruct (p y) eqn:Hy; intros Hx Hf.
  - injection Hx as ->. cbn. rewrite Hf. reflexivity.
  - cbn. rewrite Hy. apply IH; assumption.
Qed.

Lemma getActiveEntry_mutate (f : WalletEntry -> WalletEntry) st entry :
  (forall w, we_id (f w) = we_id w) ->
  getActiveEntry st = Some entry ->
  getActiveEntry (mutate_active f st) = Some (f entry).
Proof.
  intros Hid. unfold getActiveEntry, mutate_active.
  destruct (activeWalletId st) as [id | ]; [ | discriminate]. cbn.
  destruct (Js.truthy id); [ | discriminate].
  intros Hfind. apply find_update_first; [assumption | ].
  unfold is_active. rewrite Hid.
  apply find_some in Hfind. apply Hfind.
Qed.

Lemma requireActiveEntry_none b :
  getActiveEntry (state b) = None -> requireActiveEntry b = (Err NoActiveWallet, b).
Proof. intros H. unfold requireActiveEntry, bind, gets. rewrite H. reflexivity. Qed.

Lemma addTransaction_run {P : Prims} (W : World) params b entry :
  getActiveEntry (state b) = Some entry ->
  addTransaction W params b =
  (if w_writeFile W (S (S (calls b))) then Ok (added_record W params b)
   else Err PersistenceError,
   after_add W params b).
Proof.
  intros H. unfold addTransaction.
  rewrite (bind_ok _ _ _ _ _ (requireActiveEntry_found b entry H)).
  unfold after_add, added_record.
  cbv [bind randomBytes Date_now tick ret set_state persist gets emit throw].
  cbn [state paymentSessions trace calls].
  destruct (w_writeFile W (S (S (calls b)))); reflexivity.
Qed.

Lemma addTransaction_no_wallet {P : Prims} (W : World) params b :
  getActiveEntry (state b) = None ->
  addTransaction W params b = (Err NoActiveWallet, b).
Proof.
  intros H. unfold addTransaction.
  rewrite (bind_err _ _ _ _ _ (requireActiveEntry_none b H)). reflexivity.
Qed.

Lemma within_addTransaction {P : Prims} (W : World) params :
  within [persists_last (tp_status params)] (addTransaction W params).
Proof.
  intros b. destruct (getActiveEntry (state b)) as [entry | ] eqn:H.
  - rewrite (addTransaction_run W params b entry H). cbn [fst snd].
    eexists. split; [reflexivity | ].
    assert (Hev : persists_last (tp_status params)
                    (EvPersist (state (after_add W params b)))).
    { exists (state (after_add W params b)),
        (set_transactions (fun txs => txs ++ [added_record W params b]) entry),
        (we_transactions entry), (added_record W params b).
      repeat split.
      apply getActiveEntry_mutate; [reflexivity | assumption]. }
    split; [ | intros _ _]; repeat constructor; exact Hev.
  - rewrite (addTransaction_no_wallet W params b H). exists []. cbn.
    rewrite app_nil_r. repeat split; [constructor | discriminate].
Qed.
#[export] Hint Resolve within_addTransaction : traces.

Lemma within_addTransaction_pending {P : Prims} (W : World) accepted service amount reason :
  within [persists_last pending]
    (addTransaction W (pending_params accepted service amount reason)).
Proof. apply (within_addTransaction W (pending_params accepted service amount reason)). Qed.
#[export] Hint Resolve within_addTransaction_pending : traces.

Lemma x402Fetch_order {P : Prims} (W : World) url options :
  loosely single_shot_pattern (x402Fetch W url options).
Proof. unfold x402Fetch, single_shot_pattern. traced. Qed.

Lemma x402Prepare_order {P : Prims} (W : World) url options :
  within [is_fetch; persists_last pending] (x402Prepare W url options).
Proof. unfold x402Prepare. traced. Qed.

Lemma x402Complete_no_sign {P : Prims} (W : World) sessionId sig :
  respects (emits_only not_sign) (x402Complete W sessionId sig).
Proof.
  unfold x402Complete, retryWithPayment, updateTransaction. footprint.
Qed.

(* ===================================================================== *)
(** * Ledger updates and the retry *)
(* ===================================================================== *)

Lemma updateTransaction_run (W : World) id u b entry tx :
  getActiveEntry (state b) = Some entry ->
  find (has_id id) (we_transactions entry) = Some tx ->
  updateTransaction W id u b =
  (if w_writeFile W (calls b) then Ok (apply_update u tx) else Err PersistenceError,
   after_update id u b).
Proof.
  intros H Hf. unfold updateTransaction.
  rewrite (bind_ok _ _ _ _ _ (requireActiveEntry_found b entry H)).
  unfold after_update, marked.
  cbv [bind of_option tick ret set_state persist gets emit throw].
  rewrite Hf. cbn [state paymentSessions trace calls].
  destruct (w_writeFile W (calls b)); reflexivity.
Qed.

Lemma updateTransaction_missing (W : World) id u b entry :
  getActiveEntry (state b) = Some entry ->
  find (has_id id) (we_transactions entry) = None ->
  updateTransaction W id u b = (Err (TxNotFound id), b).
Proof.
  intros H Hf. unfold updateTransaction.
  rewrite (bind_ok _ _ _ _ _ (requireActiveEntry_found b entry H)).
  cbv [bind of_option throw]. rewrite Hf. reflexivity.
Qed.

Lemma has_id_apply_update id u tx : has_id id (apply_update u tx) = has_id id tx.
Proof. reflexivity. Qed.

Lemma active_tx_marked id u st tx :
  active_tx id st = Some tx -> active_tx id (marked id u st) = Some (apply_update u tx).
Proof.
  unfold active_tx, marked. destruct (getActiveEntry st) as [entry | ] eqn:H;
    [ | discriminate].
  intros Hf.
  rewrite (getActiveEntry_mutate
             (set_transactions (update_first (has_id id) (apply_update u)))
             st entry (fun _ => eq_refl) H).
  cbn [set_transactions we_transactions].
  apply find_update_first; [assumption | ].
  rewrite has_id_apply_update. apply find_some in Hf. apply Hf.
Qed.

Lemma active_tx_found id st tx :
  active_tx id st = Some tx ->
  exists entry, getActiveEntry st = Some entry /\
                find (has_id id) (we_transactions entry) = Some tx.
Proof.
  unfold active_tx. destruct (getActiveEntry st) as [entry | ]; [ | discriminate].
  intros H. exists entry. split; [reflexivity | assumption].
Qed.

Section Retry.

Context {P : Prims} (W : World).

Lemma fetch_run rq b :
  fetch W rq b =
  (match w_fetch W (calls b) rq with Some r => Ok r | None => Err UpstreamError end,
   after_fetch rq b).
Proof.
  unfold fetch, after_fetch. cbv [bind emit tick of_option ret throw].
  cbn [state paymentSessions trace calls].
  destruct (w_fetch W (calls b) rq); reflexivity.
Qed.


End Retry.

Section Settlement.

Context {P : Prims} (W : World).


End Settlement.

(* ===================================================================== *)
(** * Sessions of the two-phase flow *)
(* ===================================================================== *)

Lemma sessions_get_delete_same k m : sessions_get k (sessions_delete k m) = None.
Proof.
  induction m as [| [k' v] m IH]; cbn; [reflexivity | ].
  destruct (String.eqb k' k) eqn:E; [assumption | ].
  cbn. rewrite E. assumption.
Qed.

Lemma sessions_get_delete_absent k k' m :
  sessions_get k m = None -> sessions_get k (sessions_delete k' m) = None.
Proof.
  induction m as [| [k0 v] m IH]; cbn; [reflexivity | ].
  destruct (String.eqb k0 k) eqn:E; [discriminate | ]. intros H.
  destruct (String.eqb k0 k'); [auto | ]. cbn. rewrite E. auto.
Qed.

Lemma sessions_get_set_other k k' v m :
  k' <> k -> sessions_get k m = None -> sessions_get k (sessions_set k' v m) = None.
Proof.
  intros Hne. induction m as [| [k0 v0] m IH]; cbn.
  - intros _. destruct (String.eqb k' k) eqn:E; [ | reflexivity].
    apply String.eqb_eq in E. contradiction.
  - destruct (String.eqb k0 k) eqn:E; [discriminate | ]. intros H.
    destruct (String.eqb k0 k') eqn:E'; cbn.
    + destruct (String.eqb k' k) eqn:E2; [ | assumption].
      apply String.eqb_eq in E2. contradiction.
    + rewrite E. auto.
Qed.

Lemma delete_stays_absent k k' : respects (stays_absent k) (set_sessions (sessions_delete k')).
Proof. intros b Hb. cbn. apply sessions_get_delete_absent. exact Hb. Qed.

#[export] Hint Resolve delete_stays_absent : frames.

Lemma sweep_stays_absent (W : World) k now entries :
  respects (stays_absent k) (sweep W now entries).
Proof.
  induction entries as [| [id session] entries IH]; cbn [sweep]; footprint.
Qed.
#[export] Hint Resolve sweep_stays_absent : frames.

Lemma cleanupSessions_stays_absent (W : World) k :
  respects (stays_absent k) (cleanupSessions W).
Proof. unfold cleanupSessions. footprint. Qed.

Lemma x402Complete_stays_absent {P : Prims} (W : World) k id sig :
  respects (stays_absent k) (x402Complete W id sig).
Proof. unfold x402Complete. footprint. Qed.

Lemma adds_returned_bind k {A B : Type} (idOf : B -> string) (m : M A) (ka : A -> M B) :
  respects same_sessions m -> (forall a, adds_returned k idOf (ka a)) ->
  adds_returned k idOf (bind m ka).
Proof.
  intros Hm Hk b Hb Hid. rewrite bind_unfold in *. specialize (Hm b).
  destruct (m b) as [[a | e] b1]; cbn [snd] in *.
  - apply Hk; [cbn in Hm; rewrite Hm; exact Hb | exact Hid].
  - cbn in Hm. rewrite Hm. exact Hb.
Qed.

Lemma adds_returned_throw k {A : Type} (idOf : A -> string) e :
  adds_returned k idOf (throw e).
Proof. intros b Hb _. exact Hb. Qed.

Lemma adds_returned_set k {A : Type} (idOf : A -> string) id session (a : A) :
  idOf a = id ->
  adds_returned k idOf (bind (set_sessions (sessions_set id session)) (fun _ => ret a)).
Proof.
  intros Ha b Hb Hid. cbn. apply sessions_get_set_other; [ | exact Hb].
  rewrite <- Ha. apply Hid. reflexivity.
Qed.

Lemma x402Prepare_adds_returned {P : Prims} (W : World) k url options :
  adds_returned k sd_sessionId (x402Prepare W url options).
Proof.
  unfold x402Prepare.
  repeat first
    [ simple apply adds_returned_throw
    | simple apply adds_returned_set; reflexivity
    | simple apply adds_returned_bind; [solve [footprint] | intros ? ]
    | match goal with
      | |- adds_returned _ _ (match ?x with _ => _ end) => destruct x
      | |- adds_returned _ _ (let _ := _ in _) => cbv zeta
      end ].
Qed.

Section OneShot.

Context {P : Prims} (W : World).

Lemma op_step_stays_absent k b b' :
  op_step W k b b' -> sessions_get k (paymentSessions b) = None ->
  sessions_get k (paymentSessions b') = None.
Proof.
  intros [id sig b0 | b0 | url options b0 Hid | b0 b0' Hsame] Hb.
  - apply (x402Complete_stays_absent W k id sig b0 Hb).
  - apply (cleanupSessions_stays_absent W k b0 Hb).
  - apply (x402Prepare_adds_returned W k url options b0 Hb Hid).
  - rewrite Hsame. exact Hb.
Qed.

Lemma later_stays_absent k b b' :
  later W k b b' -> sessions_get k (paymentSessions b) = None ->
  sessions_get k (paymentSessions b') = None.
Proof.
  induction 1 as [| b1 b2 b3 Hstep _ IH]; intros Hb; [exact Hb | ].
  apply IH. eapply op_step_stays_absent; eassumption.
Qed.

Lemma x402Complete_absent k sig b :
  sessions_get k (paymentSessions b) = None ->
  x402Complete W k sig b = (Err SessionNotFound, b).
Proof.
  intros H. unfold x402Complete. cbv [bind gets of_option throw]. rewrite H. reflexivity.
Qed.

Lemma x402Complete_live k sig b session :
  sessions_get k (paymentSessions b) = Some session ->
  (w_now W (calls b) / 1000 >? ps_expiresAt session) = false ->
  x402Complete W k sig b =
  retryWithPayment W (ps_url session) (Some (ps_method session)) (ps_headers session)
    (ps_body session) (ps_paymentRequired session) (ps_accepted session)
    (mkPayload sig (ps_authorization session)) (ps_txRecordId session)
    (session_removed k b).
Proof.
  intros H Hnow. unfold x402Complete, unix_now, Date_now.
  cbv [bind gets of_option tick ret set_sessions]. rewrite H.
  cbn [calls state paymentSessions trace]. rewrite Hnow. reflexivity.
Qed.

Lemma x402Complete_expired k sig b session :
  sessions_get k (paymentSessions b) = Some session ->
  (w_now W (calls b) / 1000 >? ps_expiresAt session) = true ->
  x402Complete W k sig b =
  match updateTransaction W (ps_txRecordId session) session_expired_update
          (session_removed k b) with
  | (Ok _, b') => (Err SessionExpired, b')
  | (Err e, b') => (Err e, b')
  end.
Proof.
  intros H Hnow. unfold x402Complete, unix_now, Date_now.
  cbv [bind gets of_option tick ret set_sessions throw]. rewrite H.
  cbn [calls state paymentSessions trace]. rewrite Hnow. reflexivity.
Qed.

(** C7. A completed session is gone: the retry runs in a process from
    which the session has already been removed, and every later
    [x402Complete] on the same id fails with session-not-found. *)
Theorem session_is_one_shot k sig sig' r b b1 b2 :
  x402Complete W k sig b = (Ok r, b1) ->
  later W k b1 b2 ->
  (exists session,
      sessions_get k (paymentSessions b) = Some session /\
      sessions_get k (paymentSessions (session_removed k b)) = None /\
      x402Complete W k sig b =
      retryWithPayment W (ps_url session) (Some (ps_method session)) (ps_headers session)
        (ps_body session) (ps_paymentRequired session) (ps_accepted session)
        (mkPayload sig (ps_authorization session)) (ps_txRecordId session)
        (session_removed k b)) /\
  sessions_get k (paymentSessions b1) = None /\
  x402Complete W k sig' b2 = (Err SessionNotFound, b2).
Proof.
  intros Hrun Hlater.
  destruct (sessions_get k (paymentSessions b)) as [session | ] eqn:Hget.
  2: { rewrite (x402Complete_absent k sig b Hget) in Hrun. discriminate. }
  destruct (w_now W (calls b) / 1000 >? ps_expiresAt session) eqn:Hnow.
  { rewrite (x402Complete_expired k sig b session Hget Hnow) in Hrun.
    destruct (updateTransaction W _ _ _) as [[? | ?] ?]; discriminate. }
  pose proof (x402Complete_live k sig b session Hget Hnow) as Hlive.
  assert (Hb1 : sessions_get k (paymentSessions b1) = None).
  { pose proof (retryWithPayment_same_sessions W (ps_url session)
                  (Some (ps_method session)) (ps_headers session) (ps_body session)
                  (ps_paymentRequired session) (ps_accepted session)
                  (mkPayload sig (ps_authorization session)) (ps_txRecordId session)
                  (session_removed k b)) as Hsame.
    rewrite <- Hlive, Hrun in Hsame. cbn in Hsame. rewrite Hsame.
    apply sessions_get_delete_same. }
  split; [ | split].
  - exists session. split; [reflexivity | split].
    + apply sessions_get_delete_same.
    + exact Hlive.
  - exact Hb1.
  - apply x402Complete_absent. eapply later_stays_absent; eassumption.
Qed.

End OneShot.

(* ===================================================================== *)
(** * Expired and absent sessions *)
(* ===================================================================== *)

Lemma updateTransaction_ok (W : World) id u b t b' :
  updateTransaction W id u b = (Ok t, b') ->
  exists tx, active_tx id (state b) = Some tx /\ b' = after_update id u b.
Proof.
  intros H. unfold active_tx.
  destruct (getActiveEntry (state b)) as [entry | ] eqn:He.
  - destruct (find (has_id id) (we_transactions entry)) as [tx | ] eqn:Hf.
    + rewrite (updateTransaction_run W id u b entry tx He Hf) in H.
      exists tx. split; [reflexivity | ]. injection H as _ H. symmetry. exact H.
    + rewrite (updateTransaction_missing W id u b entry He Hf) in H. discriminate.
  - unfold updateTransaction in H.
    rewrite (bind_err _ _ _ _ _ (requireActiveEntry_none b He)) in H. discriminate.
Qed.

Lemma marked_expired_now id st tx :
  active_tx id st = Some tx -> marked_expired id (marked id session_expired_update st).
Proof.
  intros H. exists (apply_update session_expired_update tx).
  split; [apply active_tx_marked; exact H | split; reflexivity].
Qed.

Lemma has_id_eq id id' tx : has_id id tx = true -> has_id id' tx = true -> id = id'.
Proof.
  unfold has_id. intros H1 H2. apply String.eqb_eq in H1, H2. congruence.
Qed.

Lemma marked_expired_stable id id' st :
  (exists tx, active_tx id' st = Some tx) ->
  marked_expired id st -> marked_expired id (marked id' session_expired_update st).
Proof.
  intros (tx' & Htx') (tx & Htx & Hs & Hr).
  destruct (String.eqb_spec id id') as [-> | Hne].
  - apply (marked_expired_now id' st tx'). exact Htx'.
  - exists tx. split; [ | split; assumption].
    unfold active_tx, marked in *.
    destruct (getActiveEntry st) as [entry | ] eqn:He; [ | discriminate].
    rewrite (getActiveEntry_mutate
               (set_transactions (update_first (has_id id') (apply_update session_expired_update)))
               st entry (fun _ => eq_refl) He).
    cbn [set_transactions we_transactions].
    assert (E : forall l, find (has_id id)
                  (update_first (has_id id') (apply_update session_expired_update) l)
                = find (has_id id) l).
    { induction l as [| y l IH]; cbn [find update_first]; [reflexivity | ].
      destruct (has_id id' y) eqn:Hq; cbn [find update_first].
      - rewrite has_id_apply_update. destruct (has_id id y) eqn:Hp; [ | reflexivity].
        exfalso. apply Hne. eapply has_id_eq; eassumption.
      - destruct (has_id id y); [reflexivity | exact IH]. }
    rewrite E. exact Htx.
Qed.

Section Expiry.

Context {P : Prims} (W : World).

Lemma sweep_keeps_marked id now entries : forall b r b',
  sweep W now entries b = (Ok r, b') ->
  marked_expired id (state b) -> marked_expired id (state b').
Proof.
  induction entries as [| [k s] entries IH]; intros b r b' Hrun Hm.
  - cbn in Hrun. injection Hrun as _ <-. exact Hm.
  - cbn [sweep] in Hrun. rewrite bind_unfold in Hrun.
    destruct (now >? ps_expiresAt s).
    + rewrite bind_unfold in Hrun.
      destruct (updateTransaction W (ps_txRecordId s) session_expired_update b)
        as [[t | e] b1] eqn:Hu; [ | discriminate].
      destruct (updateTransaction_ok W _ _ _ _ _ Hu) as (tx & Htx & ->).
      cbn in Hrun. eapply IH; [exact Hrun | ]. cbn.
      apply marked_expired_stable; [exists tx; exact Htx | exact Hm].
    + cbn in Hrun. eapply IH; eassumption.
Qed.

Lemma sweep_marks now k session entries : forall b r b',
  In (k, session) entries ->
  (now >? ps_expiresAt session) = true ->
  sweep W now entries b = (Ok r, b') ->
  marked_expired (ps_txRecordId session) (state b') /\
  sessions_get k (paymentSessions b') = None.
Proof.
  induction entries as [| [k0 s0] entries IH]; intros b r b' Hin Hexp Hrun;
    [contradiction | ].
  cbn [sweep] in Hrun. rewrite bind_unfold in Hrun.
  destruct Hin as [Heq | Hin].
  - injection Heq as -> ->. rewrite Hexp in Hrun. rewrite bind_unfold in Hrun.
    destruct (updateTransaction W (ps_txRecordId session) session_expired_update b)
      as [[t | e] b1] eqn:Hu; [ | discriminate].
    destruct (updateTransaction_ok W _ _ _ _ _ Hu) as (tx & Htx & ->).
    cbn in Hrun. split.
    + eapply sweep_keeps_marked; [exact Hrun | ]. cbn.
      apply (marked_expired_now _ _ tx Htx).
    + match type of Hrun with
      | sweep _ _ _ ?b1 = _ =>
          pose proof (sweep_stays_absent W k now entries b1
                        (sessions_get_delete_same k (paymentSessions b))) as Habs
      end.
      rewrite Hrun in Habs. exact Habs.
  - destruct (now >? ps_expiresAt s0).
    + rewrite bind_unfold in Hrun.
      destruct (updateTransaction W (ps_txRecordId s0) session_expired_update b)
        as [[t | e] b1] eqn:Hu; [ | discriminate].
      cbn in Hrun. eapply IH; eassumption.
    + cbn in Hrun. eapply IH; eassumption.
Qed.

(** The record of a session that [updateTransaction] cannot reach. *)
Lemma updateTransaction_unreachable id u b :
  active_tx id (state b) = None ->
  updateTransaction W id u b = (Err (TxNotFound id), b) \/
  updateTransaction W id u b = (Err NoActiveWallet, b).
Proof.
  unfold active_tx. intros H.
  destruct (getActiveEntry (state b)) as [entry | ] eqn:He.
  - left. apply (updateTransaction_missing W id u b entry He H).
  - right. unfold updateTransaction.
    rewrite (bind_err _ _ _ _ _ (requireActiveEntry_none b He)). reflexivity.
Qed.

(** Marking a record keeps every record of the active wallet in reach. *)
Lemma reachable_marked id id' u st :
  (exists tx, active_tx id st = Some tx) ->
  exists tx, active_tx id (marked id' u st) = Some tx.
Proof.
  intros (tx & Htx). unfold active_tx, marked in *.
  destruct (getActiveEntry st) as [entry | ] eqn:He; [ | discriminate].
  rewrite (getActiveEntry_mutate
             (set_transactions (update_first (has_id id') (apply_update u)))
             st entry (fun _ => eq_refl) He).
  cbn [set_transactions we_transactions].
  revert Htx. generalize (we_transactions entry).
  induction l as [| y l IH]; cbn [find update_first]; [discriminate | ].
  destruct (has_id id' y); cbn [find].
  - rewrite has_id_apply_update. destruct (has_id id y); intros H; eauto.
  - destruct (has_id id y); intros H; eauto.
Qed.

(** The sweep completes when it can reach the record of every expired
    session and the writes succeed. *)
Lemma sweep_completes now entries : forall b,
  (forall n, w_writeFile W n = true) ->
  Forall (fun e => (now >? ps_expiresAt (snd e)) = true ->
                   exists tx, active_tx (ps_txRecordId (snd e)) (state b) = Some tx)
    entries ->
  exists b', sweep W now entries b = (Ok tt, b').
Proof.
  induction entries as [| [k s] entries IH]; intros b Hw Hall.
  - exists b. reflexivity.
  - inversion Hall as [| ? ? Hhead Hrest]; subst. cbn [snd] in Hhead.
    cbn [sweep]. rewrite bind_unfold.
    destruct (now >? ps_expiresAt s) eqn:Hexp.
    + destruct (Hhead eq_refl) as (tx & Htx).
      destruct (active_tx_found _ _ _ Htx) as (entry & He & Hf).
      rewrite bind_unfold, (updateTransaction_run W _ _ b entry tx He Hf), Hw.
      cbv [set_sessions]. cbn [after_update state paymentSessions trace calls].
      apply IH; [exact Hw | ]. cbn [state].
      eapply Forall_impl; [ | exact Hrest]. cbn beta.
      intros e Hreach He'. apply reachable_marked, Hreach, He'.
    + cbv [ret]. apply IH; assumption.
Qed.

(** C8 (amended). [x402Complete] on an absent session fails with
    session-not-found and changes nothing.  On a session that is present
    and expired it always removes the session.  When the active wallet
    holds the ledger entry of the session, the entry is marked failed with
    reason "Payment session expired" and the call fails with the
    session-expired error, or with the write error when the state file
    cannot be written.  When the active wallet does not hold the entry, or
    no wallet is active, nothing is marked or written and the call fails
    with the transaction-not-found or the no-active-wallet error.  A sweep
    that runs to completion has removed every expired session and marked
    its entry in the same way; the sweep runs to completion when the
    active wallet holds the entry of every expired session and the writes
    succeed. *)
Theorem absent_or_expired_session k sig b :
  (sessions_get k (paymentSessions b) = None ->
   x402Complete W k sig b = (Err SessionNotFound, b)) /\
  (forall session,
      sessions_get k (paymentSessions b) = Some session ->
      (w_now W (calls b) / 1000 >? ps_expiresAt session) = true ->
      sessions_get k (paymentSessions (snd (x402Complete W k sig b))) = None /\
      (forall tx,
          active_tx (ps_txRecordId session) (state b) = Some tx ->
          fst (x402Complete W k sig b)
          = (if w_writeFile W (S (calls b)) then Err SessionExpired
             else Err PersistenceError) /\
          marked_expired (ps_txRecordId session)
            (state (snd (x402Complete W k sig b)))) /\
      (active_tx (ps_txRecordId session) (state b) = None ->
       (fst (x402Complete W k sig b) = Err (TxNotFound (ps_txRecordId session)) \/
        fst (x402Complete W k sig b) = Err NoActiveWallet) /\
       state (snd (x402Complete W k sig b)) = state b /\
       trace (snd (x402Complete W k sig b)) = trace b)) /\
  (forall session r b',
      In (k, session) (paymentSessions b) ->
      (w_now W (calls b) / 1000 >? ps_expiresAt session) = true ->
      cleanupSessions W b = (Ok r, b') ->
      sessions_get k (paymentSessions b') = None /\
      marked_expired (ps_txRecordId session) (state b')) /\
  ((forall n, w_writeFile W n = true) ->
   Forall (fun e => (w_now W (calls b) / 1000 >? ps_expiresAt (snd e)) = true ->
                    exists tx, active_tx (ps_txRecordId (snd e)) (state b) = Some tx)
     (paymentSessions b) ->
   exists b', cleanupSessions W b = (Ok tt, b')).
Proof.
  split; [apply x402Complete_absent | split; [ | split]].
  - intros session Hget Hnow.
    rewrite (x402Complete_expired W k sig b session Hget Hnow).
    split; [ | split].
    + pose proof (updateTransaction_same_sessions W (ps_txRecordId session)
                    session_expired_update (session_removed k b)) as Hsame.
      destruct (updateTransaction W _ _ _) as [[t | e] b1]; cbn [snd] in *;
        rewrite Hsame; apply sessions_get_delete_same.
    + intros tx Htx.
      destruct (active_tx_found _ _ _ Htx) as (entry & He & Hf).
      erewrite updateTransaction_run by (cbn; eassumption).
      cbn [calls session_removed].
      split; [destruct (w_writeFile W (S (calls b))); reflexivity | ].
      destruct (w_writeFile W (S (calls b))); cbn; apply (marked_expired_now _ _ tx Htx).
    + intros Htx.
      destruct (updateTransaction_unreachable (ps_txRecordId session)
                  session_expired_update (session_removed k b) Htx) as [-> | ->];
        cbn [fst snd session_removed state trace];
        (split; [ | split; reflexivity]); [left | right]; reflexivity.
  - intros session r b' Hin Hnow Hrun.
    unfold cleanupSessions, unix_now, Date_now in Hrun.
    cbv [bind gets tick ret] in Hrun. cbn [calls paymentSessions] in Hrun.
    destruct (sweep_marks _ k session _ _ r b' Hin Hnow Hrun) as [Hm Ha].
    split; assumption.
  - intros Hw Hall.
    unfold cleanupSessions, unix_now, Date_now.
    cbv [bind gets tick ret]. cbn [calls paymentSessions].
    apply sweep_completes; [exact Hw | exact Hall].
Qed.

End Expiry.

(* ===================================================================== *)
(** * The rules engine *)
(* ===================================================================== *)

Section Rules.

Context {P : Prims} (W : World).

Ltac run_rules :=
  cbv [bind gets of_option ret throw getTodaySpent Date_now tick];
  cbn [state paymentSessions trace calls fst snd].

(** The verdict of the two lists. *)
Lemma enforceRules_caps_pass amountText service decimals b entry amount :
  getActiveEntry (state b) = Some entry ->
  BigInt amountText = Some amount ->
  per_tx_allows (we_rules entry) amount decimals ->
  daily_allows W b entry amount decimals ->
  fst (enforceRules W amountText service decimals b) =
  if matches_any (blockedServices (we_rules entry)) service then
    Err (RuleViolation Blocked (blocked_message (we_rules entry) service))
  else if (0 <? List.length (allowedServices (we_rules entry)))%nat then
    if matches_any (allowedServices (we_rules entry)) service then Ok tt
    else Err (RuleViolation NotAllowed (not_allowed_message (we_rules entry) service))
  else Ok tt.
Proof.
  intros Hentry Hamount Hmax Hcap.
  unfold enforceRules.
  rewrite (bind_ok _ _ _ _ _ (requireActiveEntry_found b entry Hentry)).
  unfold per_tx_allows in Hmax. unfold daily_allows, today_at in Hcap.
  run_rules. rewrite Hamount.
  destruct (maxPerTransaction (we_rules entry)) as [limit | ];
    [destruct Hmax as (max & -> & Hle); assert ((amount >? max) = false) as -> by lia | ];
    (destruct (dailyCap (we_rules entry)) as [climit | ];
     [destruct Hcap as (cap & spent & -> & Hsum & Hle2); cbn [calls]; rewrite Hsum;
      assert ((spent + amount >? cap) = false) as -> by lia | ]);
    (destruct (blockedServices (we_rules entry)) as [| p ps] eqn:Hb;
     [ | destruct (matches_any (p :: ps) service) ]);
    (destruct (allowedServices (we_rules entry)) as [| q qs] eqn:Ha;
     [ | destruct (matches_any (q :: qs) service) ]);
    reflexivity.
Qed.

Lemma lists_allow_verdict rules service :
  lists_allow rules service ->
  (if matches_any (blockedServices rules) service then
     Err (RuleViolation Blocked (blocked_message rules service))
   else if (0 <? List.length (allowedServices rules))%nat then
     if matches_any (allowedServices rules) service then Ok tt
     else Err (RuleViolation NotAllowed (not_allowed_message rules service))
   else Ok tt) = Ok tt.
Proof.
  intros [Hb [Ha | Ha]]; rewrite Hb, Ha; [reflexivity | ].
  destruct (0 <? List.length (allowedServices rules))%nat; reflexivity.
Qed.

(** C5 (amended). With [dailyCap = X] and [todaySpent] settled today: a
    payment of [X - todaySpent] is permitted when the per-transaction
    limit and the service lists permit it, and a payment of
    [X - todaySpent + 1] is rejected with the over-daily error when the
    per-transaction limit, checked first, does not reject it.  Both
    [todaySpent] and the date are those of the ledger and the clock at the
    time of the call. *)
Theorem daily_cap_boundary amountText amountText' service b entry capText X todaySpent :
  getActiveEntry (state b) = Some entry ->
  dailyCap (we_rules entry) = Some capText ->
  parseUnits capText 6 = Some X ->
  sumSettledOn (today_at W (calls b)) (we_transactions entry) 0 = Some todaySpent ->
  BigInt amountText = Some (X - todaySpent) ->
  BigInt amountText' = Some (X - todaySpent + 1) ->
  (per_tx_allows (we_rules entry) (X - todaySpent) 6 ->
   lists_allow (we_rules entry) service ->
   fst (enforceRules W amountText service 6 b) = Ok tt) /\
  (per_tx_allows (we_rules entry) (X - todaySpent + 1) 6 ->
   fst (enforceRules W amountText' service 6 b) =
   Err (RuleViolation OverDaily (over_daily_message capText todaySpent 6))).
Proof.
  intros Hentry Hcap HX Hspent Hamount Hamount'. split.
  - intros Hmax Hlists.
    rewrite (enforceRules_caps_pass amountText service 6 b entry (X - todaySpent)
               Hentry Hamount Hmax).
    + apply lists_allow_verdict. exact Hlists.
    + unfold daily_allows. rewrite Hcap. exists X, todaySpent.
      repeat split; [assumption | assumption | lia].
  - intros Hmax. unfold enforceRules.
    rewrite (bind_ok _ _ _ _ _ (requireActiveEntry_found b entry Hentry)).
    unfold per_tx_allows in Hmax. unfold today_at in Hspent.
    run_rules. rewrite Hamount', Hcap.
    destruct (maxPerTransaction (we_rules entry)) as [limit | ];
      [destruct Hmax as (max & -> & Hle);
       assert ((X - todaySpent + 1 >? max) = false) as -> by lia | ];
      rewrite HX; cbn [calls]; rewrite Hspent;
      assert ((todaySpent + (X - todaySpent + 1) >? X) = true) as -> by lia;
      reflexivity.
Qed.


End Rules.

(* ===================================================================== *)
(** * Decimal digits and [formatUnits] *)
(* ===================================================================== *)

Section Digits.

Import Js.

Lemma append_assoc (a b c : string) : ((a ++ b) ++ c = a ++ (b ++ c))%string.
Proof. induction a as [| x a IH]; cbn; [reflexivity | now rewrite IH]. Qed.

Lemma append_nil_r (a : string) : (a ++ EmptyString)%string = a.
Proof. induction a as [| x a IH]; cbn; [reflexivity | now rewrite IH]. Qed.

Lemma length_append (a b : string) :
  String.length (a ++ b) = (String.length a + String.length b)%nat.
Proof. induction a as [| x a IH]; cbn; [reflexivity | now rewrite IH]. Qed.

Lemma digits_acc_app fuel n acc :
  digits_acc fuel n acc = (digits_acc fuel n EmptyString ++ acc)%string.
Proof.
  revert n acc. induction fuel as [| f IH]; intros n acc; cbn; [reflexivity | ].
  destruct (n <? 10); [reflexivity | ].
  rewrite IH. rewrite (IH _ (String _ EmptyString)). rewrite append_assoc. reflexivity.
Qed.

Lemma digits_acc_fuel f1 : forall f2 n acc,
  0 <= n < 2 ^ Z.of_nat (S f1) -> 0 <= n < 2 ^ Z.of_nat (S f2) ->
  digits_acc (S f1) n acc = digits_acc (S f2) n acc.
Proof.
  induction f1 as [| f1 IH]; intros f2 n acc H1 H2.
  - cbn [digits_acc]. assert ((n <? 10) = true) as -> by (cbn in H1; lia).
    reflexivity.
  - cbn [digits_acc]. destruct (n <? 10) eqn:E; [reflexivity | ].
    apply Z.ltb_ge in E.
    destruct f2 as [| f2].
    { cbn in H2. lia. }
    apply IH.
    + split; [apply Z.div_pos; lia | ].
      apply Z.div_lt_upper_bound; [lia | ].
      rewrite (Nat2Z.inj_succ (S f1)), Z.pow_succ_r in H1 by lia. lia.
    + split; [apply Z.div_pos; lia | ].
      apply Z.div_lt_upper_bound; [lia | ].
      rewrite (Nat2Z.inj_succ (S f2)), Z.pow_succ_r in H2 by lia. lia.
Qed.

Lemma digits_fuel_ok n : 0 <= n -> 0 <= n < 2 ^ Z.of_nat (S (Z.to_nat (Z.log2 n))).
Proof.
  intros Hn. split; [assumption | ].
  rewrite Nat2Z.inj_succ, Z2Nat.id by apply Z.log2_nonneg.
  destruct (Z.eq_dec n 0) as [-> | Hne]; [reflexivity | ].
  apply Z.log2_spec. lia.
Qed.

Lemma digits_small n : 0 <= n < 10 -> digits n = String (digit_char n) EmptyString.
Proof.
  intros H. unfold digits. cbn [digits_acc].
  assert ((n <? 10) = true) as -> by lia. rewrite Z.mod_small by lia. reflexivity.
Qed.

Lemma digits_step n :
  10 <= n -> digits n = (digits (n / 10) ++ String (digit_char (n mod 10)) EmptyString)%string.
Proof.
  intros H. unfold digits at 1.
  pose proof (digits_fuel_ok n ltac:(lia)) as Hf.
  remember (Z.to_nat (Z.log2 n)) as f eqn:Ef.
  cbn [digits_acc]. assert ((n <? 10) = false) as -> by lia.
  rewrite digits_acc_app. f_equal.
  assert (Hq : 0 <= n / 10) by (apply Z.div_pos; lia).
  destruct f as [| f].
  { cbn in Hf. lia. }
  unfold digits. apply digits_acc_fuel.
  - split; [assumption | ].
    apply Z.div_lt_upper_bound; [lia | ].
    rewrite (Nat2Z.inj_succ (S f)), Z.pow_succ_r in Hf by lia. lia.
  - apply digits_fuel_ok. assumption.
Qed.

Lemma digits_nonempty n : 0 <= n -> digits n <> EmptyString.
Proof.
  intros H. destruct (Z_lt_le_dec n 10).
  - rewrite digits_small by lia. discriminate.
  - rewrite digits_step by assumption. destruct (digits (n / 10)); discriminate.
Qed.

Lemma zeros_snoc k : (zeros k ++ "0")%string = zeros (S k).
Proof. induction k as [| k IH]; cbn; [reflexivity | ]. cbn in IH. now rewrite IH. Qed.

Lemma length_zeros k : String.length (zeros k) = k.
Proof. induction k as [| k IH]; cbn; [reflexivity | now rewrite IH]. Qed.

Lemma digit_char_zero : digit_char 0 = "0"%char.
Proof. reflexivity. Qed.

(** The last digit of a number written with at least [k + 2] digits. *)
Lemma zero_padded_step k r :
  0 <= r ->
  zero_padded (S (S k)) r =
  (zero_padded (S k) (r / 10) ++ String (digit_char (r mod 10)) EmptyString)%string.
Proof.
  intros Hr. unfold zero_padded, padStart0.
  destruct (Z_lt_le_dec r 10) as [Hs | Hb].
  - rewrite (digits_small r) by lia.
    rewrite Z.div_small, Z.mod_small by lia.
    rewrite (digits_small 0) by lia. cbn [String.length].
    replace (S (S k) - 1)%nat with (S k) by lia.
    replace (S k - 1)%nat with k by lia.
    rewrite digit_char_zero, zeros_snoc. reflexivity.
  - rewrite (digits_step r) by assumption.
    rewrite length_append. cbn [String.length].
    replace (S (S k) - (String.length (digits (r / 10)) + 1))%nat
      with (S k - String.length (digits (r / 10)))%nat by lia.
    rewrite append_assoc. reflexivity.
Qed.

Lemma div10_bound k r :
  0 <= r < 10 ^ Z.of_nat (S (S k)) -> 0 <= r / 10 < 10 ^ Z.of_nat (S k).
Proof.
  intros Hr. split; [apply Z.div_pos; lia | ].
  apply Z.div_lt_upper_bound; [lia | ].
  rewrite (Nat2Z.inj_succ (S k)), Z.pow_succ_r in Hr by lia. lia.
Qed.

Lemma length_zero_padded k : forall r,
  0 <= r < 10 ^ Z.of_nat (S k) -> String.length (zero_padded (S k) r) = S k.
Proof.
  induction k as [| k IH]; intros r Hr.
  - unfold zero_padded, padStart0. rewrite digits_small by (cbn in Hr; lia). reflexivity.
  - rewrite zero_padded_step by lia. rewrite length_append, IH by (apply div10_bound; exact Hr).
    cbn. lia.
Qed.

(** A number of more than [k + 1] digits: its leading digits, then the
    last [k + 1]. *)
Lemma digits_split k : forall n,
  10 ^ Z.of_nat (S k) <= n ->
  digits n =
  (digits (n / 10 ^ Z.of_nat (S k)) ++ zero_padded (S k) (n mod 10 ^ Z.of_nat (S k)))%string.
Proof.
  induction k as [| k IH]; intros n Hn.
  - change (10 ^ Z.of_nat 1) with 10 in *. rewrite digits_step by assumption.
    f_equal. unfold zero_padded, padStart0.
    rewrite digits_small by (apply Z.mod_pos_bound; lia). reflexivity.
  - assert (Hp : 0 < 10 ^ Z.of_nat (S k)) by (apply Z.pow_pos_nonneg; lia).
    assert (E : 10 ^ Z.of_nat (S (S k)) = 10 * 10 ^ Z.of_nat (S k)).
    { rewrite (Nat2Z.inj_succ (S k)), Z.pow_succ_r by lia. reflexivity. }
    rewrite E in *.
    rewrite digits_step by lia.
    rewrite (IH (n / 10)) by (apply Z.div_le_lower_bound; lia).
    rewrite Z.div_div by lia.
    rewrite append_assoc. f_equal.
    rewrite zero_padded_step by (apply Z.mod_pos_bound; lia).
    rewrite Z.rem_mul_r by lia.
    f_equal.
    + f_equal. rewrite Z.mul_comm, Z.div_add by lia.
      rewrite (Z.div_small (n mod 10)) by (apply Z.mod_pos_bound; lia). reflexivity.
    + f_equal. f_equal. rewrite Z.mul_comm, Z.mod_add by lia.
      symmetry. apply Z.mod_mod. lia.
Qed.

Lemma digit_cases d : 0 <= d < 10 ->
  d = 0 \/ d = 1 \/ d = 2 \/ d = 3 \/ d = 4 \/ d = 5 \/ d = 6 \/ d = 7 \/ d = 8 \/ d = 9.
Proof. lia. Qed.

Lemma digit_char_is_zero d : 0 <= d < 10 -> digit_char d = "0"%char -> d = 0.
Proof.
  intros H. destruct (digit_cases d H) as [-> | [-> | [-> | [-> | [-> | [-> | [-> | [-> | [-> | ->]]]]]]]]];
    cbn; intros E; try reflexivity; discriminate.
Qed.

Lemma digit_char_not_minus d : 0 <= d < 10 -> Ascii.eqb "-" (digit_char d) = false.
Proof.
  intros H. destruct (digit_cases d H) as [-> | [-> | [-> | [-> | [-> | [-> | [-> | [-> | [-> | ->]]]]]]]]];
    reflexivity.
Qed.

Lemma digits_head n : 0 <= n ->
  exists d s, 0 <= d < 10 /\ digits n = String (digit_char d) s.
Proof.
  intros Hn. pattern n. apply Zlt_0_ind; [ | assumption]. clear n Hn.
  intros n IH Hn. destruct (Z_lt_le_dec n 10) as [Hs | Hb].
  - exists n, EmptyString. split; [lia | apply digits_small; lia].
  - destruct (IH (n / 10)) as (d & s & Hd & E).
    { split; [apply Z.div_pos; lia | apply Z.div_lt; lia]. }
    exists d, (s ++ String (digit_char (n mod 10)) EmptyString)%string.
    split; [assumption | ]. rewrite digits_step by assumption. rewrite E. reflexivity.
Qed.

Lemma digits_not_negative n : 0 <= n -> startsWith "-" (digits n) = false.
Proof.
  intros Hn. destruct (digits_head n Hn) as (d & s & Hd & ->). cbn [startsWith].
  rewrite digit_char_not_minus by assumption. reflexivity.
Qed.

Lemma take_append a b : take (String.length a) (a ++ b) = a.
Proof. induction a as [| x a IH]; cbn; [destruct b | rewrite IH]; reflexivity. Qed.

Lemma drop_append a b : drop (String.length a) (a ++ b) = b.
Proof. induction a as [| x a IH]; cbn; [reflexivity | exact IH]. Qed.

Lemma append_snoc_inj a b x y :
  (a ++ String x EmptyString = b ++ String y EmptyString)%string -> a = b /\ x = y.
Proof.
  revert b. induction a as [| c a IH]; intros [| c' b] H; cbn in H.
  - injection H as ->. split; reflexivity.
  - injection H as -> H. destruct b; discriminate.
  - injection H as -> H. destruct a; discriminate.
  - injection H as -> H. destruct (IH _ H) as [-> ->]. split; reflexivity.
Qed.

Lemma trimZeros_empty s : trimZeros s = EmptyString <-> s = zeros (String.length s).
Proof.
  induction s as [| c s IH]; cbn; [split; reflexivity | ].
  destruct (trimZeros s) eqn:E.
  - destruct (Ascii.eqb_spec c "0") as [-> | Hc].
    + split; [intros _; f_equal; apply IH; reflexivity | reflexivity].
    + split; [discriminate | intros H; injection H as H _; contradiction].
  - split; [discriminate | ].
    intros H. injection H as _ H. apply IH in H. discriminate.
Qed.

Lemma pad_zero k : zero_padded (S k) 0 = zeros (S k).
Proof.
  unfold zero_padded, padStart0. rewrite digits_small by lia. cbn [String.length].
  replace (S k - 1)%nat with k by lia. rewrite digit_char_zero. apply zeros_snoc.
Qed.

Lemma pad_all_zeros k : forall r,
  0 <= r < 10 ^ Z.of_nat (S k) -> zero_padded (S k) r = zeros (S k) -> r = 0.
Proof.
  induction k as [| k IH]; intros r Hr.
  - unfold zero_padded, padStart0. rewrite digits_small by (cbn in Hr; lia).
    cbn [String.length Nat.sub zeros append].
    intros E. injection E as E. apply digit_char_is_zero; [cbn in Hr; lia | exact E].
  - rewrite zero_padded_step by lia. rewrite <- (zeros_snoc (S k)). intros E.
    apply append_snoc_inj in E. destruct E as [E1 E2].
    apply IH in E1; [ | apply div10_bound; exact Hr].
    apply digit_char_is_zero in E2; [ | apply Z.mod_pos_bound; lia].
    rewrite (Z.div_mod r 10) by lia. lia.
Qed.

End Digits.

Section FormatUnits.

Import Js.

Lemma append_nil_l a : (EmptyString ++ a)%string = a.
Proof. reflexivity. Qed.

Lemma orElse_nonempty a b : a <> EmptyString -> orElse a b = a.
Proof. destruct a; [contradiction | reflexivity]. Qed.

Lemma fraction_of_pad k r :
  0 <= r < 10 ^ Z.of_nat (S k) ->
  (if truthy (trimZeros (zero_padded (S k) r)) then "." ++ trimZeros (zero_padded (S k) r)
   else EmptyString)%string = fraction_text (S k) r.
Proof.
  intros Hr. unfold fraction_text. destruct (Z.eqb_spec r 0) as [-> | Hne].
  - rewrite pad_zero.
    assert (trimZeros (zeros (S k)) = EmptyString) as ->; [ | reflexivity].
    apply trimZeros_empty. rewrite length_zeros. reflexivity.
  - destruct (trimZeros (zero_padded (S k) r)) eqn:E; [ | reflexivity].
    exfalso. apply Hne. apply trimZeros_empty in E.
    rewrite length_zero_padded in E by assumption.
    apply (pad_all_zeros k r Hr E).
Qed.

Lemma formatUnits_nonneg k atomic :
  0 <= atomic ->
  Viem.formatUnits atomic (S k) =
  (digits (atomic / 10 ^ Z.of_nat (S k))
   ++ fraction_text (S k) (atomic mod 10 ^ Z.of_nat (S k)))%string.
Proof.
  intros Ha. unfold Viem.formatUnits, bigint_toString.
  assert ((atomic <? 0) = false) as -> by lia.
  rewrite digits_not_negative by assumption.
  assert (Hp : 0 < 10 ^ Z.of_nat (S k)) by (apply Z.pow_pos_nonneg; lia).
  rewrite append_nil_l.
  destruct (Z_lt_le_dec atomic (10 ^ Z.of_nat (S k))) as [Hs | Hb].
  - change (padStart0 (S k) (digits atomic)) with (zero_padded (S k) atomic).
    rewrite length_zero_padded by lia. rewrite Nat.sub_diag. cbn [take drop orElse].
    rewrite Z.div_small, Z.mod_small by lia.
    rewrite (digits_small 0) by lia. rewrite digit_char_zero.
    f_equal. apply fraction_of_pad. lia.
  - pose proof (Z.mod_pos_bound atomic _ Hp) as Hr.
    unfold padStart0. rewrite (digits_split k atomic Hb).
    set (q := digits (atomic / 10 ^ Z.of_nat (S k))).
    set (f := zero_padded (S k) (atomic mod 10 ^ Z.of_nat (S k))).
    assert (Hf : String.length f = S k) by (apply length_zero_padded; assumption).
    assert (Hlen : String.length (q ++ f) = (String.length q + S k)%nat)
      by (rewrite length_append, Hf; reflexivity).
    rewrite Hlen.
    replace (S k - (String.length q + S k))%nat with 0%nat by lia.
    cbn [zeros]. rewrite append_nil_l, Hlen.
    replace (String.length q + S k - S k)%nat with (String.length q) by lia.
    rewrite take_append, drop_append.
    rewrite orElse_nonempty by (apply digits_nonempty, Z.div_pos; lia).
    f_equal. apply fraction_of_pad. assumption.
Qed.

End FormatUnits.


(** The amount that a paid request reports. *)
Lemma retryWithPayment_amount {P : Prims} (W : World)
  url method hdrs body paymentRequired accepted payload id b r b' :
  retryWithPayment W url method hdrs body paymentRequired accepted payload id b
  = (Ok r, b') ->
  exists atomic,
    BigInt (pr_amount accepted) = Some atomic /\
    option_map pay_amount (fr_payment r) = Some (Viem.formatUnits atomic 6).
Proof.
  unfold retryWithPayment. cbv [bind gets]. rewrite fetch_run.
  destruct (w_fetch W (calls b) _) as [resp | ]; [ | discriminate].
  destruct (updateTransaction W id (retry_update resp) _) as [[t | e] b1];
    [ | discriminate].
  cbv [of_option ret throw].
  destruct (BigInt (pr_amount accepted)) as [atomic | ]; [ | discriminate].
  intros H. injection H as <- _. exists atomic. split; reflexivity.
Qed.

(** C9 (amended). The amount of a receipt is [atomic / 10^6] in plain
    decimal notation: the digits of the integer part, then, unless the
    fraction is zero, a point and the six fraction digits without their
    trailing zeros.  So 100000 gives 0.1, 10000 gives 0.01, 1234567 gives
    1.234567, and 0 gives 0, without point or fraction.  This is the
    amount that the broker reports for a paid request: the payment part of
    what [retryWithPayment] returns holds [formatUnits] of the accepted
    amount at 6 decimals. *)
Theorem receipt_amount_format :
  (forall atomic,
      0 <= atomic ->
      Viem.formatUnits atomic 6 =
      (Js.digits (atomic / 1000000) ++ fraction_text 6 (atomic mod 1000000))%string) /\
  Viem.formatUnits 100000 6 = "0.1" /\
  Viem.formatUnits 10000 6 = "0.01" /\
  Viem.formatUnits 1234567 6 = "1.234567" /\
  Viem.formatUnits 0 6 = "0" /\
  (forall (P : Prims) (W : World) url method hdrs body paymentRequired accepted payload
          id b r b',
      retryWithPayment W url method hdrs body paymentRequired accepted payload id b
      = (Ok r, b') ->
      exists atomic,
        BigInt (pr_amount accepted) = Some atomic /\
        option_map pay_amount (fr_payment r) = Some (Viem.formatUnits atomic 6)).
Proof.
  split; [ | repeat split; try reflexivity].
  - intros atomic H. apply (formatUnits_nonneg 5 atomic H).
  - intros P W. apply retryWithPayment_amount.
Qed.

(** C9, as stated, fails at zero (and at every whole number of USDC): the
    amount has no fractional digit, where the specification asks for one. *)
Lemma receipt_amount_of_zero_has_no_fraction :
  Viem.formatUnits 0 6 = "0" /\ spec_format_amount 0 = "0.0" /\
  Viem.formatUnits 0 6 <> spec_format_amount 0 /\
  Viem.formatUnits 5000000 6 = "5" /\ spec_format_amount 5000000 = "5.0".
Proof. repeat split; try reflexivity. discriminate. Qed.

(* ===================================================================== *)
(** * Migration of a legacy document *)
(* ===================================================================== *)

(** C10. A legacy document (no [wallets] array) whose [wallet] or
    [adapterConfig] is absent, or [null], migrates to the empty document,
    whatever its [rules] and [transactions] hold; [initStore] keeps that
    document in memory and writes it back to the state file. *)
Theorem legacy_without_wallet_migrates_to_empty
  (parse : string -> option json) fresh baseDir fs text fields :
  Store.fs_read (Store.statePath baseDir) fs = Some text ->
  parse text = Some (JObj fields) ->
  Json.isArray (Json.prop "wallets" (JObj fields)) = false ->
  (Json.truthy (Json.prop "wallet" (JObj fields)) = false \/
   Json.truthy (Json.prop "adapterConfig" (JObj fields)) = false) ->
  Store.migrateIfNeeded fresh (JObj fields) =
    Some (JObj [("wallets", JArr []); ("activeWalletId", JNull); ("network", JStr "base")]) /\
  Store.migrateIfNeeded fresh (JObj fields) = Some (Json.of_state Store.empty_state) /\
  exists mk,
    Store.initStore parse fresh baseDir fs =
    Some (Json.of_state Store.empty_state,
          mk ++ [Store.FsWriteFile (Store.statePath baseDir)
                   (Json.stringify (Json.of_state Store.empty_state))]).
Proof.
  intros Hread Hparse Hv1 Hlacks.
  assert (Hm : Store.migrateIfNeeded fresh (JObj fields)
               = Some (Json.of_state Store.empty_state)).
  { unfold Store.migrateIfNeeded. rewrite Hv1.
    destruct Hlacks as [H | H]; rewrite H; [ | rewrite andb_false_r]; reflexivity. }
  split; [exact Hm | split; [exact Hm | ]].
  unfold Store.initStore. rewrite Hread, Hparse, Hm.
  eexists. reflexivity.
Qed.

(* ===================================================================== *)
(** * Writes of the state file *)
(* ===================================================================== *)

Lemma fs_read_written path content fs :
  Store.fs_read path (Store.fs_apply (Store.FsWriteFile path content) fs) = Some content.
Proof.
  unfold Store.fs_read, Store.fs_apply. cbn [Store.fs_files find fst snd].
  rewrite String.eqb_refl. reflexivity.
Qed.

(** C4 (amended). [persist] is one [writeFileSync] of the whole document,
    pretty-printed, onto the state file itself: there is no temporary file
    and no rename.  When the write completes the file holds the new
    document; a crash during the write can leave any proper prefix of it. *)
Theorem persist_is_one_direct_write baseDir doc fs :
  Store.persist_ops baseDir doc =
    [Store.FsWriteFile (Store.statePath baseDir) (Json.stringify doc)] /\
  is_temp_then_rename (Store.statePath baseDir) (Json.stringify doc)
    (Store.persist_ops baseDir doc) = false /\
  Store.fs_read (Store.statePath baseDir) (Store.fs_run (Store.persist_ops baseDir doc) fs)
    = Some (Json.stringify doc) /\
  (forall st, Store.fs_ops_of baseDir (EvPersist st)
              = Store.persist_ops baseDir (Json.of_state st)) /\
  (forall n, (n < String.length (Json.stringify doc))%nat ->
     exists fs',
       Store.crash_image (Store.persist_ops baseDir doc) fs fs' /\
       Store.fs_read (Store.statePath baseDir) fs' = Some (Js.take n (Json.stringify doc))).
Proof.
  split; [reflexivity | split; [reflexivity | split; [ | split]]].
  - cbn [Store.persist_ops Store.fs_run fold_left]. apply fs_read_written.
  - reflexivity.
  - intros n Hn. eexists. split.
    + unfold Store.persist_ops. apply Store.crash_inside_write. exact Hn.
    + apply fs_read_written.
Qed.

(* ===================================================================== *)
(** * The order of the payment flows *)
(* ===================================================================== *)

(** C2 (amended). In the single-shot flow the effects follow this order:
    the negotiation request, the call of the adapter's signing operation,
    the write of the document that holds the new pending record, the retry
    request, the write of the outcome; so the signature is asked for before
    the pending record is appended, and the pending record is written
    before the retry goes out.  In the two-phase flow [x402Prepare] writes
    the pending record after the negotiation request, and neither it nor
    [x402Complete] calls the adapter's signing operation. *)
Theorem payment_flows_order {P : Prims} (W : World) url options sessionId sig :
  loosely single_shot_pattern (x402Fetch W url options) /\
  within [is_fetch; persists_last pending] (x402Prepare W url options) /\
  respects (emits_only not_sign) (x402Complete W sessionId sig).
Proof.
  split; [apply x402Fetch_order | split].
  - apply x402Prepare_order.
  - apply x402Complete_no_sign.
Qed.

(** C2, as stated, fails on the single-shot flow: in the happy path the
    adapter is asked to sign when nothing has been written yet. *)
Lemma single_shot_signs_before_pending :
  (exists r, fst (Sample.single_shot true) = Ok r /\ fr_status r = 200) /\
  map kind_of (trace (snd (Sample.single_shot true)))
    = [KFetch; KSign; KPersist; KFetch; KPersist] /\
  pending_before_signing false (trace (snd (Sample.single_shot true))) = false.
Proof.
  split; [eexists; split; vm_compute; reflexivity | ].
  split; vm_compute; reflexivity.
Qed.

(* ===================================================================== *)
(** * The properties on the sample runs *)
(* ===================================================================== *)

(** C1 on the blocked-service scenario: the call fails with the blocked
    error and the document is unchanged. *)
Lemma blocked_service_leaves_no_artifact :
  exists e d,
    fst (@x402Fetch Sample.prims (Sample.world true 1) Sample.evil_url Sample.options
           (Sample.process Sample.local_key false Sample.blocking_rules [])) = Err e /\
    state (snd (@x402Fetch Sample.prims (Sample.world true 1) Sample.evil_url
                  Sample.options
                  (Sample.process Sample.local_key false Sample.blocking_rules [])))
    = state (Sample.process Sample.local_key false Sample.blocking_rules []) /\
    Forall is_fetch d.
Proof.
  destruct (@x402Fetch_refusal_leaves_no_artifact Sample.prims (Sample.world true 1)
              Sample.evil_url Sample.options
              (Sample.process Sample.local_key false Sample.blocking_rules [])
              (Sample.entry Sample.local_key false Sample.blocking_rules []))
    as (e & d & He & Hs & _ & _ & Hd & _).
  - reflexivity.
  - right. eexists. split; [ | vm_compute; reflexivity]. reflexivity.
  - exists e, d. repeat split; assumption.
Defined.



(** C5 (amended) on the boundary scenario: cap 0.10, 0.09 spent today. *)
Lemma daily_cap_boundary_scenario :
  fst (@enforceRules Sample.prims (Sample.world true 1) "10000" "api.example.com" 6
         (Sample.process Sample.local_key false (Sample.capped_rules None)
            [Sample.earlier_today])) = Ok tt /\
  fst (@enforceRules Sample.prims (Sample.world true 1) "10001" "api.example.com" 6
         (Sample.process Sample.local_key false (Sample.capped_rules None)
            [Sample.earlier_today]))
  = Err (RuleViolation OverDaily (over_daily_message "0.10" 90000 6)).
Proof.
  destruct (@daily_cap_boundary Sample.prims (Sample.world true 1) "10000" "10001"
              "api.example.com"
              (Sample.process Sample.local_key false (Sample.capped_rules None)
                 [Sample.earlier_today])
              (Sample.entry Sample.local_key false (Sample.capped_rules None)
                 [Sample.earlier_today])
              "0.10" 100000 90000)
    as [Hpermit Hreject].
  - reflexivity.
  - reflexivity.
  - vm_compute. reflexivity.
  - vm_compute. reflexivity.
  - vm_compute. reflexivity.
  - vm_compute. reflexivity.
  - split.
    + apply Hpermit; [exact I | ]. split; [reflexivity | left; reflexivity].
    + apply Hreject. exact I.
Defined.

(** C5, as stated, fails when a per-transaction limit is set below the
    remaining allowance: the payment of [X - todaySpent] is rejected. *)
Lemma remaining_allowance_over_per_tx_limit :
  @parseUnits Sample.prims "0.10" 6 = Some 100000 /\
  @sumSettledOn Sample.prims (today_at (P := Sample.prims) (Sample.world true 1) 0)
    [Sample.earlier_today] 0 = Some 90000 /\
  @BigInt Sample.prims "10000" = Some (100000 - 90000) /\
  fst (@enforceRules Sample.prims (Sample.world true 1) "10000" "api.example.com" 6
         (Sample.process Sample.local_key false (Sample.capped_rules (Some "0.005"))
            [Sample.earlier_today]))
  = Err (RuleViolation OverPerTx
           "Payment of 0.010000 USDC exceeds per-transaction limit of 0.005 USDC").
Proof. repeat split; vm_compute; reflexivity. Qed.



(** C7 on the two-phase scenario: the session is completed once, and a
    second completion fails with session-not-found. *)
Lemma second_complete_fails :
  sessions_get Sample.session_id (paymentSessions (snd (Sample.prepared 1))) <> None /\
  (exists r,
      fst (@x402Complete Sample.prims (Sample.world true 1) Sample.session_id "0xsig"
             (snd (Sample.prepared 1))) = Ok r /\ fr_status r = 200) /\
  fst (@x402Complete Sample.prims (Sample.world true 1) Sample.session_id "0xsig"
         (snd (@x402Complete Sample.prims (Sample.world true 1) Sample.session_id "0xsig"
                 (snd (Sample.prepared 1)))))
  = Err SessionNotFound.
Proof.
  split; [vm_compute; discriminate | ].
  split; [eexists; split; vm_compute; reflexivity | ].
  destruct (@x402Complete Sample.prims (Sample.world true 1) Sample.session_id "0xsig"
              (snd (Sample.prepared 1))) as [r b1] eqn:Hrun.
  destruct r as [r | e]; [ | vm_compute in Hrun; discriminate].
  destruct (@session_is_one_shot Sample.prims (Sample.world true 1) Sample.session_id
              "0xsig" "0xsig" r (snd (Sample.prepared 1)) b1 b1 Hrun
              (later_now (Sample.world true 1) Sample.session_id b1))
    as (_ & _ & Hsecond).
  cbn [snd]. rewrite Hsecond. reflexivity.
Defined.

(** C8 (amended) on the expiry scenario: the clock has passed [expiresAt]
    when the signature comes back. *)
Lemma expired_complete_marks_failed :
  fst (@x402Complete Sample.prims (Sample.world true 400000) Sample.session_id "0xsig"
         (snd (Sample.prepared 400000))) = Err SessionExpired /\
  marked_expired "00000000000000000000000000000003"
    (state (snd (@x402Complete Sample.prims (Sample.world true 400000) Sample.session_id
                   "0xsig" (snd (Sample.prepared 400000))))).
Proof.
  destruct (@absent_or_expired_session Sample.prims (Sample.world true 400000)
              Sample.session_id "0xsig" (snd (Sample.prepared 400000)))
    as (_ & Hexpired & _).
  assert (Hsession : exists session,
             sessions_get Sample.session_id
               (paymentSessions (snd (Sample.prepared 400000))) = Some session /\
             ps_txRecordId session = "00000000000000000000000000000003" /\
             ps_expiresAt session = 1700001000).
  { eexists. split; [vm_compute; reflexivity | split; reflexivity]. }
  destruct Hsession as (session & Hget & Hid & Hexp).
  assert (Htx : exists tx,
             active_tx "00000000000000000000000000000003"
               (state (snd (Sample.prepared 400000))) = Some tx).
  { eexists. vm_compute. reflexivity. }
  destruct Htx as (tx & Htx).
  destruct (Hexpired session Hget) as (_ & Hpresent & _).
  - rewrite Hexp. vm_compute. reflexivity.
  - destruct (Hpresent tx) as (Herr & Hmarked).
    + rewrite Hid. exact Htx.
    + rewrite Hid in Hmarked. split; [ | exact Hmarked].
      rewrite Herr. reflexivity.
Defined.

(** C8, as stated, fails twice.  A completion after [expiresAt] fails with
    the session-expired error, not session-not-found; and a completion of
    a session that is absent because it was completed before fails with
    session-not-found while its ledger entry stays settled. *)
Lemma expired_is_not_reported_as_not_found :
  fst (@x402Complete Sample.prims (Sample.world true 400000) Sample.session_id "0xsig"
         (snd (Sample.prepared 400000))) = Err SessionExpired /\
  SessionExpired <> SessionNotFound /\
  error_message SessionExpired = "Payment session expired. Please try again." /\
  error_message SessionNotFound = "Payment session not found or expired." /\
  fst (@x402Complete Sample.prims (Sample.world true 1) Sample.session_id "0xsig"
         (snd (@x402Complete Sample.prims (Sample.world true 1) Sample.session_id "0xsig"
                 (snd (Sample.prepared 1)))))
  = Err SessionNotFound /\
  exists tx,
    active_tx "00000000000000000000000000000003"
      (state (snd (@x402Complete Sample.prims (Sample.world true 1) Sample.session_id
                     "0xsig"
                     (snd (@x402Complete Sample.prims (Sample.world true 1)
                             Sample.session_id "0xsig" (snd (Sample.prepared 1)))))))
    = Some tx /\ tx_status tx = settled.
Proof.
  split; [vm_compute; reflexivity | ].
  split; [discriminate | ].
  split; [reflexivity | ].
  split; [reflexivity | ].
  split; [vm_compute; reflexivity | ].
  eexists. split; [vm_compute; reflexivity | reflexivity].
Qed.

(** C9 (amended) on 1.234567 USDC. *)
Lemma receipt_amount_of_1234567 :
  Viem.formatUnits 1234567 6 = (Js.digits 1 ++ fraction_text 6 234567)%string.
Proof. apply (proj1 receipt_amount_format 1234567). lia. Defined.

(** C10 on a legacy state file without wallet. *)
Lemma legacy_state_file_migrates_to_empty :
  Store.migrateIfNeeded "0011223344556677" (JObj Sample.legacy_fields)
  = Some (JObj [("wallets", JArr []); ("activeWalletId", JNull); ("network", JStr "base")]).
Proof.
  destruct (legacy_without_wallet_migrates_to_empty Sample.parse "0011223344556677"
              Sample.home Sample.legacy_fs Sample.legacy_text Sample.legacy_fields)
    as (Hm & _).
  - reflexivity.
  - vm_compute. reflexivity.
  - reflexivity.
  - left. reflexivity.
  - exact Hm.
Defined.

(** C4, as stated, fails: the operations of [persist] are not a write to a
    temporary file followed by a rename, and a crash during the write
    leaves a state file that is neither the previous document nor the new
    one. *)
Lemma persist_can_tear_the_state_file :
  Store.persist_ops Sample.home Sample.one_wallet
  = [Store.FsWriteFile "/home/agent/.clawlet/state.json"
       (Json.stringify Sample.one_wallet)] /\
  is_temp_then_rename (Store.statePath Sample.home) (Json.stringify Sample.one_wallet)
    (Store.persist_ops Sample.home Sample.one_wallet) = false /\
  exists fs' torn,
    Store.crash_image (Store.persist_ops Sample.home Sample.one_wallet) Sample.empty_fs fs' /\
    Store.fs_read (Store.statePath Sample.home) Sample.empty_fs = Some Sample.empty_text /\
    Store.fs_read (Store.statePath Sample.home) fs' = Some torn /\
    torn <> Sample.empty_text /\ torn <> Json.stringify Sample.one_wallet.
Proof.
  split; [reflexivity | split; [reflexivity | ]].
  exists (Store.fs_apply
            (Store.FsWriteFile (Store.statePath Sample.home)
               (Js.take 14 (Json.stringify Sample.one_wallet)))
            Sample.empty_fs),
    (Js.take 14 (Json.stringify Sample.one_wallet)).
  split; [ | split; [reflexivity | split; [apply fs_read_written | ]]].
  - unfold Store.persist_ops. apply Store.crash_inside_write. vm_compute. lia.
  - split; vm_compute; discriminate.
Qed.

(* ===================================================================== *)
(** * Settings *)
(* ===================================================================== *)

Lemma bind_inv {A B : Type} (m : M A) (k : A -> M B) (b b' : Broker) (x : B) :
  bind m k b = (Ok x, b') -> exists a b1, m b = (Ok a, b1) /\ k a b1 = (Ok x, b').
Proof.
  unfold bind. destruct (m b) as [[a | e] b1]; [ | discriminate].
  intros H. exists a, b1. split; [reflexivity | assumption].
Qed.

Lemma persist_run (W : World) b :
  persist W b =
  (written W (calls b) tt,
   mkBroker (state b) (paymentSessions b) (trace b ++ [EvPersist (state b)]) (S (calls b))).
Proof.
  unfold persist, written. cbv [bind gets emit tick ret throw].
  cbn [state paymentSessions trace calls].
  destruct (w_writeFile W (calls b)); reflexivity.
Qed.

Section Settings.

Context {P : Prims} (W : World).

(** A setter of the active wallet: the entry is found, changed in place,
    and the document is written. *)
Lemma setter_run (f : WalletEntry -> WalletEntry) b entry :
  getActiveEntry (state b) = Some entry ->
  bind requireActiveEntry
    (fun _ => bind (set_state (mutate_active f)) (fun _ => persist W)) b
  = (written W (calls b) tt, after_mutation f b).
Proof.
  intros H. rewrite (bind_ok _ _ _ _ _ (requireActiveEntry_found b entry H)).
  unfold bind at 1. cbv [set_state]. rewrite persist_run. reflexivity.
Qed.

Lemma setter_no_wallet {A : Type} (k : WalletEntry -> M A) b :
  getActiveEntry (state b) = None ->
  bind requireActiveEntry k b = (Err NoActiveWallet, b).
Proof. intros H. apply (bind_err _ _ _ _ _ (requireActiveEntry_none b H)). Qed.

Lemma setRules_run patch b entry :
  getActiveEntry (state b) = Some entry ->
  setRules W patch b =
  (written W (calls b) (patch_rules patch (we_rules entry)),
   after_mutation (set_rules (patch_rules patch)) b).
Proof.
  intros H. unfold setRules.
  rewrite (bind_ok _ _ _ _ _ (requireActiveEntry_found b entry H)).
  unfold bind at 1. cbv [set_state]. unfold bind. rewrite persist_run.
  unfold written, after_mutation. cbn [state paymentSessions trace calls].
  destruct (w_writeFile W (calls b)); reflexivity.
Qed.


Lemma getActiveEntry_after_mutation (f : WalletEntry -> WalletEntry) b entry :
  (forall w, we_id (f w) = we_id w) ->
  getActiveEntry (state b) = Some entry ->
  getActiveEntry (state (after_mutation f b)) = Some (f entry).
Proof. intros Hid H. apply getActiveEntry_mutate; assumption. Qed.

(** X1. [setRules] is a partial update of the rules of the active wallet:
    a field of the patch that is absent keeps its value, a field that is
    present (a limit may be [null]) replaces it.  The call returns the
    updated rules when the write succeeds, [getRules] returns them
    afterwards, the rest of the wallet is as before, and the only effect is
    one write of the new document. *)
Theorem setRules_is_a_partial_update patch b entry :
  getActiveEntry (state b) = Some entry ->
  exists rules' b',
    setRules W patch b = (written W (calls b) rules', b') /\
    getRules b' = (Ok rules', b') /\
    getActiveEntry (state b') = Some (set_rules (fun _ => rules') entry) /\
    paymentSessions b' = paymentSessions b /\
    trace b' = trace b ++ [EvPersist (state b')] /\
    maxPerTransaction rules'
    = default (pt_maxPerTransaction patch) (maxPerTransaction (we_rules entry)) /\
    dailyCap rules' = default (pt_dailyCap patch) (dailyCap (we_rules entry)) /\
    allowedServices rules'
    = default (pt_allowedServices patch) (allowedServices (we_rules entry)) /\
    blockedServices rules'
    = default (pt_blockedServices patch) (blockedServices (we_rules entry)).
Proof.
  intros H.
  exists (patch_rules patch (we_rules entry)),
    (after_mutation (set_rules (patch_rules patch)) b).
  pose proof (getActiveEntry_after_mutation (set_rules (patch_rules patch)) b entry
                (fun _ => eq_refl) H) as Hafter.
  split; [apply setRules_run; assumption | ].
  split.
  { unfold getRules.
    rewrite (bind_ok _ _ _ _ _ (requireActiveEntry_found _ _ Hafter)). reflexivity. }
  split; [exact Hafter | ].
  split; [reflexivity | ].
  split; [reflexivity | ].
  unfold patch_rules.
  destruct patch as [[m | ] [d | ] [a | ] [bl | ]]; cbn; repeat split; reflexivity.
Qed.

Lemma getWallet_none b :
  getActiveEntry (state b) = None -> getWallet b = (Err NoActiveWallet, b).
Proof. intros H. unfold getWallet. apply setter_no_wallet; assumption. Qed.

(** X2. Without an active wallet every operation on the active wallet
    fails with the no-active-wallet error and has no effect at all: the
    setters of rules, freeze flag, label and identity, the three ledger
    operations, the rules check and both payment entry points.  Only
    [getAgentIdentity] and the today-spent read answer, with [null] and
    0.0. *)
Theorem operations_need_an_active_wallet b :
  getActiveEntry (state b) = None ->
  (forall patch, setRules W patch b = (Err NoActiveWallet, b)) /\
  getRules b = (Err NoActiveWallet, b) /\
  freezeWallet W b = (Err NoActiveWallet, b) /\
  unfreezeWallet W b = (Err NoActiveWallet, b) /\
  (forall label, renameWallet W label b = (Err NoActiveWallet, b)) /\
  (forall identity, setAgentIdentity W identity b = (Err NoActiveWallet, b)) /\
  (forall params, addTransaction W params b = (Err NoActiveWallet, b)) /\
  (forall id u, updateTransaction W id u b = (Err NoActiveWallet, b)) /\
  (forall limit, getTransactions limit b = (Err NoActiveWallet, b)) /\
  (forall amount service decimals,
      enforceRules W amount service decimals b = (Err NoActiveWallet, b)) /\
  (forall url options, x402Fetch W url options b = (Err NoActiveWallet, b)) /\
  (forall url options, x402Prepare W url options b = (Err NoActiveWallet, b)) /\
  getAgentIdentity (state b) = None /\
  Api.getTodaySpent W b = (Ok "0.0"%string, b).
Proof.
  intros H.
  repeat (split; intros);
    try (apply setter_no_wallet; assumption);
    try (apply (bind_err _ _ _ _ _ (getWallet_none b H))).
  - unfold getAgentIdentity. rewrite H. reflexivity.
  - unfold Api.getTodaySpent. cbv [bind gets]. rewrite H. reflexivity.
Qed.

Lemma freezeWallet_run b entry :
  getActiveEntry (state b) = Some entry ->
  freezeWallet W b = (written W (calls b) tt, after_mutation (set_frozen true) b).
Proof. apply setter_run. Qed.

Lemma unfreezeWallet_run b entry :
  getActiveEntry (state b) = Some entry ->
  unfreezeWallet W b = (written W (calls b) tt, after_mutation (set_frozen false) b).
Proof. apply setter_run. Qed.

(** X3. Once [freezeWallet] has run on an active wallet, whether or not
    its write succeeded, [x402Fetch] and [x402Prepare] are refused with the
    wallet-frozen error before anything else happens: no request, no
    signature, no write, and this holds in every later state in which the
    active wallet still has the flag. *)
Theorem freezeWallet_blocks_payments url options b entry :
  getActiveEntry (state b) = Some entry ->
  exists frozen b1,
    snd (freezeWallet W b) = b1 /\
    getActiveEntry (state b1) = Some frozen /\
    wi_frozen (we_wallet frozen) = true /\
    trace b1 = trace b ++ [EvPersist (state b1)] /\
    forall b2 entry2,
      getActiveEntry (state b2) = Some entry2 ->
      wi_frozen (we_wallet entry2) = true ->
      x402Fetch W url options b2 = (Err WalletFrozen, b2) /\
      x402Prepare W url options b2 = (Err WalletFrozen, b2).
Proof.
  intros H. exists (set_frozen true entry), (after_mutation (set_frozen true) b).
  split; [rewrite (freezeWallet_run b entry H); reflexivity | ].
  split.
  { apply (getActiveEntry_after_mutation (set_frozen true)); [reflexivity | assumption]. }
  split; [reflexivity | ].
  split; [reflexivity | ].
  intros b2 entry2 H2 Hf. split.
  - unfold x402Fetch. rewrite (bind_ok _ _ _ _ _ (getWallet_found b2 entry2 H2)).
    rewrite Hf. reflexivity.
  - unfold x402Prepare. rewrite (bind_ok _ _ _ _ _ (getWallet_found b2 entry2 H2)).
    rewrite Hf. reflexivity.
Qed.

End Settings.

(* ===================================================================== *)
(** * What the payment flows sign and send *)
(* ===================================================================== *)

Section Signing.

Context {P : Prims} (W : World).

Lemma negotiate_payment url options b r b' :
  negotiate W url options b = (Ok (NegPayment r), b') ->
  state b' = state b /\
  findAcceptedOption (accepts (ng_paymentRequired r)) = Ok (Some (ng_accepted r)) /\
  pr_network (ng_accepted r) = getNetworkCaip2 (state b) /\
  hostname url = Some (ng_service r).
Proof.
  unfold negotiate. rewrite bind_unfold, fetch_run.
  destruct (w_fetch W (calls b) _) as [resp | ]; [ | discriminate].
  destruct (negb (rs_status resp =? 402)); [discriminate | ].
  rewrite bind_unfold.
  match goal with |- context [of_option ?e ?o _] => destruct o as [pq | ] end;
    [ | discriminate].
  cbn [of_option ret]. rewrite bind_unfold.
  destruct (findAcceptedOption (accepts pq)) as [[accepted | ] | e] eqn:Hacc;
    cbv [of_result]; try discriminate.
  rewrite bind_unfold. cbn [of_option ret]. rewrite bind_unfold. cbv [gets].
  cbn [state after_fetch].
  destruct (negb (pr_network accepted =? getNetworkCaip2 (state b))%string) eqn:Hnet;
    [discriminate | ].
  rewrite bind_unfold.
  destruct (hostname url) as [service | ]; [ | discriminate].
  cbn [of_option ret]. rewrite bind_unfold.
  match goal with
  | |- context [enforceRules W ?a ?s 6 ?b0] =>
      pose proof (enforceRules_quiet W a s 6 b0) as (Hst & _);
      destruct (enforceRules W a s 6 b0) as [[[] | e] b1]; [ | discriminate]
  end.
  cbn [snd state after_fetch] in Hst. cbv [ret]. intros H. injection H as <- <-.
  cbn [ng_accepted ng_paymentRequired ng_service].
  apply negb_false_iff, String.eqb_eq in Hnet.
  repeat split; assumption.
Qed.


Lemma respects_ret_bind (R : Broker -> Broker -> Prop) {A B : Type} (a : A) (k : A -> M B) :
  respects R (k a) -> respects R (bind (ret a) k).
Proof. intros H b. exact (H b). Qed.

Lemma respects_throw_bind (R : Broker -> Broker -> Prop) (HR : PreOrder R)
  {A B : Type} (e : Error) (k : A -> M B) :
  respects R (bind (throw e) k).
Proof. intros b. cbn. reflexivity. Qed.

Lemma signTypedData_emits (Q : Event -> Prop) adapter data :
  Q (EvSign (ad_config adapter) data) ->
  respects (emits_only Q) (signTypedData W adapter data).
Proof. intros H. unfold signTypedData. footprint. Qed.

Lemma signPayment_signs_on adapter req :
  respects (emits_only (signs_on (pr_network req) (ad_config adapter)))
    (signPayment W adapter req).
Proof.
  unfold signPayment.
  apply respects_bind; [typeclasses eauto | footprint | intros from].
  destruct (USDC_DOMAIN (pr_network req)) as [domain | ] eqn:Hd; cbn [of_option].
  - apply respects_ret_bind. footprint.
    apply signTypedData_emits. cbn. repeat split; assumption.
  - apply respects_throw_bind. typeclasses eauto.
Qed.

Lemma signs_on_fetch net config rq : signs_on net config (EvFetch rq).
Proof. exact I. Qed.

Lemma signs_on_persist net config doc : signs_on net config (EvPersist doc).
Proof. exact I. Qed.

Lemma createAdapter_config config b adapter b' :
  createAdapter config b = (Ok adapter, b') -> ad_config adapter = config /\ b' = b.
Proof.
  destruct config; cbn; cbv [bind of_option ret throw];
    try (intros H; injection H as <- <-; split; reflexivity).
  destruct (privateKeyToAddress privateKey); [ | discriminate].
  intros H; injection H as <- <-; split; reflexivity.
Qed.

Lemma getAdapter_found b entry :
  getActiveEntry (state b) = Some entry ->
  getAdapter b = createAdapter (we_adapterConfig entry) b.
Proof.
  intros H. unfold getAdapter.
  rewrite (bind_ok _ _ _ _ _ (requireActiveEntry_found b entry H)). reflexivity.
Qed.

Lemma emits_only_weaken (Q Q' : Event -> Prop) b b' :
  (forall ev, Q ev -> Q' ev) -> emits_only Q b b' -> emits_only Q' b b'.
Proof.
  intros HQ (d & Ht & Hd). exists d. split; [assumption | ].
  eapply Forall_impl; [exact HQ | exact Hd].
Qed.

Lemma is_fetch_signs_on net config ev : is_fetch ev -> signs_on net config ev.
Proof. destruct ev; cbn; try discriminate; intros; exact I. Qed.

(** X4. Whatever the upstream server answers, a signature that [x402Fetch]
    asks for is asked of the adapter of the active wallet, for a
    [TransferWithAuthorization] over the USDC domain of the network
    selected in the store; every other effect of the call is a request or
    a write. *)
Theorem x402Fetch_signs_on_the_selected_network url options b entry :
  getActiveEntry (state b) = Some entry ->
  emits_only (signs_on (getNetworkCaip2 (state b)) (we_adapterConfig entry))
    b (snd (x402Fetch W url options b)).
Proof.
  intros H.
  set (Q := signs_on (getNetworkCaip2 (state b)) (we_adapterConfig entry)).
  unfold x402Fetch.
  rewrite (bind_ok _ _ _ _ _ (getWallet_found b entry H)).
  destruct (wi_frozen (we_wallet entry)); [cbn; reflexivity | ].
  rewrite bind_unfold, (getAdapter_found b entry H).
  destruct (createAdapter (we_adapterConfig entry) b) as [[adapter | e] b0] eqn:Ha.
  2: { pose proof (createAdapter_pure (we_adapterConfig entry) b) as Hp.
       rewrite Ha in Hp. cbn in Hp. subst b0. cbn. reflexivity. }
  apply createAdapter_config in Ha as (Hc & ->).
  rewrite bind_unfold.
  pose proof (negotiate_emits W url options b) as Hn.
  apply (emits_only_weaken _ Q) in Hn; [ | apply is_fetch_signs_on].
  destruct (negotiate W url options b) as [[[r | resp] | e] b1] eqn:Hneg;
    cbn [snd] in Hn; [ | exact Hn | exact Hn].
  apply negotiate_payment in Hneg as (_ & _ & Hnet & _).
  etransitivity; [exact Hn | ].
  match goal with |- emits_only _ b1 (snd (?k b1)) => enough (respects (emits_only Q) k) as Hk
  end; [apply Hk | ].
  apply respects_bind; [typeclasses eauto | | intros payload].
  - unfold Q. rewrite <- Hnet, <- Hc. apply signPayment_signs_on.
  - unfold addTransaction, retryWithPayment, updateTransaction.
    assert (forall rq, Q (EvFetch rq)) by (intros; apply signs_on_fetch).
    assert (forall doc, Q (EvPersist doc)) by (intros; apply signs_on_persist).
    footprint.
Qed.


Lemma of_option_inv {A : Type} (e : Error) (o : option A) b a b' :
  of_option e o b = (Ok a, b') -> o = Some a /\ b' = b.
Proof.
  destruct o; cbn; [ | discriminate]. intros H. injection H as <- <-. split; reflexivity.
Qed.

Lemma unix_now_run b :
  unix_now W b =
  (Ok (w_now W (calls b) / 1000),
   mkBroker (state b) (paymentSessions b) (trace b) (S (calls b))).
Proof. reflexivity. Qed.

Lemma randomBytes_run k b :
  randomBytes W k b =
  (Ok (w_randomBytes W (calls b) k),
   mkBroker (state b) (paymentSessions b) (trace b) (S (calls b))).
Proof. reflexivity. Qed.

Lemma signTypedData_ok adapter data b sig b' :
  signTypedData W adapter data b = (Ok sig, b') ->
  w_sign W (calls b) (ad_config adapter) data = Some sig /\
  b' = mkBroker (state b) (paymentSessions b)
         (trace b ++ [EvSign (ad_config adapter) data]) (S (calls b)).
Proof.
  unfold signTypedData. cbv [bind emit tick ret throw of_option].
  cbn [state paymentSessions trace calls].
  destruct (ad_config adapter) eqn:Hc; cbn [can_sign];
    repeat match goal with
           | |- context [if ?c then _ else _] => destruct c
           | |- context [match truthy_string ?o with _ => _ end] =>
               destruct (truthy_string o)
           end;
    try discriminate;
    cbn [state paymentSessions trace calls];
    destruct (w_sign W (calls b) _ data); try discriminate;
    intros H; injection H as <- <-; split; reflexivity.
Qed.

(** X5. [signPayment] is called with an option that [findAcceptedOption]
    returned, whose network is one of the two of the broker, and it adds
    [maxTimeoutSeconds] to the time as JavaScript numbers, which is exact
    on safe integers.  For such a requirement, when the time in seconds,
    [maxTimeoutSeconds] and their sum are safe integers and [signPayment]
    returns, one signature was asked for, of the adapter it was given, and
    the authorization it returns spells out the message that was signed:
    same payer, payee and nonce, the amount of the requirement as text,
    and a validity window that opens at the current time in seconds and
    lasts [maxTimeoutSeconds].  The signature returned is the one the back
    end gave, and the document is untouched. *)
Theorem signPayment_authorization_is_the_signed_message adapter req b payload b' :
  pr_network req = "eip155:8453"%string \/ pr_network req = "eip155:84532"%string ->
  Js.isSafeInteger (w_now W (calls b) / 1000) = true ->
  Js.isSafeInteger (pr_maxTimeoutSeconds req) = true ->
  Js.isSafeInteger (w_now W (calls b) / 1000 + pr_maxTimeoutSeconds req) = true ->
  signPayment W adapter req b = (Ok payload, b') ->
  exists data,
    trace b' = trace b ++ [EvSign (ad_config adapter) data] /\
    w_sign W (S (S (calls b))) (ad_config adapter) data = Some (signature payload) /\
    USDC_DOMAIN (pr_network req) = Some (td_domain data) /\
    td_primaryType data = "TransferWithAuthorization"%string /\
    truthy_string (ad_address adapter) = Some (tm_from (td_message data)) /\
    au_from (authorization payload) = tm_from (td_message data) /\
    au_to (authorization payload) = tm_to (td_message data) /\
    tm_to (td_message data) = pr_payTo req /\
    au_value (authorization payload) = pr_amount req /\
    BigInt (pr_amount req) = Some (tm_value (td_message data)) /\
    tm_validAfter (td_message data) = w_now W (calls b) / 1000 /\
    tm_validBefore (td_message data)
    = tm_validAfter (td_message data) + pr_maxTimeoutSeconds req /\
    au_validAfter (authorization payload)
    = Js.bigint_toString (tm_validAfter (td_message data)) /\
    au_validBefore (authorization payload)
    = Js.bigint_toString (tm_validBefore (td_message data)) /\
    au_nonce (authorization payload) = tm_nonce (td_message data) /\
    tm_nonce (td_message data) = ("0x" ++ w_randomBytes W (S (calls b)) 32)%string /\
    state b' = state b /\ paymentSessions b' = paymentSessions b /\
    Js.isSafeInteger (tm_validBefore (td_message data)) = true /\
    (dm_chainId (td_domain data) = 8453 \/ dm_chainId (td_domain data) = 84532).
Proof.
  unfold signPayment, getAddress. intros Hnet _ _ Hsafe H.
  apply bind_inv in H as (from & b1 & Hfrom & H).
  apply of_option_inv in Hfrom as (Hfrom & ->).
  apply bind_inv in H as (domain & b1 & Hdomain & H).
  apply of_option_inv in Hdomain as (Hdomain & ->).
  rewrite bind_unfold, unix_now_run, bind_unfold, randomBytes_run in H.
  cbn [calls] in H.
  apply bind_inv in H as (value & b1 & Hvalue & H).
  apply of_option_inv in Hvalue as (Hvalue & ->).
  apply bind_inv in H as (sig & b1 & Hsig & H).
  apply signTypedData_ok in Hsig as (Hsig & ->).
  cbv [ret] in H. injection H as <- <-.
  cbn [state paymentSessions trace calls] in *.
  eexists. split; [reflexivity | ].
  cbn. repeat split; try assumption.
  unfold USDC_DOMAIN in Hdomain.
  destruct Hnet as [Hnet | Hnet]; rewrite Hnet in Hdomain; cbn in Hdomain;
    injection Hdomain as <-; [left | right]; reflexivity.
Qed.


(** The request [negotiate] opens with. *)
Lemma negotiate_passthrough url options b resp :
  w_fetch W (calls b)
    (mkRequest url (default (op_method options) "GET"%string)
       (dict_copy (op_headers options)) (op_body options)) = Some resp ->
  rs_status resp <> 402 ->
  negotiate W url options b =
  (Ok (NegPassthrough
         (mkResponse (rs_status resp) (dict_copy (rs_headers resp)) (rs_body resp))),
   after_fetch
     (mkRequest url (default (op_method options) "GET"%string)
        (dict_copy (op_headers options)) (op_body options)) b).
Proof.
  intros Hf Hs. unfold negotiate. rewrite bind_unfold, fetch_run, Hf.
  apply Z.eqb_neq in Hs. rewrite Hs. reflexivity.
Qed.

(** X6. A resource that does not answer 402 costs nothing.  On a wallet
    that is not frozen and whose adapter can be built, [x402Fetch] returns
    the upstream status, headers and body with no payment attached, and
    [x402Prepare] fails with the not-a-402 error; in both cases the one
    effect is the initial request: no signature, no ledger record, no
    session, no write. *)
Theorem free_resource_is_passed_through url options b entry adapter resp :
  getActiveEntry (state b) = Some entry ->
  wi_frozen (we_wallet entry) = false ->
  fst (createAdapter (we_adapterConfig entry) b) = Ok adapter ->
  w_fetch W (calls b)
    (mkRequest url (default (op_method options) "GET"%string)
       (dict_copy (op_headers options)) (op_body options)) = Some resp ->
  rs_status resp <> 402 ->
  x402Fetch W url options b =
  (Ok (mkFetchResult (rs_status resp) (dict_copy (rs_headers resp)) (rs_body resp) None),
   after_fetch
     (mkRequest url (default (op_method options) "GET"%string)
        (dict_copy (op_headers options)) (op_body options)) b) /\
  x402Prepare W url options b =
  (Err (Not402 (rs_status resp)),
   after_fetch
     (mkRequest url (default (op_method options) "GET"%string)
        (dict_copy (op_headers options)) (op_body options)) b).
Proof.
  intros H Hfrozen Ha Hf Hs.
  pose proof (createAdapter_pure (we_adapterConfig entry) b) as Hp.
  destruct (createAdapter (we_adapterConfig entry) b) as [[a | e] b0] eqn:Hc;
    [ | discriminate].
  cbn in Ha, Hp. injection Ha as ->. subst b0.
  split.
  - unfold x402Fetch.
    rewrite (bind_ok _ _ _ _ _ (getWallet_found b entry H)), Hfrozen.
    rewrite bind_unfold, (getAdapter_found b entry H), Hc.
    rewrite bind_unfold, (negotiate_passthrough url options b resp Hf Hs).
    reflexivity.
  - unfold x402Prepare.
    rewrite (bind_ok _ _ _ _ _ (getWallet_found b entry H)), Hfrozen.
    rewrite bind_unfold, (getAdapter_found b entry H), Hc.
    rewrite bind_unfold, (negotiate_passthrough url options b resp Hf Hs).
    reflexivity.
Qed.


Lemma sessions_get_set_same k v m : sessions_get k (sessions_set k v m) = Some v.
Proof.
  induction m as [| [k' v'] m IH]; cbn.
  - rewrite String.eqb_refl. reflexivity.
  - destruct (String.eqb k' k) eqn:E; cbn.
    + rewrite String.eqb_refl. reflexivity.
    + rewrite E. exact IH.
Qed.

Lemma find_snoc_found {A : Type} (p : A -> bool) (l : list A) (r : A) :
  p r = true -> exists x, find p (l ++ [r]) = Some x /\ p x = true.
Proof.
  intros Hr. induction l as [| y l IH]; cbn.
  - rewrite Hr. exists r. split; [reflexivity | assumption].
  - destruct (p y) eqn:Hy; [exists y; split; [reflexivity | assumption] | exact IH].
Qed.

(** What a successful [x402Prepare] leaves behind. *)
Lemma x402Prepare_ok url options b d b1 :
  x402Prepare W url options b = (Ok d, b1) ->
  exists session,
    sessions_get (sd_sessionId d) (paymentSessions b1) = Some session /\
    ps_id session = sd_sessionId d /\
    ps_url session = url /\
    ps_method session = default (op_method options) "GET"%string /\
    ps_headers session = dict_copy (op_headers options) /\
    ps_body session = op_body options /\
    ps_authorization session = sd_message d /\
    findAcceptedOption (accepts (ps_paymentRequired session))
    = Ok (Some (ps_accepted session)) /\
    pr_network (ps_accepted session) = getNetworkCaip2 (state b) /\
    sd_network d = pr_network (ps_accepted session) /\
    USDC_DOMAIN (sd_network d) = Some (sd_domain d) /\
    sd_primaryType d = "TransferWithAuthorization"%string /\
    sd_payTo d = pr_payTo (ps_accepted session) /\
    au_to (sd_message d) = pr_payTo (ps_accepted session) /\
    au_value (sd_message d) = pr_amount (ps_accepted session) /\
    au_validBefore (sd_message d) = Js.bigint_toString (ps_expiresAt session) /\
    (exists tx, active_tx (ps_txRecordId session) (state b1) = Some tx).
Proof.
  unfold x402Prepare. intros H.
  destruct (getActiveEntry (state b)) as [entry | ] eqn:Hact.
  2: { rewrite (bind_err _ _ _ _ _ (getWallet_none b Hact)) in H. discriminate. }
  rewrite (bind_ok _ _ _ _ _ (getWallet_found b entry Hact)) in H.
  destruct (wi_frozen (we_wallet entry)); [discriminate | ].
  rewrite bind_unfold, (getAdapter_found b entry Hact) in H.
  destruct (createAdapter (we_adapterConfig entry) b) as [[adapter | e] b0] eqn:Ha;
    [ | discriminate].
  apply createAdapter_config in Ha as (_ & ->).
  rewrite bind_unfold in H.
  destruct (negotiate W url options b) as [[[r | resp] | e] b2] eqn:Hneg;
    try discriminate.
  apply negotiate_payment in Hneg as (Hst & Hacc & Hnet & _).
  unfold getAddress in H.
  apply bind_inv in H as (from & b3 & Hfrom & H).
  apply of_option_inv in Hfrom as (_ & ->).
  apply bind_inv in H as (domain & b3 & Hdomain & H).
  apply of_option_inv in Hdomain as (Hdomain & ->).
  rewrite bind_unfold, unix_now_run, bind_unfold, randomBytes_run in H.
  cbn [calls] in H.
  apply bind_inv in H as (amount & b3 & Hamount & H).
  apply of_option_inv in Hamount as (_ & ->).
  apply bind_inv in H as (txRecord & b3 & Hadd & H).
  rewrite (addTransaction_run W _ _ entry) in Hadd
    by (cbn [state]; rewrite Hst; exact Hact).
  injection Hadd as Hrec <-.
  destruct (w_writeFile W _); [ | discriminate]. injection Hrec as <-.
  rewrite bind_unfold, randomBytes_run in H.
  cbv [bind set_sessions ret] in H. injection H as <- <-.
  cbn [sd_sessionId sd_message sd_network sd_domain sd_payTo sd_primaryType
       paymentSessions state].
  eexists. split; [apply sessions_get_set_same | ].
  cbn [ps_id ps_url ps_method ps_headers ps_body ps_authorization ps_paymentRequired
       ps_accepted ps_expiresAt ps_txRecordId au_to au_value au_validBefore].
  repeat (split; [solve [reflexivity | assumption] | ]).
  unfold active_tx, after_add. cbn [state].
  erewrite getActiveEntry_mutate;
    [ | reflexivity | rewrite Hst; exact Hact].
  cbn [set_transactions we_transactions].
  match goal with
  | |- context [find (has_id ?i) (?l ++ [?rec])] =>
      destruct (find_snoc_found (has_id i) l rec) as (x & Hx & _)
  end.
  - unfold has_id, added_record. cbn [tx_id]. apply String.eqb_refl.
  - exists x. exact Hx.
Qed.

(** X7. The authorization that [x402Complete] sends is the message that
    [x402Prepare] returned for signing.  A successful [x402Prepare] stores
    a session under the id it returns; the session keeps the request, the
    accepted option (on the selected network) and that message, and it
    expires at the message's [validBefore].  Completing it before then
    removes the session and retries the original request with the
    caller's signature over exactly that message. *)
Theorem x402Complete_sends_what_x402Prepare_showed url options b d b1 sig :
  x402Prepare W url options b = (Ok d, b1) ->
  exists session,
    sessions_get (sd_sessionId d) (paymentSessions b1) = Some session /\
    ps_url session = url /\
    ps_authorization session = sd_message d /\
    pr_network (ps_accepted session) = getNetworkCaip2 (state b) /\
    sd_network d = pr_network (ps_accepted session) /\
    USDC_DOMAIN (sd_network d) = Some (sd_domain d) /\
    au_to (sd_message d) = pr_payTo (ps_accepted session) /\
    au_value (sd_message d) = pr_amount (ps_accepted session) /\
    au_validBefore (sd_message d) = Js.bigint_toString (ps_expiresAt session) /\
    (exists tx, active_tx (ps_txRecordId session) (state b1) = Some tx) /\
    ((w_now W (calls b1) / 1000 >? ps_expiresAt session) = false ->
     x402Complete W (sd_sessionId d) sig b1 =
     retryWithPayment W url (Some (default (op_method options) "GET"%string))
       (dict_copy (op_headers options)) (op_body options)
       (ps_paymentRequired session) (ps_accepted session)
       (mkPayload sig (sd_message d)) (ps_txRecordId session)
       (session_removed (sd_sessionId d) b1)).
Proof.
  intros H.
  destruct (x402Prepare_ok url options b d b1 H)
    as (session & Hget & _ & Hurl & Hm & Hh & Hb & Hau & _ & Hnet & Hsd & Hdom & _ & _
        & Hto & Hval & Hvb & Htx).
  exists session. repeat (split; [assumption | ]).
  intros Hlive.
  rewrite (x402Complete_live W _ sig b1 session Hget Hlive).
  rewrite Hurl, Hm, Hh, Hb, Hau. reflexivity.
Qed.


Lemma retryWithPayment_run url method hdrs body pq accepted payload id b :
  retryWithPayment W url method hdrs body pq accepted payload id b =
  match w_fetch W (calls b)
          (retry_request (state b) url method hdrs body pq accepted payload) with
  | None =>
      (Err UpstreamError,
       after_fetch (retry_request (state b) url method hdrs body pq accepted payload) b)
  | Some resp =>
      match updateTransaction W id (retry_update resp)
              (after_fetch (retry_request (state b) url method hdrs body pq accepted payload)
                 b) with
      | (Ok _, b') =>
          (match BigInt (pr_amount accepted) with
           | Some amount =>
               Ok (mkFetchResult (rs_status resp) (dict_copy (rs_headers resp))
                     (rs_body resp)
                     (Some (mkPaymentInfo (extract_txHash (rs_headers resp))
                              (Viem.formatUnits amount 6) (pr_payTo accepted))))
           | None => Err (InvalidInput "BigInt")
           end, b')
      | (Err e, b') => (Err e, b')
      end
  end.
Proof.
  unfold retryWithPayment. rewrite bind_unfold. cbv [gets].
  rewrite bind_unfold, fetch_run.
  destruct (w_fetch W (calls b) _) as [resp | ]; [ | reflexivity].
  rewrite bind_unfold.
  destruct (updateTransaction W id (retry_update resp) _) as [[t | e] b']; [ | reflexivity].
  cbv [bind of_option ret throw].
  destruct (BigInt (pr_amount accepted)); reflexivity.
Qed.

Lemma updateTransaction_no_wallet id u b :
  getActiveEntry (state b) = None -> updateTransaction W id u b = (Err NoActiveWallet, b).
Proof. intros H. unfold updateTransaction. apply setter_no_wallet. exact H. Qed.

Lemma active_tx_none id st :
  active_tx id st = None ->
  getActiveEntry st = None \/
  exists entry, getActiveEntry st = Some entry /\
                find (has_id id) (we_transactions entry) = None.
Proof.
  unfold active_tx. destruct (getActiveEntry st) as [entry | ]; [ | left; reflexivity].
  intros H. right. exists entry. split; [reflexivity | assumption].
Qed.

(** X8. [x402Complete] looks the ledger record of a session up in the
    wallet that is active when it runs.  When that wallet has no record
    with the session's id (the active wallet was switched or removed after
    [x402Prepare]) or there is no active wallet, completing a live session
    still consumes the session and issues the paid retry request; the call
    then fails with the transaction-not-found (or no-active-wallet) error,
    and no ledger is changed and nothing is written. *)
Theorem x402Complete_without_its_ledger_record k sig b session resp :
  sessions_get k (paymentSessions b) = Some session ->
  (w_now W (calls b) / 1000 >? ps_expiresAt session) = false ->
  active_tx (ps_txRecordId session) (state b) = None ->
  w_fetch W (S (calls b))
    (retry_request (state b) (ps_url session) (Some (ps_method session))
       (ps_headers session) (ps_body session) (ps_paymentRequired session)
       (ps_accepted session) (mkPayload sig (ps_authorization session))) = Some resp ->
  exists e,
    x402Complete W k sig b =
    (Err e,
     after_fetch
       (retry_request (state b) (ps_url session) (Some (ps_method session))
          (ps_headers session) (ps_body session) (ps_paymentRequired session)
          (ps_accepted session) (mkPayload sig (ps_authorization session)))
       (session_removed k b)) /\
    (e = TxNotFound (ps_txRecordId session) \/ e = NoActiveWallet) /\
    state (snd (x402Complete W k sig b)) = state b /\
    sessions_get k (paymentSessions (snd (x402Complete W k sig b))) = None.
Proof.
  intros Hget Hlive Htx Hf.
  rewrite (x402Complete_live W k sig b session Hget Hlive), retryWithPayment_run.
  cbn [session_removed state calls]. rewrite Hf.
  apply active_tx_none in Htx as [Hnone | (entry & Hact & Hfind)].
  - match goal with
    | |- context [updateTransaction W ?i ?u ?b0] =>
        rewrite (updateTransaction_no_wallet i u b0 Hnone)
    end.
    eexists. split; [reflexivity | ]. split; [right; reflexivity | ].
    cbn. split; [reflexivity | apply sessions_get_delete_same].
  - match goal with
    | |- context [updateTransaction W ?i ?u ?b0] =>
        rewrite (updateTransaction_missing W i u b0 entry Hact Hfind)
    end.
    eexists. split; [reflexivity | ]. split; [left; reflexivity | ].
    cbn. split; [reflexivity | apply sessions_get_delete_same].
Qed.


(** X9. [x402Complete] does not consult the freeze flag.  On a wallet that
    is frozen, completing a live session whose record is in the ledger
    issues the paid retry request, and a 2xx answer settles the record; the
    wallet is still frozen afterwards.  Only [x402Fetch] and [x402Prepare]
    are stopped by a freeze. *)
Theorem x402Complete_does_not_consult_the_freeze k sig b session entry tx resp :
  getActiveEntry (state b) = Some entry ->
  wi_frozen (we_wallet entry) = true ->
  sessions_get k (paymentSessions b) = Some session ->
  (w_now W (calls b) / 1000 >? ps_expiresAt session) = false ->
  active_tx (ps_txRecordId session) (state b) = Some tx ->
  w_fetch W (S (calls b))
    (retry_request (state b) (ps_url session) (Some (ps_method session))
       (ps_headers session) (ps_body session) (ps_paymentRequired session)
       (ps_accepted session) (mkPayload sig (ps_authorization session))) = Some resp ->
  rs_ok resp = true ->
  exists entry' tx',
    trace (snd (x402Complete W k sig b)) =
    trace b
    ++ [EvFetch
          (retry_request (state b) (ps_url session) (Some (ps_method session))
             (ps_headers session) (ps_body session) (ps_paymentRequired session)
             (ps_accepted session) (mkPayload sig (ps_authorization session)));
        EvPersist (state (snd (x402Complete W k sig b)))] /\
    getActiveEntry (state (snd (x402Complete W k sig b))) = Some entry' /\
    wi_frozen (we_wallet entry') = true /\
    active_tx (ps_txRecordId session) (state (snd (x402Complete W k sig b))) = Some tx' /\
    tx_status tx' = settled /\
    fst (x402Complete W k sig b) <> Err WalletFrozen.
Proof.
  intros Hact Hfrozen Hget Hlive Htx Hf Hok.
  rewrite (x402Complete_live W k sig b session Hget Hlive), retryWithPayment_run.
  cbn [session_removed state calls]. rewrite Hf.
  destruct (active_tx_found _ _ _ Htx) as (entry0 & Hact0 & Hfind).
  rewrite Hact in Hact0. injection Hact0 as <-.
  match goal with
  | |- context [updateTransaction W ?i ?u ?b0] =>
      rewrite (updateTransaction_run W i u b0 entry tx Hact Hfind)
  end.
  exists (set_transactions
            (update_first (has_id (ps_txRecordId session)) (apply_update (retry_update resp)))
            entry),
    (apply_update (retry_update resp) tx).
  assert (Hsettled : tx_status (apply_update (retry_update resp) tx) = settled)
    by (unfold retry_update; rewrite Hok; reflexivity).
  destruct (w_writeFile W _);
    unfold after_update, after_fetch, session_removed;
    cbn [state paymentSessions trace calls fst snd];
    (split; [rewrite <- app_assoc; reflexivity | ]);
    (split; [unfold marked; apply getActiveEntry_mutate; [reflexivity | assumption] | ]);
    (split; [exact Hfrozen | ]);
    (split; [apply active_tx_marked; assumption | ]);
    (split; [exact Hsettled | ]).
  - destruct (BigInt (pr_amount (ps_accepted session))); discriminate.
  - discriminate.
Qed.

End Signing.

(* ===================================================================== *)
(** * The ledger is an audit trail *)
(* ===================================================================== *)

Lemma Forall2_same {A : Type} (R : A -> A -> Prop) (l : list A) :
  (forall x, R x x) -> Forall2 R l l.
Proof. intros H. induction l; constructor; auto. Qed.

Lemma Forall2_trans {A : Type} (R : A -> A -> Prop) :
  (forall x y z, R x y -> R y z -> R x z) ->
  forall l1 l2 l3, Forall2 R l1 l2 -> Forall2 R l2 l3 -> Forall2 R l1 l3.
Proof.
  intros HR l1 l2 l3 H12. revert l3.
  induction H12; intros l3 H23; inversion H23; subst; constructor; eauto.
Qed.

Lemma same_payment_refl tx : same_payment tx tx.
Proof. repeat split. Qed.

Lemma same_payment_trans x y z : same_payment x y -> same_payment y z -> same_payment x z.
Proof.
  unfold same_payment. intros (? & ? & ? & ? & ? & ? & ?) (? & ? & ? & ? & ? & ? & ?).
  repeat split; congruence.
Qed.

Lemma ledger_extends_refl txs : ledger_extends txs txs.
Proof.
  exists txs, []. split; [symmetry; apply app_nil_r | ].
  apply Forall2_same, same_payment_refl.
Qed.

Lemma ledger_extends_trans x y z :
  ledger_extends x y -> ledger_extends y z -> ledger_extends x z.
Proof.
  intros (k1 & a1 & -> & H1) (k2 & a2 & -> & H2).
  apply Forall2_app_inv_l in H2 as (k2a & k2b & Ha & Hb & ->).
  exists k2a, (k2b ++ a2). split; [symmetry; apply app_assoc | ].
  eapply Forall2_trans; [exact same_payment_trans | exact H1 | exact Ha].
Qed.

Lemma wallet_extends_refl w : wallet_extends w w.
Proof. repeat split. apply ledger_extends_refl. Qed.

Lemma wallet_extends_trans x y z :
  wallet_extends x y -> wallet_extends y z -> wallet_extends x z.
Proof.
  unfold wallet_extends.
  intros (? & ? & ? & ? & ? & ? & Hl1) (? & ? & ? & ? & ? & ? & Hl2).
  repeat split; try congruence. eapply ledger_extends_trans; eassumption.
Qed.

#[export] Instance audit_trail_kept_preorder : PreOrder audit_trail_kept.
Proof.
  split.
  - intros b. repeat split. apply Forall2_same, wallet_extends_refl.
  - intros x y z (? & ? & Hw1) (? & ? & Hw2). repeat split; try congruence.
    eapply Forall2_trans; [exact wallet_extends_trans | exact Hw1 | exact Hw2].
Qed.

Lemma lift_audit_trail {A : Type} (m : M A) :
  respects readonly m -> respects audit_trail_kept m.
Proof.
  intros H b. destruct (H b) as (Hst & _). unfold audit_trail_kept. rewrite Hst.
  repeat split. apply Forall2_same, wallet_extends_refl.
Qed.

Lemma set_sessions_audit_trail f : respects audit_trail_kept (set_sessions f).
Proof. intros b. repeat split. apply Forall2_same, wallet_extends_refl. Qed.

Lemma update_first_related {A : Type} (R : A -> A -> Prop) (p : A -> bool) (f : A -> A)
  (l : list A) :
  (forall x, R x x) -> (forall x, R x (f x)) -> Forall2 R l (update_first p f l).
Proof.
  intros Hrefl Hf. induction l as [| x l IH]; cbn; [constructor | ].
  destruct (p x); constructor; auto. apply Forall2_same, Hrefl.
Qed.

(** A change of the ledger of the active wallet that extends it. *)
Lemma set_transactions_audit_trail f :
  (forall txs, ledger_extends txs (f txs)) ->
  respects audit_trail_kept (set_state (mutate_active (set_transactions f))).
Proof.
  intros Hf b. unfold audit_trail_kept, mutate_active. cbn [set_state snd state].
  destruct (activeWalletId (state b)) as [id | ] eqn:Hid; cbn [wallets activeWalletId network].
  - repeat split; try assumption.
    apply update_first_related; [apply wallet_extends_refl | ].
    intros w. repeat split. apply Hf.
  - repeat split; try assumption. apply Forall2_same, wallet_extends_refl.
Qed.

Lemma append_extends record txs : ledger_extends txs (txs ++ [record]).
Proof. exists txs, [record]. split; [reflexivity | apply Forall2_same, same_payment_refl]. Qed.

Lemma update_extends id u txs :
  ledger_extends txs (update_first (has_id id) (apply_update u) txs).
Proof.
  exists (update_first (has_id id) (apply_update u) txs), [].
  split; [symmetry; apply app_nil_r | ].
  apply update_first_related; [apply same_payment_refl | ].
  intros tx. repeat split.
Qed.

#[export] Hint Resolve lift_audit_trail | 6 : frames.
#[export] Hint Resolve set_sessions_audit_trail : frames.

Lemma addTransaction_audit_trail {P : Prims} (W : World) params :
  respects audit_trail_kept (addTransaction W params).
Proof.
  unfold addTransaction. footprint.
  apply set_transactions_audit_trail. intros txs. apply append_extends.
Qed.

Lemma updateTransaction_audit_trail (W : World) id u :
  respects audit_trail_kept (updateTransaction W id u).
Proof.
  unfold updateTransaction. footprint.
  apply set_transactions_audit_trail. intros txs. apply update_extends.
Qed.

#[export] Hint Resolve addTransaction_audit_trail updateTransaction_audit_trail : frames.

Lemma sweep_audit_trail (W : World) now entries :
  respects audit_trail_kept (sweep W now entries).
Proof.
  induction entries as [| [id session] rest IH]; cbn [sweep]; footprint.
Qed.

Section AuditTrail.

Context {P : Prims} (W : World).

Lemma x402Fetch_audit_trail url options :
  respects audit_trail_kept (x402Fetch W url options).
Proof. unfold x402Fetch, signPayment, signTypedData, retryWithPayment. footprint. Qed.

Lemma x402Prepare_audit_trail url options :
  respects audit_trail_kept (x402Prepare W url options).
Proof. unfold x402Prepare. footprint. Qed.

Lemma x402Complete_audit_trail sessionId sig :
  respects audit_trail_kept (x402Complete W sessionId sig).
Proof. unfold x402Complete, retryWithPayment. footprint. Qed.

Lemma cleanupSessions_audit_trail : respects audit_trail_kept (cleanupSessions W).
Proof.
  assert (Hsweep : forall now entries, respects audit_trail_kept (sweep W now entries))
    by (intros; apply sweep_audit_trail).
  unfold cleanupSessions. footprint.
Qed.

(** X10. The payment flows treat the ledger as an audit trail.  Whatever
    the upstream server, the signer and the file system do, [x402Fetch],
    [x402Prepare], [x402Complete] and the session sweeper leave every
    wallet's identity, label, address, freeze flag, adapter configuration,
    rules and agent identity as they were, keep the list and order of the
    wallets, the active wallet and the network, and change ledgers only by
    appending records and by rewriting the outcome (status, hash, reason)
    of existing ones: the id, time stamp, payee, service, amount, asset and
    network of a record never change, and no record is removed. *)
Theorem payment_flows_keep_the_audit_trail url options sessionId sig :
  respects audit_trail_kept (x402Fetch W url options) /\
  respects audit_trail_kept (x402Prepare W url options) /\
  respects audit_trail_kept (x402Complete W sessionId sig) /\
  respects audit_trail_kept (cleanupSessions W).
Proof.
  split; [apply x402Fetch_audit_trail | ].
  split; [apply x402Prepare_audit_trail | ].
  split; [apply x402Complete_audit_trail | apply cleanupSessions_audit_trail].
Qed.

End AuditTrail.

(* ===================================================================== *)
(** * More on the rules engine *)
(* ===================================================================== *)

Section Limits.

Context {P : Prims} (W : World).

(** X11. The per-transaction limit is checked first and alone decides:
    an amount above it is rejected with the over-per-transaction error
    whatever the daily cap, the ledger and the two service lists are (even
    when the service is blocked or the cap cannot be parsed), without
    reading the clock or changing anything. *)
Theorem per_transaction_limit_is_checked_first
  amountText service decimals b entry limit max amount :
  getActiveEntry (state b) = Some entry ->
  maxPerTransaction (we_rules entry) = Some limit ->
  parseUnits limit decimals = Some max ->
  BigInt amountText = Some amount ->
  max < amount ->
  enforceRules W amountText service decimals b =
  (Err (RuleViolation OverPerTx (over_per_tx_message amount limit decimals)), b).
Proof.
  intros H Hl Hm Ha Hlt. unfold enforceRules.
  rewrite (bind_ok _ _ _ _ _ (requireActiveEntry_found b entry H)).
  cbv [bind of_option ret throw]. rewrite Ha, Hl, Hm.
  apply Z.gtb_lt in Hlt. rewrite Hlt. reflexivity.
Qed.

(** X12. The allowlist, for a payment that the two limits allow and the
    blocklist does not match: an empty allowlist admits every service; a
    list with entries admits the services that one of its patterns
    matches, and every other service is rejected with the not-allowed
    error. *)
Theorem allowlist_admits_matching_services_only amountText service b entry amount :
  getActiveEntry (state b) = Some entry ->
  BigInt amountText = Some amount ->
  per_tx_allows (we_rules entry) amount 6 ->
  daily_allows W b entry amount 6 ->
  matches_any (blockedServices (we_rules entry)) service = false ->
  (fst (enforceRules W amountText service 6 b) = Ok tt <->
   allowedServices (we_rules entry) = [] \/
   matches_any (allowedServices (we_rules entry)) service = true) /\
  (fst (enforceRules W amountText service 6 b) <> Ok tt ->
   fst (enforceRules W amountText service 6 b) =
   Err (RuleViolation NotAllowed (not_allowed_message (we_rules entry) service))).
Proof.
  intros H Ha Hp Hd Hb.
  rewrite (enforceRules_caps_pass W amountText service 6 b entry amount H Ha Hp Hd), Hb.
  destruct (allowedServices (we_rules entry)) as [| p ps] eqn:Hl; cbn [List.length Nat.ltb].
  - split; [ | intros C; contradiction C; reflexivity].
    split; [left; reflexivity | reflexivity].
  - change (0 <? S (List.length ps))%nat with true. cbv iota.
    destruct (matches_any (p :: ps) service).
    + split; [ | intros C; contradiction C; reflexivity].
      split; [right; reflexivity | reflexivity].
    + split; [ | reflexivity].
      split; [discriminate | intros [C | C]; discriminate].
Qed.

End Limits.

(** ** Service patterns *)

Lemma startsWith_spec p s :
  Js.startsWith p s = true <-> exists post, s = (p ++ post)%string.
Proof.
  revert s. induction p as [| a p IH]; intros s; cbn.
  - split; [intros _; exists s; reflexivity | reflexivity].
  - destruct s as [| c s]; [split; [discriminate | intros (post & C); discriminate] | ].
    destruct (Ascii.eqb a c) eqn:E.
    + apply Ascii.eqb_eq in E. subst c. rewrite IH. split.
      * intros (post & ->). exists post. reflexivity.
      * intros (post & C). injection C as ->. exists post. reflexivity.
    + split; [discriminate | ]. intros (post & C). injection C as -> _.
      rewrite Ascii.eqb_refl in E. discriminate.
Qed.

Lemma includes_spec sub s :
  Js.includes sub s = true <-> exists pre post, s = (pre ++ sub ++ post)%string.
Proof.
  induction s as [| c s IH]; cbn.
  - destruct (Js.startsWith sub EmptyString) eqn:E.
    + apply startsWith_spec in E as (post & E). split; [ | reflexivity].
      intros _. exists EmptyString, post. exact E.
    + split; [discriminate | ]. intros (pre & post & C).
      destruct pre; [ | discriminate]. cbn in C.
      assert (Js.startsWith sub EmptyString = true)
        by (apply startsWith_spec; exists post; exact C).
      congruence.
  - destruct (Js.startsWith sub (String c s)) eqn:E.
    + apply startsWith_spec in E as (post & E). split; [ | reflexivity].
      intros _. exists EmptyString, post. exact E.
    + rewrite IH. split.
      * intros (pre & post & ->). exists (String c pre), post. reflexivity.
      * intros (pre & post & C). destruct pre as [| c' pre].
        -- cbn in C.
           assert (Js.startsWith sub (String c s) = true)
             by (apply startsWith_spec; exists post; exact C).
           congruence.
        -- injection C as -> ->. exists pre, post. reflexivity.
Qed.

Lemma asciiLowerCase_app a b :
  Js.asciiLowerCase (a ++ b) = (Js.asciiLowerCase a ++ Js.asciiLowerCase b)%string.
Proof. induction a as [| c a IH]; cbn; [reflexivity | rewrite IH; reflexivity]. Qed.

Lemma isAscii_app a b :
  Js.isAscii (a ++ b) = andb (Js.isAscii a) (Js.isAscii b).
Proof.
  induction a as [| c a IH]; cbn; [reflexivity | ].
  rewrite IH. apply andb_assoc.
Qed.

Section Patterns.

Context {P : Prims}.

Lemma matches_any_spec patterns service :
  matches_any patterns service = true <->
  exists pattern pre post,
    In pattern patterns /\
    toLowerCase service = (pre ++ toLowerCase pattern ++ post)%string.
Proof.
  unfold matches_any. rewrite existsb_exists. split.
  - intros (p & Hin & Hinc). apply includes_spec in Hinc as (pre & post & E).
    exists p, pre, post. split; assumption.
  - intros (p & pre & post & Hin & E). exists p. split; [assumption | ].
    apply includes_spec. exists pre, post. exact E.
Qed.

(** X13. The entries of the two service lists are substring patterns,
    compared after [toLowerCase]: a service matches a list exactly when its
    lower-cased name contains the lower-cased text of one of the entries.
    On ASCII text, where [toLowerCase] lowers the letters A to Z and
    nothing else, this is containment without regard to the case of the
    letters, so an entry matches every ASCII name that contains it.  An
    empty entry matches every service. *)
Theorem service_patterns_match_as_substrings patterns service :
  (matches_any patterns service = true <->
   exists pattern pre post,
     In pattern patterns /\
     toLowerCase service = (pre ++ toLowerCase pattern ++ post)%string) /\
  (Js.isAscii service = true ->
   Forall (fun pattern => Js.isAscii pattern = true) patterns ->
   (matches_any patterns service = true <->
    exists pattern pre post,
      In pattern patterns /\
      Js.asciiLowerCase service
      = (pre ++ Js.asciiLowerCase pattern ++ post)%string)) /\
  (Js.isAscii service = true ->
   forall pattern pre post,
     In pattern patterns -> service = (pre ++ pattern ++ post)%string ->
     matches_any patterns service = true) /\
  (In EmptyString patterns -> matches_any patterns service = true).
Proof.
  split; [apply matches_any_spec | split; [ | split]].
  - intros Hs Hall. rewrite matches_any_spec, (toLowerCase_ascii service Hs).
    rewrite Forall_forall in Hall.
    split; intros (p & pre & post & Hin & E); exists p, pre, post;
      (split; [assumption | ]).
    + rewrite <- (toLowerCase_ascii p (Hall p Hin)). exact E.
    + rewrite (toLowerCase_ascii p (Hall p Hin)). exact E.
  - intros Hs p pre post Hin E. apply matches_any_spec.
    assert (Hp : Js.isAscii p = true).
    { rewrite E, !isAscii_app in Hs.
      apply andb_true_iff in Hs as (_ & Hs). apply andb_true_iff in Hs as (Hs & _).
      exact Hs. }
    exists p, (Js.asciiLowerCase pre), (Js.asciiLowerCase post). split; [assumption | ].
    rewrite (toLowerCase_ascii service Hs), (toLowerCase_ascii p Hp), E.
    rewrite !asciiLowerCase_app. reflexivity.
  - intros Hin. apply matches_any_spec.
    exists EmptyString, EmptyString, (toLowerCase service). split; [assumption | ].
    rewrite (toLowerCase_ascii EmptyString eq_refl). reflexivity.
Qed.

End Patterns.

Section Allowance.

Context {P : Prims} (W : World).

Lemma sumSettledOn_uncounted today txs total :
  Forall (fun tx => tx_status tx <> settled \/
                    Js.startsWith today (tx_timestamp tx) = false) txs ->
  sumSettledOn today txs total = Some total.
Proof.
  induction 1 as [| tx txs Htx _ IH]; cbn; [reflexivity | ].
  destruct Htx as [Hs | Hd].
  - destruct (tx_status tx); try (cbn; exact IH). contradiction Hs; reflexivity.
  - rewrite Hd, andb_false_r. exact IH.
Qed.

(** X14. The daily cap counts settled payments of the current day only.
    When every record of the active wallet is pending or failed, or dated
    another day, nothing has been spent: a payment of any amount up to the
    whole cap passes the daily check, and is permitted when the
    per-transaction limit and the lists allow it. *)
Theorem pending_and_failed_payments_do_not_count
  amountText service b entry capText cap amount :
  getActiveEntry (state b) = Some entry ->
  Forall (fun tx => tx_status tx <> settled \/
                    Js.startsWith (today_at W (calls b)) (tx_timestamp tx) = false)
    (we_transactions entry) ->
  dailyCap (we_rules entry) = Some capText ->
  parseUnits capText 6 = Some cap ->
  BigInt amountText = Some amount ->
  amount <= cap ->
  per_tx_allows (we_rules entry) amount 6 ->
  lists_allow (we_rules entry) service ->
  sumSettledOn (today_at W (calls b)) (we_transactions entry) 0 = Some 0 /\
  fst (enforceRules W amountText service 6 b) = Ok tt.
Proof.
  intros H Hall Hd Hc Ha Hle Hp Hl.
  pose proof (sumSettledOn_uncounted _ _ 0 Hall) as Hsum.
  split; [exact Hsum | ].
  rewrite (enforceRules_caps_pass W amountText service 6 b entry amount H Ha Hp).
  - apply lists_allow_verdict. exact Hl.
  - unfold daily_allows. rewrite Hd. exists cap, 0. repeat split; assumption.
Qed.

End Allowance.

(* ===================================================================== *)
(** * Amounts in messages and in the HTTP binding *)
(* ===================================================================== *)

Section Amounts.

Import Js.

Lemma length_digits_bound k r :
  0 <= r < 10 ^ Z.of_nat (S k) -> (String.length (digits r) <= S k)%nat.
Proof.
  intros Hr. pose proof (length_zero_padded k r Hr) as H.
  unfold zero_padded, padStart0 in H. rewrite length_append, length_zeros in H. lia.
Qed.

(** The text [value.toString().padStart(decimals + 1, "0")], cut
    [decimals] characters before its end. *)
Lemma padded_cut k value :
  0 <= value ->
  take (String.length (padStart0 (S k + 1) (bigint_toString value)) - S k)
    (padStart0 (S k + 1) (bigint_toString value))
  = digits (value / 10 ^ Z.of_nat (S k)) /\
  drop (String.length (padStart0 (S k + 1) (bigint_toString value)) - S k)
    (padStart0 (S k + 1) (bigint_toString value))
  = zero_padded (S k) (value mod 10 ^ Z.of_nat (S k)).
Proof.
  intros Hv. unfold bigint_toString.
  assert ((value <? 0) = false) as -> by lia.
  assert (Hp : 0 < 10 ^ Z.of_nat (S k)) by (apply Z.pow_pos_nonneg; lia).
  destruct (Z_lt_le_dec value (10 ^ Z.of_nat (S k))) as [Hs | Hb].
  - pose proof (length_digits_bound k value (conj Hv Hs)) as Hlen.
    assert (E : padStart0 (S k + 1) (digits value)
                = String "0" (zero_padded (S k) value)).
    { unfold zero_padded, padStart0.
      replace (S k + 1 - String.length (digits value))%nat
        with (S (S k - String.length (digits value))) by lia.
      reflexivity. }
    rewrite E. cbn [String.length]. rewrite length_zero_padded by lia.
    replace (S (S k) - S k)%nat with 1%nat by lia. cbn [take drop].
    rewrite Z.div_small, Z.mod_small by lia.
    rewrite (digits_small 0) by lia. rewrite digit_char_zero.
    split; reflexivity.
  - pose proof (Z.mod_pos_bound value _ Hp) as Hr.
    unfold padStart0. rewrite (digits_split k value Hb).
    set (q := digits (value / 10 ^ Z.of_nat (S k))).
    set (f := zero_padded (S k) (value mod 10 ^ Z.of_nat (S k))).
    assert (Hf : String.length f = S k) by (apply length_zero_padded; assumption).
    assert (Hq : q <> EmptyString) by (apply digits_nonempty, Z.div_pos; lia).
    assert (Hlen : String.length (q ++ f) = (String.length q + S k)%nat)
      by (rewrite length_append, Hf; reflexivity).
    rewrite Hlen.
    assert (0 < String.length q)%nat by (destruct q; [contradiction | cbn; lia]).
    replace (S k + 1 - (String.length q + S k))%nat with 0%nat by lia.
    cbn [zeros]. rewrite append_nil_l, Hlen.
    replace (String.length q + S k - S k)%nat with (String.length q) by lia.
    rewrite take_append, drop_append. split; reflexivity.
Qed.

(** X15. The amounts in the messages of the rules engine are written by
    [formatAtomic] in full: for a value that is not negative, the digits
    of the integer part, a point, and all the [decimals] digits of the
    fraction, trailing zeros included (0.010000 for 10000 with 6
    decimals, 0.000000 for 0). *)
Theorem formatAtomic_writes_every_fraction_digit k value :
  0 <= value ->
  formatAtomic value (S k) =
  (digits (value / 10 ^ Z.of_nat (S k)) ++ "."
   ++ zero_padded (S k) (value mod 10 ^ Z.of_nat (S k)))%string /\
  String.length (zero_padded (S k) (value mod 10 ^ Z.of_nat (S k))) = S k.
Proof.
  intros Hv.
  assert (Hp : 0 < 10 ^ Z.of_nat (S k)) by (apply Z.pow_pos_nonneg; lia).
  split; [ | apply length_zero_padded, Z.mod_pos_bound; assumption].
  unfold formatAtomic. destruct (padded_cut k value Hv) as (-> & ->).
  rewrite orElse_nonempty by (apply digits_nonempty, Z.div_pos; lia).
  reflexivity.
Qed.

Lemma spent_text_nonneg total :
  0 <= total ->
  Api.spent_text total =
  (digits (total / 1000000) ++ "."
   ++ orElse (trimZeros (zero_padded 6 (total mod 1000000))) "0")%string.
Proof.
  intros Ht. unfold Api.spent_text.
  destruct (padded_cut 5 total Ht) as (Hw & Hf).
  change (6 + 1)%nat with 7%nat in Hw, Hf.
  change (10 ^ Z.of_nat 6) with 1000000 in Hw, Hf.
  rewrite Hw, Hf.
  rewrite orElse_nonempty by (apply digits_nonempty, Z.div_pos; lia).
  reflexivity.
Qed.

End Amounts.

Section TodaySpent.

Context {P : Prims} (W : World).

(** X16. The today-spent figure of the HTTP binding is the sum that the
    daily-cap check compares with the cap, the settled records of the
    active wallet dated the current day, and reading it changes nothing.
    It is written with the digits of the integer part, a point, and the
    six fraction digits without their trailing zeros but with at least one
    digit: 0.0 when nothing was spent, 0.09 for 90000 atomic units. *)
Theorem today_spent_is_the_sum_of_the_daily_check b entry spent :
  getActiveEntry (state b) = Some entry ->
  sumSettledOn (today_at W (calls b)) (we_transactions entry) 0 = Some spent ->
  0 <= spent ->
  fst (Api.getTodaySpent W b) =
  Ok (Js.digits (spent / 1000000) ++ "."
      ++ Js.orElse (Js.trimZeros (Js.zero_padded 6 (spent mod 1000000))) "0")%string /\
  fst (getTodaySpent W (we_transactions entry) b) = Ok spent /\
  state (snd (Api.getTodaySpent W b)) = state b /\
  trace (snd (Api.getTodaySpent W b)) = trace b /\
  Api.spent_text 0 = "0.0"%string /\ Api.spent_text 90000 = "0.09"%string.
Proof.
  intros H Hsum Hs.
  unfold Api.getTodaySpent, getTodaySpent.
  cbv [bind gets Date_now tick ret]. rewrite H.
  cbn [state paymentSessions trace calls].
  unfold today_at in Hsum. rewrite Hsum. cbn [of_option ret fst snd state trace].
  rewrite (spent_text_nonneg spent Hs).
  repeat split; reflexivity.
Qed.

End TodaySpent.

(* ===================================================================== *)
(** * Migration and start-up *)
(* ===================================================================== *)

Lemma migrateIfNeeded_v2 fresh doc :
  Json.isArray (Json.prop "wallets" doc) = true -> Store.migrateIfNeeded fresh doc = Some doc.
Proof.
  intros H. unfold Store.migrateIfNeeded.
  destruct doc; try (rewrite H; reflexivity). discriminate.
Qed.

Lemma migrateIfNeeded_shape fresh raw doc :
  Store.migrateIfNeeded fresh raw = Some doc ->
  Json.isArray (Json.prop "wallets" doc) = true.
Proof.
  unfold Store.migrateIfNeeded. intros H.
  destruct raw; try discriminate;
    destruct (Json.isArray (Json.prop "wallets" _)) eqn:E;
    injection H as <-; solve [exact E | reflexivity].
Qed.

(** X17. Migration is idempotent and always yields the current format:
    whatever [JSON.parse] returned, a document that [migrateIfNeeded]
    accepts comes out with a [wallets] array, and migrating the result
    again, with any fresh id, gives the same document.  In particular a
    document that already has a [wallets] array is returned as it is. *)
Theorem migrateIfNeeded_is_idempotent fresh fresh' raw doc :
  Store.migrateIfNeeded fresh raw = Some doc ->
  Json.isArray (Json.prop "wallets" doc) = true /\
  Store.migrateIfNeeded fresh' doc = Some doc /\
  (Json.isArray (Json.prop "wallets" raw) = true -> doc = raw).
Proof.
  intros H.
  pose proof (migrateIfNeeded_shape fresh raw doc H) as Hshape.
  split; [exact Hshape | split; [apply migrateIfNeeded_v2; exact Hshape | ]].
  intros Hv2. rewrite (migrateIfNeeded_v2 fresh raw Hv2) in H. injection H as <-.
  reflexivity.
Qed.

(** X18. A legacy single-wallet document keeps its wallet through the
    migration.  When the legacy object has no [wallets] array and holds
    the wallet info [w], the adapter configuration [c], the rules [r] and
    the transactions [txs], the migrated document is the one-wallet
    document: that wallet under the fresh id, labelled Wallet 1, with the
    same address, creation time, freeze flag, configuration, rules and
    ledger, active, on the network base. *)
Theorem legacy_wallet_is_carried_over fresh fields w c r txs :
  Json.isArray (Json.prop "wallets" (JObj fields)) = false ->
  Json.prop "wallet" (JObj fields)
  = Some (JObj [("address", JStr (wi_address w)); ("createdAt", JStr (wi_createdAt w));
                ("frozen", JBool (wi_frozen w))]) ->
  Json.prop "adapterConfig" (JObj fields) = Some (Json.of_adapterConfig c) ->
  Json.prop "rules" (JObj fields) = option_map Json.of_rules r ->
  Json.prop "transactions" (JObj fields)
  = option_map (fun l => JArr (map Json.of_transaction l)) txs ->
  Store.migrateIfNeeded fresh (JObj fields)
  = Some (Json.of_state
            (mkState [mkEntry fresh "Wallet 1" w c (default r DEFAULT_RULES)
                        (default txs []) None]
               (Some fresh) base)).
Proof.
  intros Hv1 Hw Hc Hr Ht. unfold Store.migrateIfNeeded.
  rewrite Hv1, Hw, Hc, Hr, Ht.
  destruct c, r, txs; reflexivity.
Qed.

Lemma fs_read_other path path' content fs :
  path' <> path ->
  Store.fs_read path' (Store.fs_apply (Store.FsWriteFile path content) fs)
  = Store.fs_read path' fs.
Proof.
  intros Hne. unfold Store.fs_read, Store.fs_apply, Store.fs_remove.
  cbn [Store.fs_files find fst].
  destruct (String.eqb_spec path path') as [E | _]; [congruence | ].
  induction (Store.fs_files fs) as [| [p c'] files IH]; cbn; [reflexivity | ].
  destruct (String.eqb_spec p path) as [-> | Hp]; cbn.
  - destruct (String.eqb_spec path path') as [E | _]; [congruence | exact IH].
  - destruct (String.eqb p path'); [reflexivity | exact IH].
Qed.

Lemma initStore_ops parse fresh baseDir fs doc ops :
  Store.initStore parse fresh baseDir fs = Some (doc, ops) ->
  ops = (if Store.fs_exists_dir (Store.dataDir baseDir) fs then []
         else [Store.FsMkdir (Store.dataDir baseDir)])
        ++ Store.persist_ops baseDir doc /\
  Json.isArray (Json.prop "wallets" doc) = true.
Proof.
  unfold Store.initStore.
  destruct (Store.fs_read (Store.statePath baseDir) fs) as [text | ].
  - destruct (parse text) as [raw | ]; [ | discriminate].
    destruct (Store.migrateIfNeeded fresh raw) as [st | ] eqn:Hm; [ | discriminate].
    intros H. injection H as <- <-. split; [reflexivity | ].
    apply (migrateIfNeeded_shape fresh raw st Hm).
  - intros H. injection H as <- <-. split; reflexivity.
Qed.

Lemma fs_run_app ops1 ops2 fs :
  Store.fs_run (ops1 ++ ops2) fs = Store.fs_run ops2 (Store.fs_run ops1 fs).
Proof. unfold Store.fs_run. apply fold_left_app. Qed.

Lemma fs_exists_dir_made baseDir fs :
  Store.fs_exists_dir (Store.dataDir baseDir)
    (Store.fs_run
       (if Store.fs_exists_dir (Store.dataDir baseDir) fs then []
        else [Store.FsMkdir (Store.dataDir baseDir)]) fs) = true.
Proof.
  destruct (Store.fs_exists_dir (Store.dataDir baseDir) fs) eqn:E; cbn; [exact E | ].
  unfold Store.fs_exists_dir. cbn. rewrite String.eqb_refl. reflexivity.
Qed.

(** X19. Start-up leaves the state file equal to the document it holds.
    Whenever [initStore] succeeds, once its operations have run the data
    directory exists, the state file contains the document held in memory
    and no other file has changed.  Starting again on that file system,
    with a parser that reads the written text back, creates no directory
    and yields the same document: the migration is not applied twice. *)
Theorem initStore_leaves_its_document_on_disk
  (parse : string -> option json) fresh fresh' baseDir fs doc ops :
  Store.initStore parse fresh baseDir fs = Some (doc, ops) ->
  Store.fs_read (Store.statePath baseDir) (Store.fs_run ops fs)
  = Some (Json.stringify doc) /\
  Store.fs_exists_dir (Store.dataDir baseDir) (Store.fs_run ops fs) = true /\
  (forall path, path <> Store.statePath baseDir ->
     Store.fs_read path (Store.fs_run ops fs) = Store.fs_read path fs) /\
  (parse (Json.stringify doc) = Some doc ->
   Store.initStore parse fresh' baseDir (Store.fs_run ops fs)
   = Some (doc, Store.persist_ops baseDir doc)).
Proof.
  intros H. apply initStore_ops in H as (-> & Hshape).
  rewrite fs_run_app.
  set (fs1 := Store.fs_run _ fs).
  assert (Hdir : Store.fs_exists_dir (Store.dataDir baseDir) fs1 = true)
    by apply fs_exists_dir_made.
  assert (Hfiles : Store.fs_files fs1 = Store.fs_files fs).
  { unfold fs1. destruct (Store.fs_exists_dir (Store.dataDir baseDir) fs); reflexivity. }
  unfold Store.persist_ops, Store.fs_run. cbn [fold_left].
  split; [apply fs_read_written | ].
  split; [exact Hdir | ].
  split.
  - intros path Hne. rewrite fs_read_other by assumption.
    unfold Store.fs_read. rewrite Hfiles. reflexivity.
  - intros Hparse. unfold Store.initStore.
    rewrite fs_read_written, Hparse, (migrateIfNeeded_v2 fresh' doc Hshape).
    assert (Store.fs_exists_dir (Store.dataDir baseDir)
              (Store.fs_apply
                 (Store.FsWriteFile (Store.statePath baseDir) (Json.stringify doc)) fs1)
            = true) as -> by exact Hdir.
    reflexivity.
Qed.

(* ===================================================================== *)
(** * The wallet manager *)
(* ===================================================================== *)

Lemma find_existsb {A : Type} (p : A -> bool) (l : list A) :
  existsb p l = match find p l with Some _ => true | None => false end.
Proof.
  induction l as [| x l IH]; cbn; [reflexivity | ]. destruct (p x); [reflexivity | exact IH].
Qed.

Lemma getActiveEntry_selected walletId ws net entry :
  find (is_active walletId) ws = Some entry ->
  walletId <> EmptyString ->
  getActiveEntry (mkState ws (Some walletId) net) = Some entry.
Proof.
  intros Hf Hne. unfold getActiveEntry. cbn [activeWalletId wallets].
  destruct walletId; [contradiction | exact Hf].
Qed.

Lemma is_active_id walletId w : is_active walletId w = true -> we_id w = walletId.
Proof. unfold is_active. apply String.eqb_eq. Qed.

Section Wallets.

Context {P : Prims} (W : World) (V : Providers).

Lemma switchWallet_run walletId b entry :
  find (is_active walletId) (wallets (state b)) = Some entry ->
  switchWallet W walletId b =
  (written W (calls b) entry,
   after_write (mkState (wallets (state b)) (Some walletId) (network (state b))) b).
Proof.
  intros Hf. unfold switchWallet. cbv [bind gets]. rewrite Hf. cbn [of_option ret].
  cbv [set_state]. rewrite persist_run. unfold written, after_write.
  cbn [state paymentSessions trace calls].
  destruct (w_writeFile W (calls b)); reflexivity.
Qed.

(** X20. [switchWallet] makes the first wallet with the given id the
    active one and returns it.  The wallet list, the network and the
    sessions are untouched and the new document is written once; from then
    on the operations on the active wallet see that wallet: [getRules]
    returns its rules.  The id must not be the empty string, which the
    store reads as no active wallet. *)
Theorem switchWallet_selects_the_wallet walletId b entry :
  find (is_active walletId) (wallets (state b)) = Some entry ->
  walletId <> EmptyString ->
  exists b',
    switchWallet W walletId b = (written W (calls b) entry, b') /\
    we_id entry = walletId /\
    getActiveEntry (state b') = Some entry /\
    getRules b' = (Ok (we_rules entry), b') /\
    wallets (state b') = wallets (state b) /\
    network (state b') = network (state b) /\
    paymentSessions b' = paymentSessions b /\
    trace b' = trace b ++ [EvPersist (state b')].
Proof.
  intros Hf Hne. eexists. split; [apply switchWallet_run; exact Hf | ].
  assert (Hact : getActiveEntry
                   (state (after_write
                             (mkState (wallets (state b)) (Some walletId)
                                (network (state b))) b)) = Some entry)
    by (apply getActiveEntry_selected; assumption).
  split; [apply is_active_id; apply find_some in Hf; apply Hf | ].
  split; [exact Hact | ].
  split.
  { unfold getRules. rewrite (bind_ok _ _ _ _ _ (requireActiveEntry_found _ _ Hact)).
    reflexivity. }
  repeat split.
Qed.

Lemma removeWallet_run walletId b entry :
  find (is_active walletId) (wallets (state b)) = Some entry ->
  removeWallet W walletId b =
  (written W (calls b) tt,
   after_write
     (mkState (remove_first (is_active walletId) (wallets (state b)))
        (if active_is walletId (state b)
         then first_id (remove_first (is_active walletId) (wallets (state b)))
         else activeWalletId (state b))
        (network (state b))) b).
Proof.
  intros Hf. unfold removeWallet. cbv [bind gets]. rewrite find_existsb, Hf.
  cbv [set_state]. rewrite persist_run. reflexivity.
Qed.

(** An id that no wallet has is refused: [switchWallet] and
    [removeWallet] fail with the error Wallet <id> not found, and nothing
    changes and nothing is written. *)
Lemma unknown_wallet_is_refused walletId b :
  find (is_active walletId) (wallets (state b)) = None ->
  switchWallet W walletId b = (Err (WalletNotFound walletId), b) /\
  removeWallet W walletId b = (Err (WalletNotFound walletId), b) /\
  WalletNotFound walletId = InvalidInput ("Wallet " ++ walletId ++ " not found")%string.
Proof.
  intros Hf. split; [ | split; [ | reflexivity]].
  - unfold switchWallet. cbv [bind gets]. rewrite Hf. reflexivity.
  - unfold removeWallet. cbv [bind gets]. rewrite find_existsb, Hf. reflexivity.
Qed.

Lemma remove_first_split {A : Type} (p : A -> bool) (l : list A) x :
  find p l = Some x ->
  exists pre post,
    l = pre ++ x :: post /\ remove_first p l = pre ++ post /\
    Forall (fun y => p y = false) pre.
Proof.
  induction l as [| y l IH]; cbn; [discriminate | ].
  destruct (p y) eqn:Hy.
  - intros H. injection H as ->. exists [], l. repeat split. constructor.
  - intros H. destruct (IH H) as (pre & post & -> & -> & Hpre).
    exists (y :: pre), post. repeat split. constructor; assumption.
Qed.

Lemma In_remove_first {A : Type} (p : A -> bool) (l : list A) x :
  In x (remove_first p l) -> In x l.
Proof.
  induction l as [| y l IH]; cbn; [tauto | ].
  destruct (p y); [tauto | ]. cbn. intros [-> | H]; [left; reflexivity | right; auto].
Qed.

Lemma find_remove_first {A : Type} (p q : A -> bool) (l : list A) :
  (forall x, q x = true -> p x = false) ->
  find p (remove_first q l) = find p l.
Proof.
  intros Hpq. induction l as [| y l IH]; cbn; [reflexivity | ].
  destruct (q y) eqn:Hq.
  - rewrite (Hpq y Hq). reflexivity.
  - cbn. rewrite IH. reflexivity.
Qed.

(** X21. [removeWallet] takes the first wallet with the given id out of
    the list and keeps the others in their order.  When that id was the
    active one, the first remaining wallet becomes active without being
    asked for, or no wallet when none remains; otherwise the active wallet
    is the same as before.  The network and the sessions are untouched,
    and the new document is written once. *)
Theorem removeWallet_reassigns_the_active_wallet walletId b entry :
  find (is_active walletId) (wallets (state b)) = Some entry ->
  exists b',
    removeWallet W walletId b = (written W (calls b) tt, b') /\
    (exists before after,
        wallets (state b) = before ++ entry :: after /\
        wallets (state b') = before ++ after /\
        Forall (fun w => we_id w <> walletId) before) /\
    (activeWalletId (state b) = Some walletId ->
     activeWalletId (state b') = first_id (wallets (state b'))) /\
    (activeWalletId (state b) <> Some walletId ->
     activeWalletId (state b') = activeWalletId (state b) /\
     getActiveEntry (state b') = getActiveEntry (state b)) /\
    network (state b') = network (state b) /\
    paymentSessions b' = paymentSessions b /\
    trace b' = trace b ++ [EvPersist (state b')].
Proof.
  intros Hf. eexists. split; [apply (removeWallet_run walletId b entry Hf) | ].
  unfold after_write. cbn [state paymentSessions trace wallets activeWalletId network].
  split.
  { destruct (remove_first_split _ _ _ Hf) as (pre & post & Hl & Hr & Hpre).
    exists pre, post. repeat split; try assumption.
    eapply Forall_impl; [ | exact Hpre]. intros w Hw E.
    unfold is_active in Hw. rewrite E, String.eqb_refl in Hw. discriminate. }
  split.
  { intros Ha. unfold active_is. rewrite Ha, String.eqb_refl. reflexivity. }
  split; [ | repeat split].
  intros Hne.
  assert (Hfalse : active_is walletId (state b) = false).
  { unfold active_is. destruct (activeWalletId (state b)) as [a | ]; [ | reflexivity].
    apply String.eqb_neq. intros ->. apply Hne. reflexivity. }
  rewrite Hfalse. split; [reflexivity | ].
  unfold getActiveEntry. cbn [activeWalletId wallets].
  destruct (activeWalletId (state b)) as [a | ]; [ | reflexivity].
  destruct (Js.truthy a); [ | reflexivity].
  apply find_remove_first. intros x Hx. apply is_active_id in Hx.
  unfold is_active. rewrite Hx. apply String.eqb_neq. intros ->. apply Hne. reflexivity.
Qed.

End Wallets.

Section NewWallet.

Context {P : Prims} (W : World) (V : Providers).

Lemma provision_quiet adapterType credentials :
  respects quiet (provision V adapterType credentials).
Proof. unfold provision. footprint. Qed.

Lemma find_app_fresh {A : Type} (p : A -> bool) (l : list A) x :
  Forall (fun y => p y = false) l -> p x = true -> find p (l ++ [x]) = Some x.
Proof.
  induction 1 as [| y l Hy _ IH]; cbn; intros Hx.
  - rewrite Hx. reflexivity.
  - rewrite Hy. apply IH. exact Hx.
Qed.

Lemma default_rules_permit entry amountText service decimals amount b :
  getActiveEntry (state b) = Some entry ->
  we_rules entry = DEFAULT_RULES ->
  BigInt amountText = Some amount ->
  enforceRules W amountText service decimals b = (Ok tt, b).
Proof.
  intros H Hr Ha. unfold enforceRules.
  rewrite (bind_ok _ _ _ _ _ (requireActiveEntry_found b entry H)).
  cbv [bind of_option ret]. rewrite Ha, Hr. reflexivity.
Qed.

(** X22. [createWallet] adds one wallet at the end of the list and makes
    it active; the wallets that were there, the network and the sessions
    are untouched, and the new document is written once.  The new wallet
    has the address and the adapter configuration that the provider gave,
    a fresh id, the given label or Wallet N for the N-th wallet, and it is
    open: not frozen, the default rules, an empty ledger, no agent
    identity.  When its id is new and not empty it is the wallet the
    operations on the active wallet see, and with the default rules every
    payment whose amount can be read passes the rules check. *)
Theorem createWallet_adds_an_open_wallet
  adapterType credentials label b address config b1 :
  provision V adapterType credentials b = (Ok (address, config), b1) ->
  exists entry b',
    createWallet W V adapterType credentials label b
    = (written W (S (S (calls b1))) entry, b') /\
    wallets (state b') = wallets (state b) ++ [entry] /\
    activeWalletId (state b') = Some (we_id entry) /\
    network (state b') = network (state b) /\
    paymentSessions b' = paymentSessions b /\
    trace b' = trace b ++ [EvPersist (state b')] /\
    we_id entry = w_randomBytes W (calls b1) 8 /\
    we_label entry
    = Js.orElse (default label EmptyString)
        ("Wallet "
         ++ Js.bigint_toString (Z.of_nat (List.length (wallets (state b))) + 1))%string /\
    we_wallet entry = mkWalletInfo address (toISOString (w_now W (S (calls b1)))) false /\
    we_adapterConfig entry = config /\
    we_rules entry = DEFAULT_RULES /\
    we_transactions entry = [] /\
    we_agentIdentity entry = None /\
    (we_id entry <> EmptyString ->
     Forall (fun w => we_id w <> we_id entry) (wallets (state b)) ->
     getActiveEntry (state b') = Some entry) /\
    (forall b2 amountText service decimals amount,
        getActiveEntry (state b2) = Some entry ->
        BigInt amountText = Some amount ->
        enforceRules W amountText service decimals b2 = (Ok tt, b2)).
Proof.
  intros Hp.
  pose proof (provision_quiet adapterType credentials b) as Hq.
  rewrite Hp in Hq. destruct Hq as (Hst & Hse & Htr). cbn [snd] in Hst, Hse, Htr.
  unfold createWallet. rewrite (bind_ok _ _ _ _ _ Hp).
  cbv [bind gets randomBytes Date_now tick ret set_state].
  cbn [state paymentSessions trace calls fst snd].
  rewrite persist_run. cbn [state paymentSessions trace calls].
  rewrite Hst, Hse, Htr.
  eexists. eexists.
  split; [unfold written; destruct (w_writeFile W (S (S (calls b1)))); reflexivity | ].
  cbn [state paymentSessions trace calls wallets activeWalletId network we_id we_label
       we_wallet we_adapterConfig we_rules we_transactions we_agentIdentity].
  repeat (split; [reflexivity | ]).
  split.
  - intros Hne Hfresh. apply getActiveEntry_selected; [ | exact Hne].
    apply find_app_fresh.
    + eapply Forall_impl; [ | exact Hfresh]. intros w Hw. apply String.eqb_neq. exact Hw.
    + apply String.eqb_refl.
  - intros b2 amountText service decimals amount Hact Ha.
    apply (default_rules_permit _ _ _ _ amount _ Hact eq_refl Ha).
Qed.

End NewWallet.

Section AdapterTypes.

Context {P : Prims} (W : World) (V : Providers).

Lemma createWallet_unprovisioned adapterType credentials label b e :
  provision V adapterType credentials b = (Err e, b) ->
  createWallet W V adapterType credentials label b = (Err e, b).
Proof. intros H. unfold createWallet. apply (bind_err _ _ _ _ _ H). Qed.

(** X23. [createWallet] builds the adapter from its arguments alone and
    checks the credentials before anything else.  For the types privy,
    coinbase-cdp, crossmint and browser, a credential that is missing or
    empty makes the call fail with the message of that type, before the
    provider is contacted: nothing changes and nothing is written; so a
    call with no credentials at all always fails for these four types.
    Every other adapter type, and none, gives a local-key wallet. *)
Theorem createWallet_checks_the_credentials_first credentials label b :
  (credential "appId" credentials = None \/ credential "appSecret" credentials = None ->
   createWallet W V (Some "privy"%string) credentials label b
   = (Err (InvalidInput "Privy requires appId and appSecret"), b)) /\
  (credential "apiKeyId" credentials = None \/
   credential "apiKeySecret" credentials = None ->
   createWallet W V (Some "coinbase-cdp"%string) credentials label b
   = (Err (InvalidInput "Coinbase CDP requires apiKeyId and apiKeySecret"), b)) /\
  (credential "apiKey" credentials = None ->
   createWallet W V (Some "crossmint"%string) credentials label b
   = (Err (InvalidInput "Crossmint requires apiKey"), b)) /\
  (credential "address" credentials = None ->
   createWallet W V (Some "browser"%string) credentials label b
   = (Err (InvalidInput "Browser wallet requires an address"), b)) /\
  (forall t,
      In t ["privy"; "coinbase-cdp"; "crossmint"; "browser"]%string ->
      exists e, createWallet W V (Some t) None label b = (Err e, b)) /\
  (forall t,
      ~ In t ["privy"; "coinbase-cdp"; "crossmint"; "browser"]%string ->
      createWallet W V (Some t) credentials label b
      = createWallet W V None credentials label b).
Proof.
  assert (Hprivy : credential "appId" credentials = None \/
                   credential "appSecret" credentials = None ->
                   createWallet W V (Some "privy"%string) credentials label b
                   = (Err (InvalidInput "Privy requires appId and appSecret"), b)).
  { intros Hc. apply createWallet_unprovisioned. unfold provision. cbn [is_type String.eqb].
    cbn. destruct Hc as [-> | Hc]; [reflexivity | ].
    rewrite Hc. destruct (credential "appId" credentials); reflexivity. }
  assert (Hcdp : credential "apiKeyId" credentials = None \/
                 credential "apiKeySecret" credentials = None ->
                 createWallet W V (Some "coinbase-cdp"%string) credentials label b
                 = (Err (InvalidInput "Coinbase CDP requires apiKeyId and apiKeySecret"),
                    b)).
  { intros Hc. apply createWallet_unprovisioned. unfold provision. cbn.
    destruct Hc as [-> | Hc]; [reflexivity | ].
    rewrite Hc. destruct (credential "apiKeyId" credentials); reflexivity. }
  assert (Hcm : credential "apiKey" credentials = None ->
                createWallet W V (Some "crossmint"%string) credentials label b
                = (Err (InvalidInput "Crossmint requires apiKey"), b)).
  { intros Hc. apply createWallet_unprovisioned. unfold provision. cbn.
    rewrite Hc. reflexivity. }
  assert (Hbr : credential "address" credentials = None ->
                createWallet W V (Some "browser"%string) credentials label b
                = (Err (InvalidInput "Browser wallet requires an address"), b)).
  { intros Hc. apply createWallet_unprovisioned. unfold provision. cbn.
    rewrite Hc. reflexivity. }
  repeat (split; [assumption | ]). split.
  - intros t [<- | [<- | [<- | [<- | []]]]]; eexists;
      apply createWallet_unprovisioned; reflexivity.
  - intros t Hn. unfold createWallet, provision, is_type.
    assert (Hne : forall k, In k ["privy"; "coinbase-cdp"; "crossmint"; "browser"]%string ->
                            String.eqb t k = false).
    { intros k Hk. apply String.eqb_neq. intros ->. apply Hn. exact Hk. }
    rewrite !Hne by (cbn; tauto). reflexivity.
Qed.

End AdapterTypes.

Section Identity.

Context {P : Prims} (W : World).

Lemma setAgentIdentity_run identity b entry :
  getActiveEntry (state b) = Some entry ->
  setAgentIdentity W identity b
  = (written W (calls b) tt,
     after_mutation (set_agentIdentity (merge_identity identity)) b).
Proof. apply setter_run. Qed.

(** X24. [setAgentIdentity] merges its argument into the identity stored
    in the active wallet, property by property, and [getAgentIdentity]
    returns the result.  The name is the new name.  An optional field
    that the argument does not have keeps the stored value; a field that
    the argument has takes the argument's value, also when that value is
    [undefined], which erases the stored one.  Once the agent id or the
    registry is erased, a retry no longer carries the agent headers. *)
Theorem setAgentIdentity_merges_the_fields identity b entry :
  getActiveEntry (state b) = Some entry ->
  exists merged,
    getAgentIdentity (state (snd (setAgentIdentity W identity b))) = Some merged /\
    ag_name merged = ia_name identity /\
    ag_description merged
    = spread_field (stored_field ag_description entry) (ia_description identity) /\
    ag_agentId merged
    = spread_field (stored_field ag_agentId entry) (ia_agentId identity) /\
    ag_agentRegistry merged
    = spread_field (stored_field ag_agentRegistry entry) (ia_agentRegistry identity) /\
    ag_agentURI merged
    = spread_field (stored_field ag_agentURI entry) (ia_agentURI identity) /\
    (ia_agentId identity = None -> ag_agentId merged = stored_field ag_agentId entry) /\
    (forall v, ia_agentId identity = Some v -> ag_agentId merged = v) /\
    (ia_agentId identity = Some None \/ ia_agentRegistry identity = Some None ->
     forall h, agent_headers (Some merged) h = h).
Proof.
  intros H. rewrite (setAgentIdentity_run identity b entry H). cbn [snd].
  exists (merge_identity identity (we_agentIdentity entry)).
  split.
  { unfold getAgentIdentity.
    rewrite (getActiveEntry_after_mutation
               (set_agentIdentity (merge_identity identity)) b entry (fun _ => eq_refl) H).
    reflexivity. }
  unfold merge_identity, stored_field.
  cbn [ag_name ag_description ag_agentId ag_agentRegistry ag_agentURI].
  repeat (split; [reflexivity | ]).
  split; [intros ->; reflexivity | ].
  split; [intros v ->; reflexivity | ].
  intros [E | E] h; unfold agent_headers;
    cbn [ag_name ag_description ag_agentId ag_agentRegistry ag_agentURI];
    rewrite E; cbn [spread_field truthy_string]; [reflexivity | ].
  destruct (truthy_string _); reflexivity.
Qed.

Lemma update_first_fuse {A : Type} (p : A -> bool) (f g : A -> A) (l : list A) :
  (forall x, p (f x) = p x) ->
  update_first p g (update_first p f l) = update_first p (fun x => g (f x)) l.
Proof.
  intros Hp. induction l as [| x l IH]; cbn; [reflexivity | ].
  destruct (p x) eqn:Hx; cbn.
  - rewrite Hp, Hx. reflexivity.
  - rewrite Hx, IH. reflexivity.
Qed.

Lemma update_first_fixed {A : Type} (p : A -> bool) (f : A -> A) (l : list A) x :
  find p l = Some x -> f x = x -> update_first p f l = l.
Proof.
  induction l as [| y l IH]; cbn; [reflexivity | ].
  destruct (p y).
  - intros Hx Hf. injection Hx as ->. rewrite Hf. reflexivity.
  - intros Hx Hf. rewrite IH by assumption. reflexivity.
Qed.

Lemma update_first_ext {A : Type} (p : A -> bool) (f g : A -> A) (l : list A) :
  (forall x, f x = g x) -> update_first p f l = update_first p g l.
Proof.
  intros H. induction l as [| y l IH]; cbn; [reflexivity | ].
  rewrite H, IH. reflexivity.
Qed.

Lemma mutate_active_twice (f g : WalletEntry -> WalletEntry) st :
  (forall w, we_id (f w) = we_id w) ->
  mutate_active g (mutate_active f st) = mutate_active (fun w => g (f w)) st.
Proof.
  intros Hid. unfold mutate_active.
  destruct (activeWalletId st) as [id | ] eqn:E; cbn [activeWalletId wallets network].
  - rewrite update_first_fuse; [reflexivity | ].
    intros w. unfold is_active. rewrite Hid. reflexivity.
  - rewrite E. reflexivity.
Qed.

Lemma mutate_active_fixed (f : WalletEntry -> WalletEntry) st entry :
  getActiveEntry st = Some entry -> f entry = entry -> mutate_active f st = st.
Proof.
  unfold getActiveEntry, mutate_active.
  destruct st as [ws [id | ] net]; cbn; [ | discriminate].
  destruct (Js.truthy id); [ | discriminate].
  intros Hf He. rewrite (update_first_fixed _ _ _ entry Hf He). reflexivity.
Qed.

(** X25. Freezing changes the freeze flag of the active wallet and
    nothing else: on a wallet that is not frozen, [unfreezeWallet] after
    [freezeWallet] gives back the document as it was, whether or not the
    writes succeed, and freezing a second time changes nothing. *)
Theorem unfreezeWallet_undoes_freezeWallet b entry :
  getActiveEntry (state b) = Some entry ->
  wi_frozen (we_wallet entry) = false ->
  state (snd (unfreezeWallet W (snd (freezeWallet W b)))) = state b /\
  state (snd (freezeWallet W (snd (freezeWallet W b)))) = state (snd (freezeWallet W b)) /\
  paymentSessions (snd (unfreezeWallet W (snd (freezeWallet W b)))) = paymentSessions b.
Proof.
  intros H Hf.
  pose proof (getActiveEntry_after_mutation (set_frozen true) b entry (fun _ => eq_refl) H)
    as H1.
  rewrite (freezeWallet_run W b entry H). cbn [snd].
  rewrite (unfreezeWallet_run W _ _ H1), (freezeWallet_run W _ _ H1). cbn [snd].
  unfold after_mutation at 1 3 4. cbn [state paymentSessions].
  unfold after_mutation. cbn [state paymentSessions].
  rewrite !mutate_active_twice by reflexivity.
  split; [ | split; [ | reflexivity]].
  - apply (mutate_active_fixed _ _ entry H).
    destruct entry as [id label [address createdAt frozen] config rules txs identity].
    cbn in Hf. subst frozen. reflexivity.
  - unfold mutate_active. destruct (activeWalletId (state b)); [ | reflexivity].
    f_equal.
Qed.

End Identity.

(** ** The active wallet is one of the list *)

#[export] Instance known_kept_preorder : PreOrder known_kept.
Proof.
  split.
  - intros b H. exact H.
  - intros x y z Hxy Hyz H. apply Hyz, Hxy, H.
Qed.

Lemma known_of_readonly {A : Type} (m : M A) :
  respects readonly m -> respects known_kept m.
Proof. intros H b Hk. destruct (H b) as (-> & _). exact Hk. Qed.

Lemma Forall2_In_l {A B : Type} (R : A -> B -> Prop) l l' x :
  Forall2 R l l' -> In x l -> exists y, In y l' /\ R x y.
Proof.
  induction 1 as [| a b' l l' Hab _ IH]; cbn; [tauto | ].
  intros [-> | Hin].
  - exists b'. split; [left; reflexivity | exact Hab].
  - destruct (IH Hin) as (y & Hy & Hr). exists y. split; [right; exact Hy | exact Hr].
Qed.

Lemma known_of_audit_trail {A : Type} (m : M A) :
  respects audit_trail_kept m -> respects known_kept m.
Proof.
  intros H b Hk. destruct (H b) as (Ha & _ & Hw). unfold active_known in *.
  rewrite Ha. destruct (activeWalletId (state b)) as [id | ]; [ | exact I].
  destruct Hk as (w & Hin & Hid).
  destruct (Forall2_In_l _ _ _ _ Hw Hin) as (w' & Hin' & Hext).
  exists w'. split; [exact Hin' | ]. destruct Hext as (E & _). congruence.
Qed.

Lemma In_update_first {A : Type} (p : A -> bool) (f : A -> A) (l : list A) x :
  In x l -> In x (update_first p f l) \/ In (f x) (update_first p f l).
Proof.
  induction l as [| y l IH]; cbn; [tauto | ].
  intros [-> | Hin].
  - destruct (p x); [right | left]; left; reflexivity.
  - destruct (p y).
    + left. right. exact Hin.
    + destruct (IH Hin) as [H | H]; [left | right]; right; exact H.
Qed.

Lemma setter_known (f : WalletEntry -> WalletEntry) :
  (forall w, we_id (f w) = we_id w) ->
  respects known_kept (set_state (mutate_active f)).
Proof.
  intros Hid b Hk. cbn [set_state snd state]. unfold active_known, mutate_active in *.
  destruct (activeWalletId (state b)) as [id | ] eqn:E; cbn [activeWalletId wallets].
  - destruct Hk as (w & Hin & Hw).
    destruct (In_update_first (is_active id) f _ w Hin) as [H | H].
    + exists w. split; assumption.
    + exists (f w). split; [exact H | rewrite Hid; exact Hw].
  - rewrite E. exact I.
Qed.

Lemma In_remove_first_other {A : Type} (p : A -> bool) (l : list A) x :
  In x l -> p x = false -> In x (remove_first p l).
Proof.
  induction l as [| y l IH]; cbn; [tauto | ].
  intros [-> | Hin] Hx.
  - rewrite Hx. left. reflexivity.
  - destruct (p y); [exact Hin | right; apply IH; assumption].
Qed.

Section Known.

Context {P : Prims} (W : World) (V : Providers).

Lemma persist_known : respects known_kept (persist W).
Proof. apply known_of_readonly, persist_readonly. Qed.

Lemma switchWallet_known walletId : respects known_kept (switchWallet W walletId).
Proof.
  intros b Hk.
  destruct (find (is_active walletId) (wallets (state b))) as [entry | ] eqn:Hf.
  - rewrite (switchWallet_run W walletId b entry Hf). cbn.
    apply find_some in Hf as (Hin & Hid). exists entry.
    split; [exact Hin | apply is_active_id; exact Hid].
  - unfold switchWallet. cbv [bind gets]. rewrite Hf. exact Hk.
Qed.

Lemma removeWallet_known walletId : respects known_kept (removeWallet W walletId).
Proof.
  intros b Hk.
  destruct (find (is_active walletId) (wallets (state b))) as [entry | ] eqn:Hf.
  - rewrite (removeWallet_run W walletId b entry Hf).
    unfold after_write, active_known in *. cbn [snd state activeWalletId wallets].
    unfold active_is.
    destruct (activeWalletId (state b)) as [a | ]; [ | exact I].
    destruct (String.eqb_spec a walletId) as [-> | Hne].
    + destruct (remove_first (is_active walletId) (wallets (state b))) as [| w ws];
        [exact I | ].
      exists w. split; [left; reflexivity | reflexivity].
    + destruct Hk as (w & Hin & Hw). exists w. split; [ | exact Hw].
      apply In_remove_first_other; [exact Hin | ].
      unfold is_active. rewrite Hw. apply String.eqb_neq. exact Hne.
  - unfold removeWallet. cbv [bind gets]. rewrite find_existsb, Hf. exact Hk.
Qed.

Lemma createWallet_known adapterType credentials label :
  respects known_kept (createWallet W V adapterType credentials label).
Proof.
  pose proof persist_known.
  unfold createWallet.
  apply respects_bind; [typeclasses eauto | | intros provisioned].
  { apply known_of_readonly, lift_readonly, provision_quiet. }
  footprint.
  - apply known_of_readonly. footprint.
  - apply known_of_readonly. footprint.
  - intros b _. cbn. eexists. split; [apply in_or_app; right; left; reflexivity | ].
    reflexivity.
Qed.

Lemma setNetwork_known net : respects known_kept (setNetwork W net).
Proof.
  pose proof persist_known. unfold setNetwork. footprint.
  intros b Hk. exact Hk.
Qed.

Lemma active_setter_known (f : WalletEntry -> WalletEntry) :
  (forall w, we_id (f w) = we_id w) ->
  respects known_kept
    (bind requireActiveEntry
       (fun _ => bind (set_state (mutate_active f)) (fun _ => persist W))).
Proof.
  intros Hid. pose proof persist_known. pose proof (setter_known f Hid).
  footprint. apply known_of_readonly. footprint.
Qed.

(** X26. Every operation keeps the active wallet id pointing at a wallet
    of the list: when the id, if set, is the id of some wallet before a
    call of [createWallet], [switchWallet], [removeWallet], [setNetwork],
    [setRules], [freezeWallet], [unfreezeWallet], [renameWallet],
    [setAgentIdentity], [x402Fetch], [x402Prepare], [x402Complete] or the
    session sweeper, it is so after the call, whether the call succeeds or
    fails.  The empty document satisfies the condition. *)
Theorem active_wallet_stays_in_the_list :
  active_known Store.empty_state /\
  (forall adapterType credentials label,
      respects known_kept (createWallet W V adapterType credentials label)) /\
  (forall walletId, respects known_kept (switchWallet W walletId)) /\
  (forall walletId, respects known_kept (removeWallet W walletId)) /\
  (forall net, respects known_kept (setNetwork W net)) /\
  (forall patch, respects known_kept (setRules W patch)) /\
  respects known_kept (freezeWallet W) /\
  respects known_kept (unfreezeWallet W) /\
  (forall label, respects known_kept (renameWallet W label)) /\
  (forall identity, respects known_kept (setAgentIdentity W identity)) /\
  (forall url options, respects known_kept (x402Fetch W url options)) /\
  (forall url options, respects known_kept (x402Prepare W url options)) /\
  (forall sessionId sig, respects known_kept (x402Complete W sessionId sig)) /\
  respects known_kept (cleanupSessions W).
Proof.
  split; [exact I | ].
  split; [exact createWallet_known | ].
  split; [exact switchWallet_known | ].
  split; [exact removeWallet_known | ].
  split; [exact setNetwork_known | ].
  split.
  { intros patch. pose proof persist_known.
    pose proof (setter_known (set_rules (patch_rules patch)) (fun _ => eq_refl)).
    unfold setRules. footprint. apply known_of_readonly. footprint. }
  split; [apply active_setter_known; reflexivity | ].
  split; [apply active_setter_known; reflexivity | ].
  split; [intros label; apply active_setter_known; reflexivity | ].
  split; [intros identity; apply active_setter_known; reflexivity | ].
  split; [intros; apply known_of_audit_trail, x402Fetch_audit_trail | ].
  split; [intros; apply known_of_audit_trail, x402Prepare_audit_trail | ].
  split; [intros; apply known_of_audit_trail, x402Complete_audit_trail | ].
  apply known_of_audit_trail, cleanupSessions_audit_trail.
Qed.

End Known.

(* ===================================================================== *)
(** * Options, listings and the sweeper *)
(* ===================================================================== *)

Section Options.

Context {P : Prims}.

(** One turn of the loop of [findAcceptedOption]. *)
Lemma findAcceptedOption_step option rest :
  findAcceptedOption (option :: rest) =
  if compatible option then Ok (Some option)
  else if poisoned option then
    Err (InvalidInput "expectedUsdc.toLowerCase is not a function")
  else findAcceptedOption rest.
Proof.
  cbn [findAcceptedOption]. unfold compatible, poisoned, Js.get, CHAIN_IDS, USDC.
  destruct (String.eqb (pr_scheme option) "exact"); cbn [negb andb]; [ | reflexivity].
  destruct (String.eqb_spec (pr_network option) "eip155:8453") as [-> | _].
  - cbn. destruct (String.eqb _ _); reflexivity.
  - destruct (String.eqb_spec (pr_network option) "eip155:84532") as [-> | _].
    + cbn. destruct (String.eqb _ _); reflexivity.
    + destruct (Js.inherited (pr_network option)); reflexivity.
Qed.

(** X27. [findAcceptedOption] goes through the options in the server's
    order and stops at the first one that the broker can fulfil (scheme
    [exact], network Base or Base Sepolia, asset the USDC contract of that
    network, compared after [toLowerCase]) or that names, with the scheme
    [exact], a network that [Object.prototype] defines: it returns the
    former, and throws a [TypeError] on the latter, whatever comes after
    it.  With no such option it returns nothing.  So, on a list that
    names no property of [Object.prototype] as a network, the result is
    the first option the broker can fulfil. *)
Theorem findAcceptedOption_takes_the_first_compatible_option accepts :
  findAcceptedOption accepts =
  match find (fun option => orb (compatible option) (poisoned option)) accepts with
  | Some option =>
      if compatible option then Ok (Some option)
      else Err (InvalidInput "expectedUsdc.toLowerCase is not a function")
  | None => Ok None
  end /\
  (Forall (fun option => Js.inherited (pr_network option) = false) accepts ->
   findAcceptedOption accepts = Ok (find compatible accepts)) /\
  (forall option,
      findAcceptedOption accepts = Ok (Some option) ->
      In option accepts /\
      pr_scheme option = "exact"%string /\
      (pr_network option = "eip155:8453"%string \/
       pr_network option = "eip155:84532"%string) /\
      exists usdc,
        USDC (pr_network option) = Some usdc /\
        toLowerCase (pr_asset option) = toLowerCase usdc).
Proof.
  split; [ | split].
  - induction accepts as [| o rest IH]; [reflexivity | ].
    rewrite findAcceptedOption_step. cbn [find].
    destruct (compatible o) eqn:Hc; cbn [orb]; [rewrite Hc; reflexivity | ].
    destruct (poisoned o); [rewrite Hc; reflexivity | exact IH].
  - intros Hall. induction Hall as [| o rest Ho _ IH]; [reflexivity | ].
    rewrite findAcceptedOption_step. cbn [find]. unfold poisoned. rewrite Ho, andb_false_r.
    destruct (compatible o); [reflexivity | exact IH].
  - intros o. induction accepts as [| o' rest IH]; [discriminate | ].
    rewrite findAcceptedOption_step.
    destruct (compatible o') eqn:Hc.
    + intros Ho. injection Ho as ->. split; [left; reflexivity | ].
      unfold compatible in Hc. apply andb_true_iff in Hc as (Hs & Ha).
      split; [apply String.eqb_eq; exact Hs | ].
      destruct (USDC (pr_network o)) as [usdc | ] eqn:Hu; [ | discriminate].
      split.
      * unfold USDC in Hu.
        destruct (String.eqb_spec (pr_network o) "eip155:8453"); [left; assumption | ].
        destruct (String.eqb_spec (pr_network o) "eip155:84532");
          [right; assumption | discriminate].
      * exists usdc. split; [reflexivity | apply String.eqb_eq; exact Ha].
    + destruct (poisoned o'); [discriminate | ].
      intros Ho. destruct (IH Ho) as (Hin & Hrest). split; [right; exact Hin | exact Hrest].
Qed.

End Options.

Section Listing.

Context {P : Prims} (W : World).

Lemma slice_end_nat len n :
  Js.slice_end len (Js.integer (Z.of_nat n)) = Nat.min n len.
Proof.
  unfold Js.slice_end, Js.integer. rewrite Z.quot_1_r.
  destruct (Z.ltb_spec (Z.of_nat n) 0) as [Hneg | _]; lia.
Qed.

Lemma slice_end_negative len k :
  (0 < k)%nat -> Js.slice_end len (Js.integer (- Z.of_nat k)) = (len - k)%nat.
Proof.
  intros Hk. unfold Js.slice_end, Js.integer. rewrite Z.quot_1_r.
  destruct (Z.ltb_spec (- Z.of_nat k) 0) as [_ | Hpos]; lia.
Qed.

Lemma slice_end_le len limit : (Js.slice_end len limit <= len)%nat.
Proof.
  unfold Js.slice_end. destruct limit as [| [|] | n d]; try lia.
  destruct (Z.ltb_spec (Z.quot n (Z.pos d)) 0); lia.
Qed.

Lemma firstn_min {A : Type} n (l : list A) :
  firstn (Nat.min n (List.length l)) l = firstn n l.
Proof.
  destruct (Nat.le_ge_cases n (List.length l)) as [Hle | Hge].
  - rewrite Nat.min_l by exact Hle. reflexivity.
  - rewrite Nat.min_r by exact Hge.
    rewrite firstn_all, firstn_all2 by exact Hge. reflexivity.
Qed.

Lemma getTransactions_run limit b entry :
  getActiveEntry (state b) = Some entry ->
  getTransactions limit b =
  (Ok (firstn (Js.slice_end (List.length (we_transactions entry))
                 (match limit with Some n => n | None => Js.Finite 50 1 end))
         (rev (we_transactions entry))), b).
Proof.
  intros H. unfold getTransactions.
  rewrite (bind_ok _ _ _ _ _ (requireActiveEntry_found b entry H)).
  rewrite length_rev. reflexivity.
Qed.

(** X28. [getTransactions] never changes anything and lists records of
    the active wallet from the newest to the oldest; how many depends on
    the limit as [slice(0, limit)] reads it.  A limit that is a natural
    number [n] gives the [n] newest records (all of them when there are
    fewer), and 50 is the limit when none is given.  A negative limit
    [-k] does not limit the list: it gives all the records but the [k]
    oldest.  [NaN] gives no record.  After [addTransaction], the record
    it returned comes first, followed by the earlier records in reverse
    order of their creation. *)
Theorem getTransactions_lists_the_newest_first b entry :
  getActiveEntry (state b) = Some entry ->
  (forall n : nat,
      getTransactions (Some (Js.integer (Z.of_nat n))) b
      = (Ok (firstn n (rev (we_transactions entry))), b)) /\
  getTransactions None b = (Ok (firstn 50 (rev (we_transactions entry))), b) /\
  (forall k : nat,
      (0 < k)%nat ->
      getTransactions (Some (Js.integer (- Z.of_nat k))) b
      = (Ok (rev (skipn k (we_transactions entry))), b)) /\
  getTransactions (Some Js.NaN) b = (Ok [], b) /\
  (forall limit, exists n,
      (n <= List.length (we_transactions entry))%nat /\
      getTransactions limit b = (Ok (firstn n (rev (we_transactions entry))), b)) /\
  (forall params record b' n,
      addTransaction W params b = (Ok record, b') ->
      getTransactions (Some (Js.integer (Z.of_nat (S n)))) b'
      = (Ok (record :: firstn n (rev (we_transactions entry))), b')).
Proof.
  intros H.
  split; [ | split; [ | split; [ | split; [ | split]]]].
  - intros n. rewrite (getTransactions_run _ b entry H), slice_end_nat.
    rewrite <- (length_rev (we_transactions entry)), firstn_min. reflexivity.
  - rewrite (getTransactions_run _ b entry H).
    change (Js.Finite 50 1) with (Js.integer (Z.of_nat 50)). rewrite slice_end_nat.
    rewrite <- (length_rev (we_transactions entry)), firstn_min. reflexivity.
  - intros k Hk. rewrite (getTransactions_run _ b entry H), (slice_end_negative _ k Hk).
    rewrite firstn_rev.
    destruct (Nat.le_ge_cases k (List.length (we_transactions entry))) as [Hle | Hge].
    + replace (List.length (we_transactions entry)
               - (List.length (we_transactions entry) - k))%nat with k by lia.
      reflexivity.
    + replace (List.length (we_transactions entry) - k)%nat with 0%nat by lia.
      rewrite Nat.sub_0_r, !skipn_all2 by lia. reflexivity.
  - rewrite (getTransactions_run _ b entry H). reflexivity.
  - intros limit. eexists. split; [ | apply (getTransactions_run _ b entry H)].
    apply slice_end_le.
  - intros params record b' n Hadd.
    rewrite (addTransaction_run W params b entry H) in Hadd.
    injection Hadd as Hr <-.
    destruct (w_writeFile W _); [ | discriminate]. injection Hr as <-.
    assert (Hact : getActiveEntry (state (after_add W params b))
                   = Some (set_transactions
                             (fun txs => txs ++ [added_record W params b]) entry)).
    { unfold after_add. cbn [state].
      apply getActiveEntry_mutate; [reflexivity | exact H]. }
    rewrite (getTransactions_run _ _ _ Hact), slice_end_nat.
    cbn [set_transactions we_transactions].
    rewrite <- (length_rev (we_transactions entry ++ [added_record W params b])), firstn_min.
    rewrite rev_app_distr. reflexivity.
Qed.

End Listing.

Lemma sessions_get_delete_other k k' m :
  k' <> k -> sessions_get k (sessions_delete k' m) = sessions_get k m.
Proof.
  intros Hne. induction m as [| [k0 v] m IH]; cbn; [reflexivity | ].
  destruct (String.eqb_spec k0 k') as [-> | Hk0].
  - destruct (String.eqb_spec k' k); [contradiction | exact IH].
  - cbn. destruct (String.eqb k0 k); [reflexivity | exact IH].
Qed.

Lemma sessions_get_In k m session :
  sessions_get k m = Some session -> In (k, session) m.
Proof.
  induction m as [| [k0 v] m IH]; cbn; [discriminate | ].
  destruct (String.eqb_spec k0 k) as [-> | _].
  - intros H. injection H as ->. left. reflexivity.
  - intros H. right. apply IH. exact H.
Qed.

Lemma sessions_get_unique k m session s :
  NoDup (map fst m) -> sessions_get k m = Some session -> In (k, s) m -> s = session.
Proof.
  induction m as [| [k0 v] m IH]; cbn; [discriminate | ].
  intros Hnd. inversion Hnd as [| ? ? Hnotin Hnd']; subst.
  destruct (String.eqb_spec k0 k) as [-> | Hne].
  - intros H [E | Hin].
    + injection H as <-. injection E as <-. reflexivity.
    + exfalso. apply Hnotin. apply (in_map fst) in Hin. exact Hin.
  - intros H [E | Hin]; [injection E as -> _; contradiction | ].
    apply IH; assumption.
Qed.

Section Sweeper.

Context (W : World).

Lemma sweep_keeps_live k now entries :
  (forall s, In (k, s) entries -> (now >? ps_expiresAt s) = false) ->
  forall b,
    sessions_get k (paymentSessions (snd (sweep W now entries b)))
    = sessions_get k (paymentSessions b).
Proof.
  induction entries as [| [id session] rest IH]; intros Hlive b; [reflexivity | ].
  assert (Hrest : forall s, In (k, s) rest -> (now >? ps_expiresAt s) = false)
    by (intros s Hs; apply Hlive; right; exact Hs).
  cbn [sweep]. destruct (now >? ps_expiresAt session) eqn:Hexp.
  - assert (Hne : id <> k).
    { intros ->. rewrite (Hlive session) in Hexp; [discriminate | left; reflexivity]. }
    rewrite bind_unfold, bind_unfold.
    pose proof (updateTransaction_same_sessions W (ps_txRecordId session)
                  session_expired_update b) as Hs.
    destruct (updateTransaction W _ _ b) as [[t | e] b1]; cbn [snd] in Hs.
    + cbv [set_sessions]. rewrite (IH Hrest). cbn [paymentSessions].
      rewrite sessions_get_delete_other by exact Hne. rewrite Hs. reflexivity.
    + cbn [snd]. rewrite Hs. reflexivity.
  - rewrite bind_unfold. cbv [ret]. apply (IH Hrest).
Qed.

(** X29. The sweeper keeps the sessions that have not expired.  In a
    table with one session per id, a session whose expiry time is not
    before the current time in seconds is still in the table, unchanged,
    after [cleanupSessions], whether the sweep completes or fails on
    another session. *)
Theorem sweeper_keeps_live_sessions k session b :
  NoDup (map fst (paymentSessions b)) ->
  sessions_get k (paymentSessions b) = Some session ->
  (w_now W (calls b) / 1000 >? ps_expiresAt session) = false ->
  sessions_get k (paymentSessions (snd (cleanupSessions W b))) = Some session.
Proof.
  intros Hnd Hget Hlive. unfold cleanupSessions.
  cbv [bind unix_now Date_now tick ret gets]. cbn [paymentSessions calls].
  rewrite sweep_keeps_live; [exact Hget | ].
  intros s Hs. cbn [paymentSessions] in Hs.
  rewrite (sessions_get_unique k _ session s Hnd Hget Hs). exact Hlive.
Qed.

Lemma sweep_live_prefix now live rest b :
  Forall (fun e => (now >? ps_expiresAt (snd e)) = false) live ->
  sweep W now (live ++ rest) b = sweep W now rest b.
Proof.
  induction 1 as [| [id s] live Hs _ IH]; [reflexivity | ].
  cbn [app sweep]. cbn [snd] in Hs. rewrite Hs. exact IH.
Qed.

(** X30. The sweeper stops at the first expired session whose ledger
    record it cannot reach.  When the sessions before it in the table are
    live, and the active wallet has no record with its transaction id, or
    no wallet is active, [cleanupSessions] fails with the
    transaction-not-found (or no-active-wallet) error: that session is not
    removed, no session after it is examined, and nothing is written. *)
Theorem sweeper_stops_at_a_session_without_record b live id session rest :
  paymentSessions b = live ++ (id, session) :: rest ->
  Forall (fun e => (w_now W (calls b) / 1000 >? ps_expiresAt (snd e)) = false) live ->
  (w_now W (calls b) / 1000 >? ps_expiresAt session) = true ->
  active_tx (ps_txRecordId session) (state b) = None ->
  exists e,
    cleanupSessions W b
    = (Err e, mkBroker (state b) (paymentSessions b) (trace b) (S (calls b))) /\
    (e = TxNotFound (ps_txRecordId session) \/ e = NoActiveWallet).
Proof.
  intros Htable Hlive Hexp Htx. unfold cleanupSessions.
  cbv [bind unix_now Date_now tick ret gets]. cbn [paymentSessions calls].
  rewrite Htable, (sweep_live_prefix _ _ _ _ Hlive). cbn [sweep]. rewrite Hexp.
  rewrite bind_unfold, bind_unfold.
  apply active_tx_none in Htx as [Hnone | (entry & Hact & Hfind)].
  - match goal with
    | |- context [updateTransaction W ?i ?u ?b0] =>
        rewrite (updateTransaction_no_wallet W i u b0 Hnone)
    end.
    eexists. split; [reflexivity | right; reflexivity].
  - match goal with
    | |- context [updateTransaction W ?i ?u ?b0] =>
        rewrite (updateTransaction_missing W i u b0 entry Hact Hfind)
    end.
    eexists. split; [reflexivity | left; reflexivity].
Qed.

End Sweeper.

(* ===================================================================== *)
(** * The properties of the settings and of the flows, on the scenarios *)
(* ===================================================================== *)

(** X1 on a patch that sets the daily cap of the sample wallet. *)
Lemma setRules_sets_the_daily_cap_alone :
  exists rules',
    fst (setRules Scenario.world Scenario.cap_patch Scenario.one) = Ok rules' /\
    dailyCap rules' = Some "1.00"%string /\ maxPerTransaction rules' = None.
Proof.
  destruct (setRules_is_a_partial_update Scenario.world Scenario.cap_patch Scenario.one
              Scenario.first)
    as (rules' & b' & Hrun & _ & _ & _ & _ & Hm & Hd & _).
  - reflexivity.
  - exists rules'. split; [rewrite Hrun; reflexivity | ].
    split; [exact Hd | exact Hm].
Defined.

(** X2 on a process that holds no wallet. *)
Lemma payment_without_wallet_is_refused :
  @x402Fetch Sample.prims Scenario.world Sample.url Sample.options Scenario.nobody
  = (Err NoActiveWallet, Scenario.nobody) /\
  @Api.getTodaySpent Sample.prims Scenario.world Scenario.nobody
  = (Ok "0.0"%string, Scenario.nobody).
Proof.
  destruct (operations_need_an_active_wallet (P := Sample.prims) Scenario.world
              Scenario.nobody)
    as (_ & _ & _ & _ & _ & _ & _ & _ & _ & _ & Hfetch & _ & _ & Hspent).
  - reflexivity.
  - split; [apply Hfetch | exact Hspent].
Defined.

(** X3 on the sample wallet. *)
Lemma payment_after_freeze_is_refused :
  fst (@x402Fetch Sample.prims Scenario.world Sample.url Sample.options
         (snd (freezeWallet Scenario.world Scenario.one))) = Err WalletFrozen.
Proof.
  destruct (freezeWallet_blocks_payments (P := Sample.prims) Scenario.world Sample.url
              Sample.options Scenario.one Scenario.first)
    as (frozen & b1 & Hb1 & Hact & Hfrozen & _ & Hall).
  - reflexivity.
  - destruct (Hall b1 frozen Hact Hfrozen) as (Hfetch & _).
    rewrite Hb1, Hfetch. reflexivity.
Defined.

(** X4 on the single-shot run. *)
Lemma single_shot_signs_on_base_sepolia :
  emits_only (signs_on "eip155:84532" Sample.local_key) Scenario.one
    (snd (@x402Fetch Sample.prims Scenario.world Sample.url Sample.options Scenario.one)).
Proof.
  apply (x402Fetch_signs_on_the_selected_network (P := Sample.prims) Scenario.world
           Sample.url Sample.options Scenario.one Scenario.first).
  reflexivity.
Defined.

(** X5 on the sample requirement. *)
Lemma sample_authorization_is_the_signed_message :
  exists data,
    trace (snd (@signPayment Sample.prims Scenario.world Scenario.adapter
                  Sample.requirement Scenario.one))
    = [EvSign Sample.local_key data] /\
    tm_value (td_message data) = 100000 /\
    tm_validBefore (td_message data) = tm_validAfter (td_message data) + 600 /\
    au_validBefore (authorization Scenario.signed)
    = Js.bigint_toString (tm_validBefore (td_message data)).
Proof.
  destruct (signPayment_authorization_is_the_signed_message (P := Sample.prims)
              Scenario.world Scenario.adapter Sample.requirement Scenario.one
              Scenario.signed
              (snd (@signPayment Sample.prims Scenario.world Scenario.adapter
                      Sample.requirement Scenario.one)))
    as (data & Htrace & _ & _ & _ & _ & _ & _ & _ & _ & Hvalue & _ & Hbefore & _ & Htext
        & _).
  - right. reflexivity.
  - reflexivity.
  - reflexivity.
  - reflexivity.
  - vm_compute. reflexivity.
  - exists data. split; [exact Htrace | ].
    split; [ | split; [exact Hbefore | exact Htext]].
    assert (E : @BigInt Sample.prims (pr_amount Sample.requirement) = Some 100000)
      by (vm_compute; reflexivity).
    rewrite E in Hvalue. injection Hvalue as <-. reflexivity.
Defined.

(** X6 on a server that asks for no payment. *)
Lemma free_content_is_returned_unpaid :
  fst (@x402Fetch Sample.prims Scenario.free_world Sample.url Sample.options Scenario.one)
  = Ok (mkFetchResult 200 [("content-type", "text/plain")]%string "free content" None) /\
  fst (@x402Prepare Sample.prims Scenario.free_world Sample.url Sample.options
         Scenario.one)
  = Err (Not402 200).
Proof.
  destruct (free_resource_is_passed_through (P := Sample.prims) Scenario.free_world
              Sample.url Sample.options Scenario.one Scenario.first Scenario.adapter
              Scenario.free_response)
    as (Hfetch & Hprepare).
  - reflexivity.
  - reflexivity.
  - reflexivity.
  - reflexivity.
  - discriminate.
  - rewrite Hfetch, Hprepare. split; reflexivity.
Defined.

(** X7 on the sample run of the two-phase flow. *)
Lemma sample_session_holds_the_shown_message :
  exists session,
    sessions_get Sample.session_id (paymentSessions (snd (Sample.prepared 1)))
    = Some session /\
    ps_authorization session = sd_message Scenario.descriptor /\
    au_validBefore (sd_message Scenario.descriptor)
    = Js.bigint_toString (ps_expiresAt session).
Proof.
  destruct (x402Complete_sends_what_x402Prepare_showed (P := Sample.prims) Scenario.world
              Sample.url Sample.options
              (Sample.process Sample.browser false DEFAULT_RULES [])
              Scenario.descriptor (snd (Sample.prepared 1)) "0xsig")
    as (session & Hget & _ & Hauth & _ & _ & _ & _ & _ & Hbefore & _).
  - vm_compute. reflexivity.
  - exists session. split; [exact Hget | split; [exact Hauth | exact Hbefore]].
Defined.

(** X8 on the sample session, completed after the active wallet was
    switched. *)
Lemma completion_after_a_switch_pays_and_fails :
  exists e,
    fst (@x402Complete Sample.prims Scenario.world Sample.session_id "0xsig"
           (Scenario.switched (snd (Sample.prepared 1)))) = Err e /\
    state (snd (@x402Complete Sample.prims Scenario.world Sample.session_id "0xsig"
                  (Scenario.switched (snd (Sample.prepared 1)))))
    = state (Scenario.switched (snd (Sample.prepared 1))).
Proof.
  destruct (x402Complete_without_its_ledger_record (P := Sample.prims) Scenario.world
              Sample.session_id "0xsig" (Scenario.switched (snd (Sample.prepared 1)))
              (Scenario.session 1700000000) Scenario.paid_response)
    as (e & Hrun & _ & Hstate & _).
  - vm_compute. reflexivity.
  - vm_compute. reflexivity.
  - vm_compute. reflexivity.
  - vm_compute. reflexivity.
  - exists e. split; [rewrite Hrun; reflexivity | exact Hstate].
Defined.

(** X9 on the sample session, completed after the wallet was frozen. *)
Lemma completion_on_a_frozen_wallet_settles :
  fst (@x402Complete Sample.prims Scenario.world Sample.session_id "0xsig"
         (snd (freezeWallet Scenario.world (snd (Sample.prepared 1)))))
  <> Err WalletFrozen /\
  exists tx',
    active_tx "00000000000000000000000000000003"
      (state (snd (@x402Complete Sample.prims Scenario.world Sample.session_id "0xsig"
                     (snd (freezeWallet Scenario.world (snd (Sample.prepared 1)))))))
    = Some tx' /\
    tx_status tx' = settled.
Proof.
  destruct (x402Complete_does_not_consult_the_freeze (P := Sample.prims) Scenario.world
              Sample.session_id "0xsig"
              (snd (freezeWallet Scenario.world (snd (Sample.prepared 1))))
              (Scenario.session 1700000000)
              (set_frozen true
                 (Sample.entry Sample.browser false DEFAULT_RULES [Sample.pending_tx]))
              Sample.pending_tx Scenario.paid_response)
    as (entry' & tx' & _ & _ & _ & Htx & Hsettled & Hne).
  - vm_compute. reflexivity.
  - reflexivity.
  - vm_compute. reflexivity.
  - vm_compute. reflexivity.
  - vm_compute. reflexivity.
  - vm_compute. reflexivity.
  - reflexivity.
  - split; [exact Hne | ]. exists tx'. split; [exact Htx | exact Hsettled].
Defined.

(** X11 on a blocked service: the limit of 0.05 USDC is reported, not
    the blocklist. *)
Lemma over_limit_payment_to_a_blocked_service :
  @enforceRules Sample.prims Scenario.world "100000" "api.evil.example" 6
    (Sample.process Sample.local_key false (Sample.listed_rules (Some "0.05")) [])
  = (Err (RuleViolation OverPerTx (over_per_tx_message 100000 "0.05" 6)),
     Sample.process Sample.local_key false (Sample.listed_rules (Some "0.05")) []).
Proof.
  apply (per_transaction_limit_is_checked_first (P := Sample.prims) Scenario.world
           "100000" "api.evil.example" 6
           (Sample.process Sample.local_key false (Sample.listed_rules (Some "0.05")) [])
           (Sample.entry Sample.local_key false (Sample.listed_rules (Some "0.05")) [])
           "0.05" 50000 100000).
  - reflexivity.
  - reflexivity.
  - vm_compute. reflexivity.
  - vm_compute. reflexivity.
  - lia.
Defined.

(** X12 with the allowlist [example.com]: [api.example.com] is admitted. *)
Lemma allowlisted_service_is_admitted :
  fst (@enforceRules Sample.prims Scenario.world "100000" "api.example.com" 6
         (Sample.process Sample.local_key false Scenario.allowing_rules []))
  = Ok tt.
Proof.
  apply (proj1 (allowlist_admits_matching_services_only (P := Sample.prims) Scenario.world
                  "100000" "api.example.com"
                  (Sample.process Sample.local_key false Scenario.allowing_rules [])
                  (Sample.entry Sample.local_key false Scenario.allowing_rules [])
                  100000 eq_refl ltac:(vm_compute; reflexivity) I I
                  ltac:(vm_compute; reflexivity))).
  right. vm_compute. reflexivity.
Defined.

(** X14 with a cap of 0.10 USDC and one pending payment of 0.1 USDC in
    the ledger: a further payment of 0.1 USDC passes. *)
Lemma pending_payment_leaves_the_cap_untouched :
  @sumSettledOn Sample.prims (@today_at Sample.prims Scenario.world 0)
    [Sample.pending_tx] 0 = Some 0 /\
  fst (@enforceRules Sample.prims Scenario.world "100000" "api.example.com" 6
         (Sample.process Sample.local_key false (Sample.capped_rules None)
            [Sample.pending_tx]))
  = Ok tt.
Proof.
  apply (pending_and_failed_payments_do_not_count (P := Sample.prims) Scenario.world
           "100000" "api.example.com"
           (Sample.process Sample.local_key false (Sample.capped_rules None)
              [Sample.pending_tx])
           (Sample.entry Sample.local_key false (Sample.capped_rules None)
              [Sample.pending_tx])
           "0.10" 100000 100000).
  - reflexivity.
  - constructor; [left; discriminate | constructor].
  - reflexivity.
  - vm_compute. reflexivity.
  - vm_compute. reflexivity.
  - lia.
  - exact I.
  - split; [reflexivity | left; reflexivity].
Defined.

(** X15 for 0.01 USDC: all six fraction digits are written. *)
Lemma formatAtomic_of_10000 : formatAtomic 10000 6 = "0.010000"%string.
Proof.
  rewrite (proj1 (formatAtomic_writes_every_fraction_digit 5 10000 ltac:(lia))).
  vm_compute. reflexivity.
Defined.

(** X16 after one settled payment of 0.09 USDC made the same day. *)
Lemma today_spent_after_one_payment :
  fst (@Api.getTodaySpent Sample.prims Scenario.world
         (Sample.process Sample.local_key false DEFAULT_RULES [Sample.earlier_today]))
  = Ok "0.09"%string.
Proof.
  rewrite (proj1 (today_spent_is_the_sum_of_the_daily_check (P := Sample.prims)
                    Scenario.world
                    (Sample.process Sample.local_key false DEFAULT_RULES
                       [Sample.earlier_today])
                    (Sample.entry Sample.local_key false DEFAULT_RULES
                       [Sample.earlier_today])
                    90000 eq_refl ltac:(vm_compute; reflexivity) ltac:(lia))).
  vm_compute. reflexivity.
Defined.

(** X17 on the legacy document without wallet. *)
Lemma migrated_document_is_left_alone :
  Store.migrateIfNeeded "0f1e2d3c4b5a6978" (Json.of_state Store.empty_state)
  = Some (Json.of_state Store.empty_state).
Proof.
  apply (migrateIfNeeded_is_idempotent "a1b2c3d4e5f60718" "0f1e2d3c4b5a6978"
           (JObj Sample.legacy_fields) (Json.of_state Store.empty_state)).
  vm_compute. reflexivity.
Defined.

(** X18 on a legacy document that holds a wallet, rules and one
    transaction. *)
Lemma legacy_document_becomes_wallet_1 :
  Store.migrateIfNeeded "a1b2c3d4e5f60718" (JObj Scenario.legacy_wallet_fields)
  = Some (Json.of_state
            (mkState
               [Sample.entry Sample.local_key false (Sample.capped_rules None)
                  [Sample.earlier_today]]
               (Some "a1b2c3d4e5f60718") base)).
Proof.
  rewrite (legacy_wallet_is_carried_over "a1b2c3d4e5f60718" Scenario.legacy_wallet_fields
             (mkWalletInfo "0x2222222222222222222222222222222222222222"
                "2023-11-01T00:00:00.000Z" false)
             Sample.local_key (Some (Sample.capped_rules None))
             (Some [Sample.earlier_today])).
  - vm_compute. reflexivity.
  - vm_compute. reflexivity.
  - vm_compute. reflexivity.
  - vm_compute. reflexivity.
  - vm_compute. reflexivity.
  - vm_compute. reflexivity.
Defined.

(** X19 on a file system that holds the legacy state file. *)
Lemma legacy_file_is_rewritten :
  exists doc ops,
    Store.initStore Sample.parse "a1b2c3d4e5f60718" Sample.home Sample.legacy_fs
    = Some (doc, ops) /\
    Store.fs_read (Store.statePath Sample.home) (Store.fs_run ops Sample.legacy_fs)
    = Some (Json.stringify doc).
Proof.
  destruct (Store.initStore Sample.parse "a1b2c3d4e5f60718" Sample.home Sample.legacy_fs)
    as [[doc ops] | ] eqn:Hinit; [ | vm_compute in Hinit; discriminate].
  exists doc, ops. split; [reflexivity | ].
  exact (proj1 (initStore_leaves_its_document_on_disk Sample.parse "a1b2c3d4e5f60718"
                  "a1b2c3d4e5f60718" Sample.home Sample.legacy_fs doc ops Hinit)).
Defined.

(** X20: switching to the second wallet of two makes its rules the
    rules in force. *)
Lemma switching_to_the_treasury :
  getActiveEntry (state (snd (switchWallet Scenario.world "0f1e2d3c4b5a6978" Scenario.two)))
  = Some Scenario.second.
Proof.
  destruct (switchWallet_selects_the_wallet Scenario.world "0f1e2d3c4b5a6978" Scenario.two
              Scenario.second)
    as (b' & Hrun & _ & Hactive & _).
  - reflexivity.
  - discriminate.
  - rewrite Hrun. exact Hactive.
Defined.

(** X21: after the active wallet of two was removed, the first wallet
    of the remaining list is the active one. *)
Lemma removing_the_active_wallet :
  activeWalletId
    (state (snd (removeWallet Scenario.world "a1b2c3d4e5f60718" Scenario.two)))
  = first_id
      (wallets (state (snd (removeWallet Scenario.world "a1b2c3d4e5f60718" Scenario.two)))).
Proof.
  destruct (removeWallet_reassigns_the_active_wallet Scenario.world "a1b2c3d4e5f60718"
              Scenario.two Scenario.first)
    as (b' & Hrun & _ & Hactive & _).
  - reflexivity.
  - rewrite Hrun. exact (Hactive eq_refl).
Defined.

(** X22: a wallet created with the defaults next to the first one. *)
Lemma second_wallet_is_created_open :
  exists entry,
    fst (@createWallet Sample.prims Scenario.world Scenario.providers None None None
           Scenario.one) = Ok entry /\
    we_label entry = "Wallet 2"%string /\
    we_rules entry = DEFAULT_RULES /\
    wi_frozen (we_wallet entry) = false.
Proof.
  destruct (createWallet_adds_an_open_wallet (P := Sample.prims) Scenario.world
              Scenario.providers None None None Scenario.one "0x0xgenerated"
              (LocalKeyConfig "0xgenerated")
              (snd (@provision Sample.prims Scenario.providers None None Scenario.one)))
    as (entry & b' & Hrun & _ & _ & _ & _ & _ & _ & Hlabel & Hwallet & _ & Hrules & _).
  - vm_compute. reflexivity.
  - exists entry. rewrite Hrun, Hlabel, Hwallet, Hrules.
    repeat split; vm_compute; reflexivity.
Defined.

(** X24: registering the agent of the first wallet. *)
Lemma registration_is_stored :
  exists merged,
    getAgentIdentity
      (state (snd (setAgentIdentity Scenario.world Scenario.registration Scenario.one)))
    = Some merged /\
    ag_name merged = "ResearchBot"%string /\
    ag_agentId merged = Some "42"%string.
Proof.
  destruct (setAgentIdentity_merges_the_fields Scenario.world Scenario.registration
              Scenario.one Scenario.first)
    as (merged & Hget & Hname & _ & Hid & _).
  - reflexivity.
  - exists merged. rewrite Hget, Hname, Hid. repeat split.
Defined.

(** X25 on the first wallet. *)
Lemma freeze_then_unfreeze_restores_the_document :
  state (snd (unfreezeWallet Scenario.world (snd (freezeWallet Scenario.world Scenario.one))))
  = state Scenario.one.
Proof.
  apply (unfreezeWallet_undoes_freezeWallet Scenario.world Scenario.one Scenario.first).
  - reflexivity.
  - reflexivity.
Defined.

(** X28 on a ledger of two records: the limit 1 gives the newest one,
    and the limit -1 gives the newest one too, as the list without its
    oldest record. *)
Lemma listing_with_limits_1_and_minus_1 :
  @getTransactions (Some (Js.integer 1))
    (Sample.process Sample.local_key false DEFAULT_RULES
       [Sample.earlier_today; Sample.pending_tx])
  = (Ok [Sample.pending_tx],
     Sample.process Sample.local_key false DEFAULT_RULES
       [Sample.earlier_today; Sample.pending_tx]) /\
  @getTransactions (Some (Js.integer (-1)))
    (Sample.process Sample.local_key false DEFAULT_RULES
       [Sample.earlier_today; Sample.pending_tx])
  = (Ok [Sample.pending_tx],
     Sample.process Sample.local_key false DEFAULT_RULES
       [Sample.earlier_today; Sample.pending_tx]).
Proof.
  destruct (getTransactions_lists_the_newest_first (P := Sample.prims) Scenario.world
              (Sample.process Sample.local_key false DEFAULT_RULES
                 [Sample.earlier_today; Sample.pending_tx])
              (Sample.entry Sample.local_key false DEFAULT_RULES
                 [Sample.earlier_today; Sample.pending_tx]) eq_refl)
    as (Hnat & _ & Hneg & _).
  split; [exact (Hnat 1%nat) | exact (Hneg 1%nat ltac:(lia))].
Defined.

(** X29: a sweep right after [x402Prepare] keeps the session. *)
Lemma fresh_session_survives_the_sweep :
  sessions_get Sample.session_id
    (paymentSessions (snd (cleanupSessions Scenario.world (snd (Sample.prepared 1)))))
  = Some (Scenario.session 1700000000).
Proof.
  apply (sweeper_keeps_live_sessions Scenario.world Sample.session_id
           (Scenario.session 1700000000) (snd (Sample.prepared 1))).
  - vm_compute. constructor; [intros [] | constructor].
  - vm_compute. reflexivity.
  - vm_compute. reflexivity.
Defined.

(** X30: a sweep after the session expired and the active wallet was
    switched fails, and the session stays. *)
Lemma sweep_after_a_switch_fails :
  exists e,
    fst (cleanupSessions Scenario.slow_world
           (Scenario.switched (snd (Sample.prepared 400000)))) = Err e /\
    paymentSessions (snd (cleanupSessions Scenario.slow_world
                            (Scenario.switched (snd (Sample.prepared 400000)))))
    = [(Sample.session_id, Scenario.session 1700000400)].
Proof.
  destruct (sweeper_stops_at_a_session_without_record Scenario.slow_world
              (Scenario.switched (snd (Sample.prepared 400000))) []
              Sample.session_id (Scenario.session 1700000400) [])
    as (e & Hrun & _).
  - vm_compute. reflexivity.
  - constructor.
  - vm_compute. reflexivity.
  - vm_compute. reflexivity.
  - exists e. rewrite Hrun. split; [reflexivity | ]. vm_compute. reflexivity.
Defined.
